(** * The schema-migration manager of [backend/src/database/dbMigrate.ts]

    A shallow embedding of [DatabaseMigrationManager] and of the top-level
    [main], with the properties of its specification.

    Conventions of the embedding.
    - A JavaScript string is a [string]; a file's text is the [string] of its
      UTF-8 bytes ([fs.readFile(p, 'utf8')] followed by [hash.update] hands
      the same bytes to the digest for a well-formed UTF-8 file).  The
      digest of [crypto.createHash('md5')] is MD5 itself.
    - A version parsed from a file name is the Number [parseInt] returns,
      held as the [N] it equals: the integer the digits write when this is
      below [2^53], the nearest Number (ties to even) otherwise, as Node
      computes it.  A file name has at most 255 bytes, so the Number is
      finite.  A [BIGINT] of the ledger is a [Z].
    - The ordered read of the ledger casts every version to [int]: it
      raises [integer out of range] as soon as a row is outside that
      range, and the rows it delivers are within it.
    - [async] code runs sequentially: every [await] is a bind of the monad
      [M] below, whose state is the database session together with the list
      of commands sent on the connection and the lines logged; a rejected
      promise or a [throw] is the result [Err].
    - The database of a schema is its table [migrations] and the rest of
      its content.  The text of a [.sql] file is sent as one batch and the
      [up] of a script is handed the client: either can write any table,
      the ledger too, and can end the transaction that [BEGIN] opened or
      open another.  It is a function of the database and of the state to
      roll back to.  [ROLLBACK] restores the state the open transaction
      started from, and changes nothing when none is open.  What a script
      is taken not to do is to drop or alter the table [migrations] or to
      change the search path, so that the queries of the manager itself
      fail only as said here.  The files do not change during a run.
    - Umzug is a library, not part of the sources: [umzugUp] follows what
      its [up()] does with the [migrations] and the [storage] it is given.
    - Of the module [./db], absent from the sources, the run only needs to
      know whether [getDbClient] and [shutdown] succeed. *)

From Stdlib Require Import List Bool Arith NArith ZArith Lia.
From Stdlib Require Import Ascii String.
From Stdlib Require Import Sorting.Sorted Sorting.Permutation.
From Stdlib Require Import DecimalString DecimalN DecimalPos.
Import ListNotations.

Set Implicit Arguments.

(* ================================================================= *)
(** ** Strings *)

Module Str.

Open Scope string_scope.

(** [s.endsWith(suffix)] *)
Definition endsWith (s suffix : string) : bool :=
  let n := String.length s in
  let m := String.length suffix in
  if Nat.leb m n then String.eqb (substring (n - m) m s) suffix else false.

(** The class [\d] of a regular expression without the [u] flag. *)
Definition isDigit (c : ascii) : bool :=
  let n := N_of_ascii c in (N.leb 48 n && N.leb n 57)%bool.

Definition digitVal (c : ascii) : N := N_of_ascii c - 48.

(** The greedy match of [\d*] at the head of a string, and what follows. *)
Fixpoint spanDigits (s : string) : string * string :=
  match s with
  | String c r =>
      if isDigit c
      then let (ds, rest) := spanDigits r in (String c ds, rest)
      else ("", s)
  | EmptyString => ("", "")
  end.

Fixpoint parseDigits (acc : N) (ds : string) : N :=
  match ds with
  | String c r => parseDigits (10 * acc + digitVal c) r
  | EmptyString => acc
  end.

(** The integer a run of decimal digits writes. *)
Definition decimalValue (ds : string) : N := parseDigits 0 ds.

(** The Number nearest to a non-negative integer, ties to even: an integer
    below [2^53] is a Number, a greater one keeps its 53 leading bits,
    rounded. *)
Definition toNumber (n : N) : N :=
  (if n <? 2 ^ 53 then n
   else
     let e := N.log2 n - 52 in
     let q := N.shiftr n e in
     let r := N.land n (N.ones e) in
     let half := N.shiftl 1 (e - 1) in
     let q' :=
       if ((half <? r) || ((r =? half) && N.odd q))%bool then q + 1 else q in
     N.shiftl q' e)%N.

(** [parseInt(ds, 10)] on a non-empty run of decimal digits. *)
Definition parseInt10 (ds : string) : N := toNumber (decimalValue ds).

Definition allDigits (s : string) : Prop :=
  forall c, In c (list_ascii_of_string s) -> isDigit c = true.

End Str.

(* ================================================================= *)
(** ** The digest of [crypto.createHash('md5')] (RFC 1321) *)

Module MD5.

Open Scope N_scope.

Definition w32 (x : N) : N := N.land x 0xFFFFFFFF.
Definition add32 (x y : N) : N := w32 (x + y).
Definition not32 (x : N) : N := N.lxor (w32 x) 0xFFFFFFFF.
Definition rotl (x c : N) : N :=
  w32 (N.lor (N.shiftl x c) (N.shiftr (w32 x) (32 - c))).

Definition K : list N :=
  [ 0xd76aa478; 0xe8c7b756; 0x242070db; 0xc1bdceee;
    0xf57c0faf; 0x4787c62a; 0xa8304613; 0xfd469501;
    0x698098d8; 0x8b44f7af; 0xffff5bb1; 0x895cd7be;
    0x6b901122; 0xfd987193; 0xa679438e; 0x49b40821;
    0xf61e2562; 0xc040b340; 0x265e5a51; 0xe9b6c7aa;
    0xd62f105d; 0x02441453; 0xd8a1e681; 0xe7d3fbc8;
    0x21e1cde6; 0xc33707d6; 0xf4d50d87; 0x455a14ed;
    0xa9e3e905; 0xfcefa3f8; 0x676f02d9; 0x8d2a4c8a;
    0xfffa3942; 0x8771f681; 0x6d9d6122; 0xfde5380c;
    0xa4beea44; 0x4bdecfa9; 0xf6bb4b60; 0xbebfbc70;
    0x289b7ec6; 0xeaa127fa; 0xd4ef3085; 0x04881d05;
    0xd9d4d039; 0xe6db99e5; 0x1fa27cf8; 0xc4ac5665;
    0xf4292244; 0x432aff97; 0xab9423a7; 0xfc93a039;
    0x655b59c3; 0x8f0ccc92; 0xffeff47d; 0x85845dd1;
    0x6fa87e4f; 0xfe2ce6e0; 0xa3014314; 0x4e0811a1;
    0xf7537e82; 0xbd3af235; 0x2ad7d2bb; 0xeb86d391 ].

Definition shifts : list N :=
  [ 7; 12; 17; 22; 7; 12; 17; 22; 7; 12; 17; 22; 7; 12; 17; 22;
    5;  9; 14; 20; 5;  9; 14; 20; 5;  9; 14; 20; 5;  9; 14; 20;
    4; 11; 16; 23; 4; 11; 16; 23; 4; 11; 16; 23; 4; 11; 16; 23;
    6; 10; 15; 21; 6; 10; 15; 21; 6; 10; 15; 21; 6; 10; 15; 21 ].

Record regs := Regs { rA : N; rB : N; rC : N; rD : N }.

Definition init : regs :=
  Regs 0x67452301 0xefcdab89 0x98badcfe 0x10325476.

(** One of the 64 operations of a block; [m] holds its 16 words. *)
Definition step (m : list N) (r : regs) (i : nat) : regs :=
  let '(Regs a b c d) := r in
  let i' := N.of_nat i in
  let '(f, g) :=
    if i' <? 16 then (N.lor (N.land b c) (N.land (not32 b) d), i')
    else if i' <? 32
      then (N.lor (N.land d b) (N.land (not32 d) c), (5 * i' + 1) mod 16)
    else if i' <? 48
      then (N.lxor b (N.lxor c d), (3 * i' + 5) mod 16)
    else (N.lxor c (N.lor b (not32 d)), (7 * i') mod 16) in
  let x := add32 (add32 (add32 f a) (nth i K 0)) (nth (N.to_nat g) m 0) in
  Regs d (add32 b (rotl x (nth i shifts 0))) b c.

Definition word_le (b0 b1 b2 b3 : N) : N :=
  b0 + N.shiftl b1 8 + N.shiftl b2 16 + N.shiftl b3 24.

Fixpoint words (fuel : nat) (bs : list N) : list N :=
  match fuel, bs with
  | S k, b0 :: b1 :: b2 :: b3 :: r => word_le b0 b1 b2 b3 :: words k r
  | _, _ => []
  end.

Definition block (r : regs) (bs : list N) : regs :=
  let m := words 16 bs in
  let '(Regs a b c d) := fold_left (step m) (seq 0 64) r in
  Regs (add32 (rA r) a) (add32 (rB r) b) (add32 (rC r) c) (add32 (rD r) d).

Fixpoint blocks (fuel : nat) (r : regs) (bs : list N) : regs :=
  match fuel, bs with
  | S k, _ :: _ => blocks k (block r (firstn 64 bs)) (skipn 64 bs)
  | _, _ => r
  end.

Definition bytes_le (n : nat) (x : N) : list N :=
  map (fun i => N.land (N.shiftr x (8 * N.of_nat i)) 0xFF) (seq 0 n).

(** The message, [0x80], zeros up to 56 modulo 64, the bit length. *)
Definition pad (bs : list N) : list N :=
  let len := List.length bs in
  let zeros := Nat.modulo (64 + 55 - Nat.modulo len 64) 64 in
  bs ++ [0x80] ++ repeat 0 zeros ++ bytes_le 8 (8 * N.of_nat len).

Definition digest (bs : list N) : list N :=
  let p := pad bs in
  let '(Regs a b c d) := blocks (S (List.length p / 64)) init p in
  bytes_le 4 a ++ bytes_le 4 b ++ bytes_le 4 c ++ bytes_le 4 d.

Definition hexDigit (n : N) : ascii :=
  ascii_of_N (if n <? 10 then 48 + n else 87 + n).

Fixpoint hex (bs : list N) : string :=
  match bs with
  | b :: r => String (hexDigit (N.shiftr b 4))
                (String (hexDigit (N.land b 0xF)) (hex r))
  | [] => EmptyString
  end.

(** [createHash('md5').update(content).digest('hex')] *)
Definition md5hex (content : string) : string :=
  hex (digest (map N_of_ascii (list_ascii_of_string content))).

End MD5.

(* ================================================================= *)
(** ** Data model *)

(** A path built by [path.join(dir, name)]. *)
Record Path := { dirname : string; basename : string }.

Definition pathJoin (dir name : string) : Path :=
  {| dirname := dir; basename := name |}.

(** [interface MigrationFile] *)
Module MigrationFile.
Record t := make { name : string; version : N; fullPath : Path }.
End MigrationFile.

(** [interface AppliedMigration]: a row of the table [migrations].  The
    driver hands the [BIGINT] over as its decimal text and the code reads it
    back with [parseInt(r.version, 10)]; the field holds that integer. *)
Module AppliedMigration.
Record t := make { version : Z; name : string; md5 : string }.
End AppliedMigration.

(** A directory: its entries in [readdir] order, each with its text. *)
Definition Dir := list (string * string).

(** The file system: the entries of each directory (none when the directory
    is absent, which is what [mkdir -p] leaves behind). *)
Definition FS := string -> Dir.

Fixpoint lookupFile (name : string) (d : Dir) : option string :=
  match d with
  | (n, c) :: r => if String.eqb n name then Some c else lookupFile name r
  | [] => None
  end.

Inductive Error :=
| VersionMismatch (expected : Z) (found : string)
| Md5Mismatch (recordedName recordedMd5 currentMd5 : string)
| AppliedMissing (recordedName : string)
| ENOENT (p : Path)
| QueryFailed (name : string)
| LoadFailed (p : Path)
| NoUpExport (name : string)
| UpThrew (name : string)
| ImportFailed (name : string) (importError : Error)
| DuplicateKey (version : Z)
| IntegerOutOfRange
| MigrationError (name : string) (cause : Error)
| ClientUnavailable
| ShutdownFailed.

Inductive Result (A : Type) :=
| Ok (a : A)
| Err (e : Error).
Arguments Ok {A} a.
Arguments Err {A} e.

(** What is sent on the connection, in the order of sending. *)
Inductive Command :=
| CreateSchema (schemaName : string)
| CreateTable
| SelectApplied
| Begin
| Script (name : string)
| Commit
| Rollback
| Insert (row : AppliedMigration.t)
| Delete (version : Z)
| ResetSearchPath.

Inductive LogLine :=
| InfoApplied (name : string)
| InfoSchemaDone (schemaName : string)
| InfoAllDone
| InfoExiting
| ErrorLoad (p : Path) (e : Error)
| ErrorImport (name : string) (e : Error)
| ErrorRolledBack (name : string) (e : Error)
| ErrorProcessFailed (e : Error)
| ErrorFatal (e : Error).

(** Stable sort, as [Array.prototype.sort] with a comparator. *)
Section Sort.
Variable A : Type.
Variable le : A -> A -> bool.

Fixpoint insertSorted (x : A) (l : list A) : list A :=
  match l with
  | [] => [x]
  | y :: r => if le x y then x :: l else y :: insertSorted x r
  end.

Definition sortBy (l : list A) : list A := fold_right insertSorted [] l.
End Sort.

(** [array.at(-1)] *)
Definition lastOpt (A : Type) (l : list A) : option A :=
  match rev l with
  | x :: _ => Some x
  | [] => None
  end.

(** [extractVersion]: the match of [/^(\d+)-/], read in base 10. *)
Definition extractVersion (name : string) : option N :=
  match Str.spanDigits name with
  | (String d ds, String "-" _) => Some (Str.parseInt10 (String d ds))
  | _ => None
  end.

Definition recognised (f : string) : bool :=
  Str.endsWith f ".js" || Str.endsWith f ".ts" || Str.endsWith f ".sql".

Definition appliedVersionsOf (appliedMigrations : list AppliedMigration.t)
  : list Z :=
  map AppliedMigration.version appliedMigrations.

Definition includes (l : list Z) (v : Z) : bool := existsb (Z.eqb v) l.

(** The files of a listing with a recognised extension and a version,
    by ascending version. *)
Definition allMigrationsOf (migrationDir : string) (files : list string)
  : list MigrationFile.t :=
  sortBy
    (fun a b => N.leb (MigrationFile.version a) (MigrationFile.version b))
    (flat_map
       (fun m : string * option N * Path =>
          match m with
          | (name, Some version, fullPath) =>
              [MigrationFile.make name version fullPath]
          | (_, None, _) => []
          end)
       (map (fun name =>
               (name, extractVersion name, pathJoin migrationDir name))
            (filter recognised files))).

Definition pendingOf (appliedVersions : list Z)
  (allMigrations : list MigrationFile.t) : list MigrationFile.t :=
  filter
    (fun m => negb (includes appliedVersions
                      (Z.of_N (MigrationFile.version m))))
    allMigrations.

(** The loop that prevents version skipping, from index [i] on. *)
Fixpoint versionLoop (expectedNextVersion : Z) (i : nat)
  (rest : list MigrationFile.t) : Result unit :=
  match rest with
  | [] => Ok tt
  | m :: rest' =>
      let expected := (expectedNextVersion + Z.of_nat i)%Z in
      if Z.eqb (Z.of_N (MigrationFile.version m)) expected
      then versionLoop expectedNextVersion (S i) rest'
      else Err (VersionMismatch expected (MigrationFile.name m))
  end.

(** [getPendingMigration] after [readdir]: pure in the listing. *)
Definition computePending (appliedMigrations : list AppliedMigration.t)
  (migrationDir : string) (files : list string)
  : Result (list MigrationFile.t) :=
  let allMigrations := allMigrationsOf migrationDir files in
  let appliedVersions := appliedVersionsOf appliedMigrations in
  let lastAppliedVersion :=
    match lastOpt appliedVersions with Some v => v | None => 0%Z end in
  let expectedNextVersion := (lastAppliedVersion + 1)%Z in
  let pendingMigrations := pendingOf appliedVersions allMigrations in
  match versionLoop expectedNextVersion 0 pendingMigrations with
  | Ok _ => Ok pendingMigrations
  | Err e => Err e
  end.

(** The rows of [SELECT version, name, md5 FROM migrations ORDER BY
    version::int]. *)
Definition selectApplied (ledger : list AppliedMigration.t)
  : list AppliedMigration.t :=
  sortBy
    (fun a b => Z.leb (AppliedMigration.version a) (AppliedMigration.version b))
    ledger.

(** The range of the cast [version::int]. *)
Definition inInt (v : Z) : bool :=
  ((-2147483648 <=? v) && (v <=? 2147483647))%Z.

(** The ordered read raises [integer out of range] when the [BIGINT] of a
    row is outside the range of the cast. *)
Definition readable (ledger : list AppliedMigration.t) : bool :=
  forallb (fun r => inInt (AppliedMigration.version r)) ledger.

Definition hasVersion (v : Z) (ledger : list AppliedMigration.t) : bool :=
  existsb (fun r => Z.eqb (AppliedMigration.version r) v) ledger.

(* ================================================================= *)
(** ** The manager *)

Section Manager.

(** The content of a schema besides its ledger. *)
Variable D : Type.

(** A schema: the table [migrations] in insertion order, and the rest. *)
Record Db := { ledger : list AppliedMigration.t; data : D }.

(** What the statements of a script do to the session they are sent on:
    from the database and the state to roll back to while a transaction
    is open, the two after the script and whether it succeeded.  A script
    may write any table, the ledger too, and may end the transaction it is
    started in or open another. *)
Definition Batch := Db -> option Db -> Db * option Db * bool.

(** Running the text of a [.sql] file as one batch. *)
Variable sqlExec : string -> Batch.

(** A loaded script module: its export [up], when it is a function, is
    called with the client. *)
Record Exports := { up : option Batch }.

(** [require] or [import] of a script, by its text; [None] when loading
    throws. *)
Variable evalModule : string -> option Exports.

(** Of the module [./db], which is not part of the sources: whether
    [getDbClient] and [shutdown] succeed, and [schemaNames.main]. *)
Variable connects : bool.
Variable shutsDown : bool.
Variable mainSchema : string.

(** [process.cwd()] *)
Variable currentDir : string.

Variable fs : FS.

(** The session: the visible state, and the state to roll back to while a
    transaction is open. *)
Record World := {
  db : Db;
  snapshot : option Db;
  sent : list Command;
  logged : list LogLine
}.

Definition M (A : Type) := World -> Result A * World.

Definition ret {A} (a : A) : M A := fun w => (Ok a, w).
Definition throw {A} (e : Error) : M A := fun w => (Err e, w).
Definition bind {A B} (m : M A) (k : A -> M B) : M B :=
  fun w => match m w with
           | (Ok a, w') => k a w'
           | (Err e, w') => (Err e, w')
           end.
Definition tryCatch {A} (m : M A) (handler : Error -> M A) : M A :=
  fun w => match m w with
           | (Ok a, w') => (Ok a, w')
           | (Err e, w') => handler e w'
           end.

Notation "x <- m ;; k" := (bind m (fun x => k))
  (at level 61, m at next level, right associativity).
Notation "m ;;; k" := (bind m (fun _ => k))
  (at level 61, right associativity).

Definition log (l : LogLine) : M unit :=
  fun w => (Ok tt, {| db := db w; snapshot := snapshot w; sent := sent w;
                      logged := logged w ++ [l] |}).

Definition send (c : Command) : M unit :=
  fun w => (Ok tt, {| db := db w; snapshot := snapshot w;
                      sent := sent w ++ [c]; logged := logged w |}).

Definition setDb (d : Db) (s : option Db) : M unit :=
  fun w => (Ok tt, {| db := d; snapshot := s; sent := sent w;
                      logged := logged w |}).

Definition getDb : M Db := fun w => (Ok (db w), w).
Definition getSnapshot : M (option Db) := fun w => (Ok (snapshot w), w).

(** [client.query('BEGIN')] *)
Definition queryBegin : M unit :=
  send Begin ;;;
  d <- getDb ;; s <- getSnapshot ;;
  match s with
  | None => setDb d (Some d)
  | Some _ => ret tt
  end.

(** [client.query('COMMIT')] *)
Definition queryCommit : M unit :=
  send Commit ;;; d <- getDb ;; setDb d None.

(** [client.query('ROLLBACK')] *)
Definition queryRollback : M unit :=
  send Rollback ;;;
  d <- getDb ;; s <- getSnapshot ;;
  match s with
  | Some d0 => setDb d0 None
  | None => setDb d None
  end.

(** The script of migration [name] sent on the connection. *)
Definition runScript (name : string) (onFail : Error) (f : Batch) : M unit :=
  send (Script name) ;;;
  d <- getDb ;; s <- getSnapshot ;;
  let '(d', s', ok) := f d s in
  setDb d' s' ;;;
  if ok then ret tt else throw onFail.

(** [INSERT INTO migrations(version, name, md5)], under the primary key. *)
Definition queryInsert (row : AppliedMigration.t) : M unit :=
  send (Insert row) ;;;
  d <- getDb ;; s <- getSnapshot ;;
  if hasVersion (AppliedMigration.version row) (ledger d)
  then throw (DuplicateKey (AppliedMigration.version row))
  else setDb {| ledger := ledger d ++ [row]; data := data d |} s.

(** [DELETE FROM migrations WHERE version = $1] *)
Definition queryDelete (v : Z) : M unit :=
  send (Delete v) ;;;
  d <- getDb ;; s <- getSnapshot ;;
  setDb {| ledger := filter (fun r => negb (Z.eqb (AppliedMigration.version r) v))
                            (ledger d);
           data := data d |} s.

(** [fs.readFile(p, 'utf8')] *)
Definition readFile (p : Path) : M string :=
  match lookupFile (basename p) (fs (dirname p)) with
  | Some content => ret content
  | None => throw (ENOENT p)
  end.

(** [fs.readdir(dir)] *)
Definition readdir (dir : string) : M (list string) :=
  ret (map fst (fs dir)).

Definition getFileMd5 (filePath : Path) : M string :=
  content <- readFile filePath ;;
  ret (MD5.md5hex content).

Definition loadTypeScriptMigration (filePath : Path) : M Exports :=
  tryCatch
    (content <- tryCatch (readFile filePath)
                         (fun _ => throw (LoadFailed filePath)) ;;
     match evalModule content with
     | Some migration => ret migration
     | None => throw (LoadFailed filePath)
     end)
    (fun error => log (ErrorLoad filePath error) ;;; throw error).

(** [mkdir -p] of a directory that exists changes nothing, and an absent
    directory has no entries before and after. *)
Definition getOrCreateMigrationDirectory (schemaFolderName : string)
  : M string :=
  ret (currentDir ++ "/src/database/migrations/" ++ schemaFolderName)%string.

Definition setupDBSchemaAndGetAppliedMigrations (schemaName : string)
  : M (list AppliedMigration.t) :=
  send (CreateSchema schemaName) ;;;
  send CreateTable ;;;
  send SelectApplied ;;;
  d <- getDb ;;
  if readable (ledger d) then ret (selectApplied (ledger d))
  else throw IntegerOutOfRange.

Definition getPendingMigration
  (appliedMigrations : list AppliedMigration.t) (migrationDir : string)
  : M (list MigrationFile.t) :=
  files <- readdir migrationDir ;;
  match computePending appliedMigrations migrationDir files with
  | Ok pendingMigrations => ret pendingMigrations
  | Err e => throw e
  end.

(** *** The step runner

    [umzug.up()] of the library Umzug: it asks the storage for the names
    already executed, keeps the migrations whose name is not among them,
    and for each of these in order awaits [up] and then [logMigration];
    an error thrown by [up] is wrapped in a [MigrationError]. *)

Record RunnableMigration := {
  rmName : string;
  rmPath : Path;
  rmUp : M unit
}.

(** The argument of [unlogMigration]: a name or an object with one. *)
Inductive NameArg :=
| NameString (name : string)
| NameObject (name : string).

Record UmzugStorage := {
  storageExecuted : M (list string);
  storageLogMigration : string -> Path -> M unit;
  storageUnlogMigration : NameArg -> M unit
}.

Fixpoint umzugApply (storage : UmzugStorage)
  (toBeApplied : list RunnableMigration) : M unit :=
  match toBeApplied with
  | [] => ret tt
  | m :: rest =>
      tryCatch (rmUp m) (fun e => throw (MigrationError (rmName m) e)) ;;;
      storageLogMigration storage (rmName m) (rmPath m) ;;;
      umzugApply storage rest
  end.

Definition umzugPending (executedNames : list string)
  (migrations : list RunnableMigration) : list RunnableMigration :=
  filter (fun m => negb (existsb (String.eqb (rmName m)) executedNames))
         migrations.

Definition umzugUp (migrations : list RunnableMigration)
  (storage : UmzugStorage) : M (list string) :=
  executedNames <- storageExecuted storage ;;
  let toBeApplied := umzugPending executedNames migrations in
  umzugApply storage toBeApplied ;;;
  ret (map rmName toBeApplied).

(** *** The callbacks handed to the step runner *)

(** [up] of the migration [name]: the file in a transaction of its own. *)
Definition migrationUp (name : string) (fullPath : Path) : M unit :=
  queryBegin ;;;
  tryCatch
    ((if Str.endsWith name ".sql"
      then
        sql <- readFile fullPath ;;
        runScript name (QueryFailed name) (sqlExec sql)
      else
        tryCatch
          (migration <- loadTypeScriptMigration fullPath ;;
           match up migration with
           | Some f => runScript name (UpThrew name) f
           | None => throw (NoUpExport name)
           end)
          (fun importError =>
             log (ErrorImport name importError) ;;;
             throw (ImportFailed name importError))) ;;;
     queryCommit ;;;
     log (InfoApplied name))
    (fun err =>
       queryRollback ;;;
       log (ErrorRolledBack name err) ;;;
       throw err).

(** The loop of [executed] over the rows read at the start of the run. *)
Fixpoint validateApplied (migrationDir : string)
  (rows : list AppliedMigration.t) : M unit :=
  match rows with
  | [] => ret tt
  | row :: rest =>
      let recordedName := AppliedMigration.name row in
      let recordedMd5 := AppliedMigration.md5 row in
      let filePath := pathJoin migrationDir recordedName in
      tryCatch
        (currentMd5 <- getFileMd5 filePath ;;
         if String.eqb currentMd5 recordedMd5 then ret tt
         else throw (Md5Mismatch recordedName recordedMd5 currentMd5))
        (fun err =>
           match err with
           | ENOENT _ => throw (AppliedMissing recordedName)
           | _ => throw err
           end) ;;;
      validateApplied migrationDir rest
  end.

Definition executed (appliedMigrations : list AppliedMigration.t)
  (migrationDir : string) : M (list string) :=
  validateApplied migrationDir appliedMigrations ;;;
  ret (map AppliedMigration.name appliedMigrations).

Definition logMigration (name : string) (migrationPath : Path) : M unit :=
  match extractVersion name with
  | None => ret tt
  | Some version =>
      md5 <- getFileMd5 migrationPath ;;
      queryInsert (AppliedMigration.make (Z.of_N version) name md5)
  end.

Definition unlogMigration (migrationName : NameArg) : M unit :=
  let name :=
    match migrationName with
    | NameObject n => n
    | NameString n => n
    end in
  match extractVersion name with
  | None => ret tt
  | Some version => queryDelete (Z.of_N version)
  end.

(** *** The run of one schema *)

(** [db.getDbClient()] *)
Definition getDbClient : M unit :=
  if connects then ret tt else throw ClientUnavailable.

(** [db.shutdown()] *)
Definition shutdown : M unit :=
  if shutsDown then ret tt else throw ShutdownFailed.

Definition runnable (m : MigrationFile.t) : RunnableMigration :=
  {| rmName := MigrationFile.name m;
     rmPath := MigrationFile.fullPath m;
     rmUp := migrationUp (MigrationFile.name m) (MigrationFile.fullPath m) |}.

Definition storageOf (appliedMigrations : list AppliedMigration.t)
  (migrationDir : string) : UmzugStorage :=
  {| storageExecuted := executed appliedMigrations migrationDir;
     storageLogMigration := logMigration;
     storageUnlogMigration := unlogMigration |}.

Definition runMigrationForSchema (schemaName schemaFolderName : string)
  : M unit :=
  getDbClient ;;;
  migrationDir <- getOrCreateMigrationDirectory schemaFolderName ;;
  appliedMigrations <- setupDBSchemaAndGetAppliedMigrations schemaName ;;
  pendingMigrations <- getPendingMigration appliedMigrations migrationDir ;;
  umzugUp (map runnable pendingMigrations)
          (storageOf appliedMigrations migrationDir) ;;;
  queryCommit ;;;
  send ResetSearchPath ;;;
  log (InfoSchemaDone schemaName).

Definition handleMigration : M unit :=
  tryCatch
    (runMigrationForSchema mainSchema mainSchema ;;;
     getDbClient ;;;
     shutdown ;;;
     log InfoAllDone)
    (fun error => log (ErrorProcessFailed error)).

(** [main]: the status the process exits with. *)
Definition main (w : World) : Z * World :=
  match handleMigration w with
  | (Ok _, w') => (0%Z, snd (log InfoExiting w'))
  | (Err error, w') => (1%Z, snd (log (ErrorFatal error) w'))
  end.

(** The session a process starts with: no transaction open, nothing sent
    and nothing logged. *)
Definition startWorld (d : Db) : World :=
  {| db := d; snapshot := None; sent := []; logged := [] |}.

End Manager.

(* ================================================================= *)
(** ** Notions used by the statements *)

(** The greatest element of a list of versions, or 0 for the empty list. *)
Definition MaxOrZero (vs : list Z) (m : Z) : Prop :=
  (vs = [] /\ m = 0%Z) \/ (In m vs /\ forall v, In v vs -> (v <= m)%Z).

Definition versionZ (m : MigrationFile.t) : Z :=
  Z.of_N (MigrationFile.version m).

(** The versions [first], [first + 1], ..., [first + k - 1]. *)
Definition contiguous (first : Z) (k : nat) : list Z :=
  map (fun i => (first + Z.of_nat i)%Z) (seq 0 k).
(** The directory of a schema's migration files. *)
Definition migrationDirOf (currentDir schemaFolderName : string) : string :=
  (currentDir ++ "/src/database/migrations/" ++ schemaFolderName)%string.

Definition fileText (fs : FS) (p : Path) : option string :=
  lookupFile (basename p) (fs (dirname p)).

(** A ledger row is intact when its file is present and has the recorded
    fingerprint. *)
Definition intact (fs : FS) (dir : string) (row : AppliedMigration.t) : Prop :=
  option_map MD5.md5hex (lookupFile (AppliedMigration.name row) (fs dir))
  = Some (AppliedMigration.md5 row).

(** Every row records the version its name starts with, as the rows
    written by [logMigration] do. *)
Definition namedByVersion (ledger : list AppliedMigration.t) : Prop :=
  forall r, In r ledger ->
    exists v, extractVersion (AppliedMigration.name r) = Some v /\
              AppliedMigration.version r = Z.of_N v.

(** The row [logMigration] writes for a file: its fingerprint is the one
    of the text the file has now. *)
Definition ledgerRow (fs : FS) (m : MigrationFile.t) : AppliedMigration.t :=
  AppliedMigration.make (versionZ m) (MigrationFile.name m)
    (match fileText fs (MigrationFile.fullPath m) with
     | Some content => MD5.md5hex content
     | None => EmptyString
     end).

(** The commands of a migration that succeeds. *)
Definition transaction (fs : FS) (m : MigrationFile.t) : list Command :=
  [Begin; Script (MigrationFile.name m); Commit; Insert (ledgerRow fs m)].

Definition isInsert (c : Command) : bool :=
  match c with Insert _ => true | _ => false end.

Definition isScript (c : Command) : bool :=
  match c with Script _ => true | _ => false end.

(** The pending files the step runner takes up: those whose name is not
    recorded in the ledger. *)
Definition notExecuted (executedNames : list string)
  (pending : list MigrationFile.t) : list MigrationFile.t :=
  filter (fun m => negb (existsb (String.eqb (MigrationFile.name m))
                           executedNames))
         pending.

Definition toBeApplied (fs : FS) (dir : string)
  (ledger : list AppliedMigration.t) : list MigrationFile.t :=
  match computePending (selectApplied ledger) dir (map fst (fs dir)) with
  | Ok pending =>
      notExecuted (map AppliedMigration.name (selectApplied ledger)) pending
  | Err _ => []
  end.

(** What [ROLLBACK] gives back: the state at the start of the open
    transaction, or the database as it is when none is open. *)
Definition rollbackOf (D : Type) (d : Db D) (s : option (Db D)) : Db D :=
  match s with
  | Some d0 => d0
  | None => d
  end.
Arguments rollbackOf {D} d s.

(** The world a failed migration leaves: the database [d] that [ROLLBACK]
    gave back, no transaction open, [Rollback] the last command. *)
Definition rolledBack (D : Type) (w : World D) (d : Db D)
  (t : list Command) (lg : list LogLine) : World D :=
  {| db := d; snapshot := None;
     sent := sent w ++ Begin :: t ++ [Rollback];
     logged := logged w ++ lg |}.
Arguments rolledBack {D} w d t lg.

(** The errors of the integrity check. *)
Definition isIntegrityError (e : Error) : Prop :=
  match e with
  | AppliedMissing _ | Md5Mismatch _ _ _ => True
  | _ => False
  end.

(** The session once the schema and its ledger were provisioned and the
    ledger read. *)
Definition afterSetup (D : Type) (schemaName : string) (d : Db D) : World D :=
  {| db := d; snapshot := None;
     sent := [CreateSchema schemaName; CreateTable; SelectApplied];
     logged := [] |}.
Arguments afterSetup {D} schemaName d.

Section Scripts.
Variable D : Type.
Variable sqlExec : string -> Batch D.
Variable evalModule : string -> option (Exports D).
Variable fs : FS.

(** What a migration file does to the session, when it can be started:
    the batch of a [.sql] file, the exported [up] of a script. *)
Definition scriptOf (m : MigrationFile.t) : option (Batch D) :=
  match fileText fs (MigrationFile.fullPath m) with
  | None => None
  | Some content =>
      if Str.endsWith (MigrationFile.name m) ".sql"
      then Some (sqlExec content)
      else match evalModule content with
           | Some migration => up migration
           | None => None
           end
  end.

(** The database once [row] was sent for insertion: with the row at the
    end of the ledger, or as it was when the primary key refuses the row. *)
Definition withRow (row : AppliedMigration.t) (d : Db D) : Db D :=
  if hasVersion (AppliedMigration.version row) (ledger d) then d
  else {| ledger := ledger d ++ [row]; data := data d |}.

(** The database after the migration [m] was applied to [d]: what its
    script, started in a transaction on [d], left visible, committed, and
    then the row of [m]. *)
Definition applied (m : MigrationFile.t) (d : Db D) : Db D :=
  match scriptOf m with
  | Some f => withRow (ledgerRow fs m) (fst (fst (f d (Some d))))
  | None => d
  end.

(** The database after the migrations of [done], in order. *)
Definition committed (done : list MigrationFile.t) (d : Db D) : Db D :=
  fold_left (fun d m => applied m d) done d.

(** The migration [m] fails on the database [d]: it cannot be started (the
    commands [t] between [Begin] and [Rollback] are none), or its script
    starts in a transaction on [d] and fails. *)
Definition failsAt (m : MigrationFile.t) (d : Db D) (t : list Command)
  : Prop :=
  (scriptOf m = None /\ t = []) \/
  (exists f, scriptOf m = Some f /\ snd (f d (Some d)) = false /\
             t = [Script (MigrationFile.name m)]).

(** The database [ROLLBACK] gives back after the failure of [m] on [d]. *)
Definition leftByFailure (m : MigrationFile.t) (d : Db D) : Db D :=
  match scriptOf m with
  | Some f => rollbackOf (fst (fst (f d (Some d)))) (snd (fst (f d (Some d))))
  | None => d
  end.

(** The migration [m] succeeds on the database [d]: its script, started
    in a transaction on [d], succeeds, and the ledger it leaves admits the
    row of [m]. *)
Definition succeedsAt (m : MigrationFile.t) (d : Db D) : Prop :=
  exists f,
    scriptOf m = Some f /\ snd (f d (Some d)) = true /\
    hasVersion (versionZ m) (ledger (fst (fst (f d (Some d))))) = false.

(** The script of [m] succeeds on [d], and the ledger it leaves holds the
    version of [m] already: the primary key refuses the row of [m]. *)
Definition refusedAt (m : MigrationFile.t) (d : Db D) : Prop :=
  exists f,
    scriptOf m = Some f /\ snd (f d (Some d)) = true /\
    hasVersion (versionZ m) (ledger (fst (fst (f d (Some d))))) = true.

(** The migrations of [ms] succeed one after the other from [d]. *)
Fixpoint allSucceed (ms : list MigrationFile.t) (d : Db D) : Prop :=
  match ms with
  | [] => True
  | m :: rest => succeedsAt m d /\ allSucceed rest (applied m d)
  end.

(** The script of [m], started in a transaction on [d], does not end that
    transaction: it issues no [COMMIT] or [ROLLBACK] of its own. *)
Definition keepsTransaction (m : MigrationFile.t) (d : Db D) : Prop :=
  forall f, scriptOf m = Some f -> snd (fst (f d (Some d))) = Some d.

(** The script of [m], started on [d], leaves the rows of the ledger as
    they are. *)
Definition keepsLedger (m : MigrationFile.t) (d : Db D) : Prop :=
  forall f,
    scriptOf m = Some f -> ledger (fst (fst (f d (Some d)))) = ledger d.

(** The script of [m] is confined: on whatever database it is started, it
    writes the schema but not the ledger, and leaves the transaction to
    the manager. *)
Definition confined (m : MigrationFile.t) : Prop :=
  forall d, keepsTransaction m d /\ keepsLedger m d.

(** The world after the migrations of [done] were applied one after the
    other from [w], followed by the commands [tail]. *)
Definition appliedWorld (w : World D) (done : list MigrationFile.t)
  (tail : list Command) (lg : list LogLine) : World D :=
  {| db := committed done (db w);
     snapshot := None;
     sent := sent w ++ flat_map (transaction fs) done ++ tail;
     logged := logged w ++ lg |}.

(** The world after the migrations of [done] were applied from [w] and
    the migration [m] then failed. *)
Definition failedWorldOf (w : World D) (done : list MigrationFile.t)
  (m : MigrationFile.t) (t : list Command) (lg : list LogLine) : World D :=
  {| db := leftByFailure m (committed done (db w));
     snapshot := None;
     sent := sent w ++ flat_map (transaction fs) done
             ++ Begin :: t ++ [Rollback];
     logged := logged w ++ lg |}.
End Scripts.

(* ================================================================= *)
(** ** A concrete instance

    A schema that records the scripts applied to it, a batch that raises,
    scripts that throw or export no [up], and small directories. *)

Module Example.

Open Scope string_scope.

Definition Schema := list string.

(** A statement is recorded in the schema. *)
Definition record (text : string) (d : Db Schema) : Db Schema :=
  {| ledger := ledger d; data := (data d ++ [text])%list |}.

(** The batch [SELECT 1/0] raises.  Three batches commit what they did
    and then raise: one creates a table, one inserts a row of version 1
    into the ledger (when the primary key admits it), one empties the
    ledger.  The batch [DELETE FROM migrations] empties the ledger; any
    other batch is recorded. *)
Definition sqlExec (text : string) : Batch Schema :=
  fun d s =>
    if String.eqb text "CREATE TABLE t; COMMIT; SELECT 1/0"
    then (record "CREATE TABLE t" d, None, false)
    else if String.eqb text
              "INSERT INTO migrations VALUES (1, '1-own.sql', 'x'); COMMIT; SELECT 1/0"
    then if hasVersion 1 (ledger d) then (d, s, false)
         else ({| ledger := ledger d ++ [AppliedMigration.make 1 "1-own.sql" "x"];
                  data := data d |}, None, false)
    else if String.eqb text "DELETE FROM migrations; COMMIT; SELECT 1/0"
    then ({| ledger := []; data := data d |}, None, false)
    else if String.eqb text "DELETE FROM migrations"
    then ({| ledger := []; data := data d |}, s, true)
    else (record text d, s, negb (String.eqb text "SELECT 1/0")).

(** A script is its text: one does not load, one exports no [up], one
    exports an [up] that throws, the others export an [up] that is
    recorded. *)
Definition evalModule (text : string) : option (Exports Schema) :=
  if String.eqb text "syntax error" then None
  else if String.eqb text "export const down = 1" then Some {| up := None |}
  else Some {| up := Some (fun d s =>
                             (record text d, s,
                              negb (String.eqb text "throw"))) |}.

Definition dir : string := migrationDirOf "/app" "main".

(** The file system with the given entries in [dir] and nothing else. *)
Definition onlyDir (entries : Dir) : FS :=
  fun d => if String.eqb d dir then entries else [].

(** The run of the schema [main] by a process started on [d]. *)
Abbreviation run fs d :=
  (runMigrationForSchema sqlExec evalModule true "/app" fs "main" "main"
     (startWorld d)).

Definition emptyDb : Db Schema := {| ledger := []; data := [] |}.

(** Two texts with the same MD5 digest (a published collision). *)
Definition textA : string :=
  "TEXTCOLLBYfGiJUETHQ4hAcKSMd5zYpgqf1YRDhkmxHkhPWptrkoyz28wnI9V0aHeAuaKnak".
Definition textB : string :=
  "TEXTCOLLBYfGiJUETHQ4hEcKSMd5zYpgqf1YRDhkmxHkhPWptrkoyz28wnI9V0aHeAuaKnak".

(** Version 1 applied when [1-init.sql] held [content]. *)
Definition appliedInit (content : string) : Db Schema :=
  {| ledger := [AppliedMigration.make 1 "1-init.sql" (MD5.md5hex content)];
     data := [content] |}.

Definition notesPath : Path := pathJoin dir "notes.sql".

(** The applied file was edited; it was replaced by its colliding twin;
    it was edited and a file was added out of sequence; it was removed;
    it was removed and a file was added out of sequence. *)
Definition editedDir : FS := onlyDir [("1-init.sql", "B")].
Definition collidingDir : FS := onlyDir [("1-init.sql", textB)].
Definition editedGapDir : FS :=
  onlyDir [("1-init.sql", "B"); ("3-late.sql", "C")].
Definition emptiedDir : FS := onlyDir [("2-next.sql", "CREATE TABLE u")].
Definition emptiedGapDir : FS := onlyDir [("3-late.sql", "C")].

(** Two files of version 2. *)
Definition duplicateDir : FS :=
  onlyDir [("1-init.sql", "A"); ("2-left.sql", "L"); ("2-right.sql", "R")].

(** The second of three files raises. *)
Definition failingDir : FS :=
  onlyDir [("1-init.sql", "CREATE TABLE t"); ("2-bad.sql", "SELECT 1/0");
           ("3-next.sql", "CREATE TABLE u")].
Definition failedWorld : World Schema := snd (run failingDir emptyDb).

(** Two files, listed in reverse. *)
Definition twoFiles : FS :=
  onlyDir [("2-add-index.sql", "CREATE INDEX i");
           ("1-init.sql", "CREATE TABLE t")].
Definition afterTwoFiles : World Schema := snd (run twoFiles emptyDb).

(** The only file raises. *)
Definition badDir : FS := onlyDir [("1-bad.sql", "SELECT 1/0")].
Definition afterBadRun : World Schema := snd (run badDir emptyDb).

(** A ledger whose row of version 1 carries the name of a file of
    version 2. *)
Definition misnamedDb : Db Schema :=
  {| ledger := [AppliedMigration.make 1 "2-b.sql" (MD5.md5hex "B")];
     data := [] |}.
Definition misnamedDir : FS := onlyDir [("2-b.sql", "B")].
Definition afterMisnamedRun : World Schema :=
  snd (run misnamedDir misnamedDb).

(** The only file creates a table, commits and raises. *)
Definition keepingDir : FS :=
  onlyDir [("1-keep.sql", "CREATE TABLE t; COMMIT; SELECT 1/0")].
Definition afterKeepingRun : World Schema := snd (run keepingDir emptyDb).

(** The only file inserts its own row into the ledger, commits and
    raises. *)
Definition owningDir : FS :=
  onlyDir [("1-own.sql",
            "INSERT INTO migrations VALUES (1, '1-own.sql', 'x'); COMMIT; SELECT 1/0")].
Definition afterOwningRun : World Schema := snd (run owningDir emptyDb).

(** The second of two files empties the ledger, commits and raises. *)
Definition wipingDir : FS :=
  onlyDir [("1-init.sql", "CREATE TABLE t");
           ("2-wipe.sql", "DELETE FROM migrations; COMMIT; SELECT 1/0")].
Definition afterWipingRun : World Schema := snd (run wipingDir emptyDb).

(** A ledger whose row of version 1 carries the name of the file of
    version 3, and a file of version 2 that empties the ledger. *)
Definition purgingDb : Db Schema :=
  {| ledger := [AppliedMigration.make 1 "3-c.sql" (MD5.md5hex "C")];
     data := [] |}.
Definition purgingDir : FS :=
  onlyDir [("2-b.sql", "DELETE FROM migrations"); ("3-c.sql", "C")].
Definition afterPurgingRun : World Schema := snd (run purgingDir purgingDb).

(** A ledger with a version beyond the range of the ordered read, next
    to version 1, each with its file; the file of version 1 was edited;
    it was removed. *)
Definition wideDb : Db Schema :=
  {| ledger := [AppliedMigration.make 1 "1-init.sql" (MD5.md5hex "A");
                AppliedMigration.make 2147483648 "2147483648-x.sql"
                  (MD5.md5hex "X")];
     data := ["A"; "X"] |}.
Definition wideEditedDir : FS :=
  onlyDir [("1-init.sql", "B"); ("2147483648-x.sql", "X")].
Definition wideEmptiedDir : FS := onlyDir [("2147483648-x.sql", "X")].

(** Version 1 applied, version 2 pending. *)
Definition nextDir : FS :=
  onlyDir [("1-init.sql", "A"); ("2-next.sql", "CREATE TABLE u")].
Definition afterNextRun : World Schema := snd (run nextDir (appliedInit "A")).

(** The last version the ordered read accepts is applied, the next one is
    pending. *)
Definition edgeDb : Db Schema :=
  {| ledger := [AppliedMigration.make 2147483647 "2147483647-a.sql"
                  (MD5.md5hex "A")];
     data := ["A"] |}.
Definition edgeDir : FS :=
  onlyDir [("2147483647-a.sql", "A"); ("2147483648-b.sql", "B")].
Definition afterEdgeRun : World Schema := snd (run edgeDir edgeDb).

End Example.

(* ================================================================= *)
(** ** Notions used by the further statements *)

(** The decimal text of a natural number, without leading zeros. *)
Definition decimal (n : N) : string := NilEmpty.string_of_uint (N.to_uint n).

(** [lastAppliedVersion] of [getPendingMigration]. *)
Definition lastAppliedOf (appliedMigrations : list AppliedMigration.t) : Z :=
  match lastOpt (appliedVersionsOf appliedMigrations) with
  | Some v => v
  | None => 0%Z
  end.

(** The versions of the discovered files that are not applied, in the
    order [getPendingMigration] checks them. *)
Definition unappliedVersions (appliedMigrations : list AppliedMigration.t)
  (migrationDir : string) (files : list string) : list Z :=
  map versionZ
    (pendingOf (appliedVersionsOf appliedMigrations)
       (allMigrationsOf migrationDir files)).


(** The primary key of the ledger: no two rows of one version. *)
Definition uniqueVersions (ledger : list AppliedMigration.t) : Prop :=
  NoDup (appliedVersionsOf ledger).

(** Ascending order of versions. *)
Definition byVersion (a b : MigrationFile.t) : Prop :=
  (versionZ a <= versionZ b)%Z.

(** A digit of lower-case hexadecimal. *)
Definition isLowerHex (c : ascii) : bool :=
  let n := N_of_ascii c in
  ((48 <=? n) && (n <=? 57) || (97 <=? n) && (n <=? 102))%N.

Unset Implicit Arguments.

(* ================================================================= *)
(** ** The digest on test vectors of RFC 1321 *)

Example md5_empty : MD5.md5hex "" = "d41d8cd98f00b204e9800998ecf8427e"%string.
Proof. vm_compute. reflexivity. Qed.

Example md5_abc : MD5.md5hex "abc" = "900150983cd24fb0d6963f7d28e17f72"%string.
Proof. vm_compute. reflexivity. Qed.

Example md5_digits :
  MD5.md5hex
    "12345678901234567890123456789012345678901234567890123456789012345678901234567890"
  = "57edf4a22be3c955ac49da2e2107b67a"%string.
Proof. vm_compute. reflexivity. Qed.

(* ================================================================= *)
(** ** Strings: suffixes and leading digits *)

Module StrFacts.
Import Str.
Open Scope string_scope.

Lemma length_app (p s : string) :
  String.length (p ++ s) = String.length p + String.length s.
Proof. induction p as [|c p IH]; simpl; [reflexivity | now rewrite IH]. Qed.

Lemma substring_all (s : string) : substring 0 (String.length s) s = s.
Proof. induction s as [|c s IH]; simpl; [reflexivity | now rewrite IH]. Qed.

Lemma substring_skip (p s : string) (m : nat) :
  substring (String.length p) m (p ++ s) = substring 0 m s.
Proof. induction p as [|c p IH]; simpl; [reflexivity | exact IH]. Qed.

Lemma substring_split (s : string) (k : nat) :
  k <= String.length s ->
  s = substring 0 k s ++ substring k (String.length s - k) s.
Proof.
  revert k; induction s as [|c s IH]; intros k Hk; simpl in *.
  - destruct k; reflexivity.
  - destruct k as [|k]; simpl.
    + now rewrite substring_all.
    + f_equal. apply IH. lia.
Qed.

Lemma endsWith_iff (s suffix : string) :
  endsWith s suffix = true <-> exists stem, s = stem ++ suffix.
Proof.
  unfold endsWith. split.
  - destruct (Nat.leb_spec (String.length suffix) (String.length s)) as [Hle|Hlt];
      [|discriminate].
    intros H. apply String.eqb_eq in H.
    exists (substring 0 (String.length s - String.length suffix) s).
    pose proof (substring_split s (String.length s - String.length suffix))
      as Hsplit.
    replace (String.length s - (String.length s - String.length suffix))
      with (String.length suffix) in Hsplit by lia.
    rewrite H in Hsplit. apply Hsplit. lia.
  - intros [stem ->]. rewrite length_app.
    destruct (Nat.leb_spec (String.length suffix)
                (String.length stem + String.length suffix)) as [_|Hlt];
      [|lia].
    replace (String.length stem + String.length suffix - String.length suffix)
      with (String.length stem) by lia.
    rewrite substring_skip, substring_all. apply String.eqb_refl.
Qed.

Lemma allDigits_nil : allDigits "".
Proof. intros c []. Qed.

Lemma allDigits_cons (c : ascii) (s : string) :
  allDigits (String c s) <-> isDigit c = true /\ allDigits s.
Proof.
  unfold allDigits; simpl. split.
  - intros H; split; [apply H; now left | intros c' Hc'; apply H; now right].
  - intros [Hc Hs] c' [<-|Hc']; [exact Hc | now apply Hs].
Qed.

Lemma spanDigits_sound (s ds rest : string) :
  spanDigits s = (ds, rest) ->
  s = ds ++ rest /\ allDigits ds /\
  match rest with String c _ => isDigit c = false | EmptyString => True end.
Proof.
  revert ds rest; induction s as [|c s IH]; intros ds rest; simpl.
  - intros [= <- <-]. repeat split. apply allDigits_nil.
  - destruct (isDigit c) eqn:Hc.
    + destruct (spanDigits s) as [ds' rest'] eqn:Hs.
      intros [= <- <-]. destruct (IH _ _ eq_refl) as (-> & Hd & Hr).
      repeat split; [now apply allDigits_cons | exact Hr].
    + intros [= <- <-]. repeat split; [apply allDigits_nil | exact Hc].
Qed.

Lemma spanDigits_complete (ds rest : string) :
  allDigits ds ->
  match rest with String c _ => isDigit c = false | EmptyString => True end ->
  spanDigits (ds ++ rest) = (ds, rest).
Proof.
  induction ds as [|c ds IH]; intros Hd Hr; simpl.
  - destruct rest as [|c r]; simpl; [reflexivity | now rewrite Hr].
  - apply allDigits_cons in Hd as [Hc Hd]. now rewrite Hc, IH.
Qed.

End StrFacts.

(** The file names that [extractVersion] accepts: a non-empty run of
    decimal digits, the separator, anything; the version is what
    [parseInt] makes of the run. *)
Lemma extractVersion_iff (name : string) (v : N) :
  extractVersion name = Some v <->
  exists ds rest,
    ds <> EmptyString /\ Str.allDigits ds /\
    name = (ds ++ "-" ++ rest)%string /\ v = Str.parseInt10 ds.
Proof.
  unfold extractVersion. split.
  - destruct (Str.spanDigits name) as [ds rest] eqn:Hs.
    apply StrFacts.spanDigits_sound in Hs as (-> & Hd & _).
    destruct ds as [|d ds]; [discriminate|].
    destruct rest as [|c rest]; [discriminate|].
    destruct c as [[] [] [] [] [] [] [] []]; try discriminate.
    intros [= <-]. exists (String d ds), rest.
    repeat split; [discriminate | exact Hd].
  - intros (ds & rest & Hne & Hd & -> & ->).
    rewrite StrFacts.spanDigits_complete by (exact Hd || reflexivity).
    destruct ds as [|d ds]; [contradiction | reflexivity].
Qed.

(* ================================================================= *)
(** ** Sorting and the last element *)

Section SortFacts.
Variable A : Type.
Variable le : A -> A -> bool.

Lemma insertSorted_perm (x : A) (l : list A) :
  Permutation (insertSorted le x l) (x :: l).
Proof.
  induction l as [|y l IH]; simpl; [reflexivity|].
  destruct (le x y); [reflexivity|].
  rewrite IH. apply perm_swap.
Qed.

Lemma sortBy_perm (l : list A) : Permutation (sortBy le l) l.
Proof.
  induction l as [|x l IH]; simpl; [reflexivity|].
  rewrite insertSorted_perm. now constructor.
Qed.

Lemma sortBy_In (l : list A) (x : A) : In x (sortBy le l) <-> In x l.
Proof.
  split; apply Permutation_in;
    [apply sortBy_perm | symmetry; apply sortBy_perm].
Qed.

Lemma sortBy_nil_inv (l : list A) : sortBy le l = [] -> l = [].
Proof.
  intros H. apply Permutation_nil. rewrite <- H. apply sortBy_perm.
Qed.
End SortFacts.

Section SortByKey.
Variable A : Type.
Variable key : A -> Z.

Let le (a b : A) : bool := Z.leb (key a) (key b).
Let R (a b : A) : Prop := (key a <= key b)%Z.

Lemma insertSorted_sorted (x : A) (l : list A) :
  StronglySorted R l -> StronglySorted R (insertSorted le x l).
Proof.
  induction 1 as [|y l Hs IH Hall]; simpl.
  - repeat constructor.
  - unfold le at 1. destruct (Z.leb_spec (key x) (key y)) as [Hxy|Hyx].
    + constructor; [now constructor|].
      constructor; [exact Hxy|].
      rewrite Forall_forall in *. intros z Hz. specialize (Hall z Hz).
      unfold R in *. lia.
    + constructor; [exact IH|].
      rewrite Forall_forall in *. intros z Hz.
      apply (Permutation_in _ (insertSorted_perm _ le x l)) in Hz.
      destruct Hz as [<-|Hz]; [unfold R; lia | now apply Hall].
Qed.

Lemma sortBy_sorted (l : list A) : StronglySorted R (sortBy le l).
Proof.
  induction l as [|x l IH]; simpl; [constructor|].
  now apply insertSorted_sorted.
Qed.

Lemma sortBy_keys_sorted (l : list A) :
  StronglySorted Z.le (map key (sortBy le l)).
Proof.
  generalize (sortBy_sorted l). generalize (sortBy le l).
  induction 1 as [|y l' Hs IH Hall]; simpl; constructor; [exact IH|].
  rewrite Forall_forall in *. intros z Hz.
  apply in_map_iff in Hz as (a & <- & Ha). now apply Hall.
Qed.
End SortByKey.

Lemma lastOpt_snoc (A : Type) (l : list A) (x : A) :
  lastOpt (l ++ [x]) = Some x.
Proof. unfold lastOpt. now rewrite rev_app_distr. Qed.

Lemma lastOpt_cases (A : Type) (l : list A) :
  (l = [] /\ lastOpt l = None) \/
  (exists l' x, l = l' ++ [x] /\ lastOpt l = Some x).
Proof.
  destruct l as [|a l] using rev_ind; [now left|].
  right. exists l, a. split; [reflexivity | apply lastOpt_snoc].
Qed.

Lemma sorted_snoc_bound (l : list Z) (x y : Z) :
  StronglySorted Z.le (l ++ [x]) -> In y (l ++ [x]) -> (y <= x)%Z.
Proof.
  induction l as [|a l IH]; simpl; intros Hs Hy.
  - destruct Hy as [<-|[]]. lia.
  - inversion Hs as [|? ? Hs' Hall]; subst.
    destruct Hy as [<-|Hy]; [|now apply IH].
    rewrite Forall_forall in Hall. apply Hall, in_or_app. right. now left.
Qed.

(** The row the ordered read of the ledger ends with carries the greatest
    version of the ledger. *)
Lemma lastApplied_is_max (ledger : list AppliedMigration.t) :
  MaxOrZero (appliedVersionsOf ledger)
    match lastOpt (appliedVersionsOf (selectApplied ledger)) with
    | Some v => v
    | None => 0%Z
    end.
Proof.
  unfold selectApplied, appliedVersionsOf.
  set (le := fun a b : AppliedMigration.t => _).
  pose proof (sortBy_keys_sorted _ AppliedMigration.version ledger) as Hs.
  fold le in Hs.
  assert (Hin : forall v, In v (map AppliedMigration.version (sortBy le ledger))
                          <-> In v (map AppliedMigration.version ledger)).
  { intros v. split; apply Permutation_in, Permutation_map;
      [apply sortBy_perm | symmetry; apply sortBy_perm]. }
  destruct (lastOpt_cases _ (map AppliedMigration.version (sortBy le ledger)))
    as [[Hnil ->]|(l' & x & Hl & ->)].
  - left. split; [|reflexivity].
    apply map_eq_nil in Hnil. apply sortBy_nil_inv in Hnil. now subst.
  - right. rewrite Hl in Hs, Hin. split.
    + apply Hin, in_or_app. right. now left.
    + intros v Hv. apply (sorted_snoc_bound l' x v Hs). now apply Hin.
Qed.

(* ================================================================= *)
(** ** Discovery and the pending set *)

Lemma includes_iff (l : list Z) (v : Z) : includes l v = true <-> In v l.
Proof.
  unfold includes. rewrite existsb_exists. split.
  - intros (x & Hx & Heq). apply Z.eqb_eq in Heq. now subst.
  - intros H. exists v. split; [exact H | apply Z.eqb_refl].
Qed.

Lemma allMigrationsOf_In (dir : string) (files : list string)
  (m : MigrationFile.t) :
  In m (allMigrationsOf dir files) <->
  In (MigrationFile.name m) files /\
  recognised (MigrationFile.name m) = true /\
  extractVersion (MigrationFile.name m) = Some (MigrationFile.version m) /\
  MigrationFile.fullPath m = pathJoin dir (MigrationFile.name m).
Proof.
  unfold allMigrationsOf. rewrite sortBy_In, in_flat_map. split.
  - intros ([[name ov] p] & Hin & Hm).
    apply in_map_iff in Hin as (name' & [= <- <- <-] & Hf).
    apply filter_In in Hf as [Hf Hr].
    destruct (extractVersion name') as [v|] eqn:Hv; [|destruct Hm].
    destruct Hm as [<-|[]]. simpl. now rewrite Hv.
  - intros (Hf & Hr & Hv & Hp). destruct m as [name v p]; simpl in *.
    exists (name, Some v, p). split; [|now left].
    apply in_map_iff. exists name. rewrite Hv, Hp. split; [reflexivity|].
    now apply filter_In.
Qed.

Lemma pendingOf_In (appliedVersions : list Z) (all : list MigrationFile.t)
  (m : MigrationFile.t) :
  In m (pendingOf appliedVersions all) <->
  In m all /\ ~ In (versionZ m) appliedVersions.
Proof.
  unfold pendingOf. rewrite filter_In, negb_true_iff.
  rewrite <- includes_iff, not_true_iff_false. reflexivity.
Qed.

Lemma versionLoop_ok (first : Z) (i : nat) (l : list MigrationFile.t) :
  versionLoop first i l = Ok tt <->
  map versionZ l = map (fun j => (first + Z.of_nat j)%Z) (seq i (List.length l)).
Proof.
  revert i; induction l as [|m l IH]; intros i; simpl.
  - split; reflexivity.
  - fold (versionZ m). destruct (Z.eqb_spec (versionZ m) (first + Z.of_nat i)).
    + rewrite IH. split; [intros ->; now f_equal | now intros [= _ H]].
    + split; [discriminate | intros [= H _]; contradiction].
Qed.

Lemma versionLoop_cases (first : Z) (i : nat) (l : list MigrationFile.t) :
  versionLoop first i l = Ok tt \/
  exists expected m,
    In m l /\ versionZ m <> expected /\
    versionLoop first i l = Err (VersionMismatch expected (MigrationFile.name m)).
Proof.
  revert i; induction l as [|m l IH]; intros i; simpl; [now left|].
  fold (versionZ m). destruct (Z.eqb_spec (versionZ m) (first + Z.of_nat i)).
  - destruct (IH (S i)) as [H|(e' & m' & Hin & Hne & H)]; [now left|].
    right. exists e', m'. auto.
  - right. exists (first + Z.of_nat i)%Z, m. auto.
Qed.

Lemma computePending_cases (applied : list AppliedMigration.t)
  (dir : string) (files : list string) :
  let pend := pendingOf (appliedVersionsOf applied) (allMigrationsOf dir files) in
  let last := match lastOpt (appliedVersionsOf applied) with
              | Some v => v | None => 0%Z end in
  (computePending applied dir files = Ok pend /\
   map versionZ pend = contiguous (last + 1) (List.length pend)) \/
  (exists expected m,
     In m pend /\ versionZ m <> expected /\
     computePending applied dir files
     = Err (VersionMismatch expected (MigrationFile.name m))).
Proof.
  intros pend last. unfold computePending. fold pend last.
  destruct (versionLoop_cases (last + 1) 0 pend)
    as [H|(e & m & Hin & Hne & H)]; rewrite H.
  - left. split; [reflexivity|]. now apply versionLoop_ok.
  - right. now exists e, m.
Qed.

Lemma computePending_ok (applied : list AppliedMigration.t)
  (dir : string) (files : list string) (pend : list MigrationFile.t) :
  computePending applied dir files = Ok pend ->
  pend = pendingOf (appliedVersionsOf applied) (allMigrationsOf dir files) /\
  map versionZ pend
  = contiguous (match lastOpt (appliedVersionsOf applied) with
                | Some v => v | None => 0%Z end + 1) (List.length pend).
Proof.
  destruct (computePending_cases applied dir files)
    as [[H Hc]|(e & m & _ & _ & H)]; rewrite H; [|discriminate].
  intros [= <-]. now split.
Qed.

(* ================================================================= *)
(** ** Discovery *)

Lemma recognised_iff (name : string) :
  recognised name = true <->
  exists stem, (name = stem ++ ".js" \/ name = stem ++ ".ts" \/
                name = stem ++ ".sql")%string.
Proof.
  unfold recognised. rewrite !orb_true_iff, !StrFacts.endsWith_iff. split.
  - intros [[[s H]|[s H]]|[s H]]; exists s; auto.
  - intros [s [H|[H|H]]]; [left; left|left; right|right]; now exists s.
Qed.

Lemma parseDigits_snoc (acc : N) (ds : string) (c : ascii) :
  Str.parseDigits acc (ds ++ String c EmptyString)
  = (10 * Str.parseDigits acc ds + Str.digitVal c)%N.
Proof.
  revert acc; induction ds as [|d ds IH]; intros acc; simpl;
    [reflexivity | apply IH].
Qed.

Lemma toNumber_exact (n : N) : (n < 2 ^ 53)%N -> Str.toNumber n = n.
Proof.
  intros H. unfold Str.toNumber.
  now rewrite (proj2 (N.ltb_lt n (2 ^ 53)) H).
Qed.

(** Beyond [2^53] a Number is a multiple of the power of two that its 53
    bits leave over, and the nearest one. *)
Lemma toNumber_nearest (n : N) :
  (2 ^ 53 <= n)%N ->
  let ulp := (2 ^ (N.log2 n - 52))%N in
  (exists k, Str.toNumber n = k * ulp)%N /\
  (2 * n <= 2 * Str.toNumber n + ulp)%N /\
  (2 * Str.toNumber n <= 2 * n + ulp)%N.
Proof.
  intros Hn ulp. unfold Str.toNumber.
  rewrite (proj2 (N.ltb_ge n (2 ^ 53)) Hn).
  assert (Hlog : (53 <= N.log2 n)%N)
    by (change 53%N with (N.log2 (2 ^ 53)); now apply N.log2_le_mono).
  set (e := (N.log2 n - 52)%N) in *.
  assert (He : (1 <= e)%N) by (unfold e; lia).
  cbv zeta. rewrite N.shiftr_div_pow2, N.land_ones, !N.shiftl_mul_pow2.
  rewrite N.mul_1_l. fold ulp.
  assert (Hulp : (ulp = 2 * 2 ^ (e - 1))%N).
  { unfold ulp. rewrite <- N.pow_succ_r'. f_equal. lia. }
  assert (Hpos : (0 < 2 ^ (e - 1))%N)
    by (apply N.neq_0_lt_0, N.pow_nonzero; discriminate).
  pose proof (N.Div0.div_mod n ulp) as Hdm.
  assert (Hr : (n mod ulp < ulp)%N)
    by (apply N.mod_lt; unfold ulp; apply N.pow_nonzero; discriminate).
  set (q := (n / ulp)%N) in *. set (r := (n mod ulp)%N) in *.
  set (half := (2 ^ (e - 1))%N) in *.
  destruct ((half <? r)%N || ((r =? half)%N && N.odd q))%bool eqn:Hup.
  - split; [now exists (q + 1)%N|].
    apply orb_true_iff in Hup as [H|H].
    + apply N.ltb_lt in H. nia.
    + apply andb_true_iff in H as [H _]. apply N.eqb_eq in H. nia.
  - split; [now exists q|].
    apply orb_false_iff in Hup as [H _]. apply N.ltb_ge in H. nia.
Qed.

(** C7 (as amended).  A file of a listing is discovered exactly when its
    name ends in [.js], [.ts] or [.sql] and starts with a non-empty run of
    decimal digits followed by [-]; its version is the Number that
    [parseInt] makes of that run: the integer the run writes in base 10,
    digit by digit, so leading zeros are allowed and the value can be 0,
    when this is below [2^53], and the nearest Number otherwise; every
    other file is left out, and discovery raises no error. *)
Theorem discovered_iff_extension_and_version_prefix
  (dir : string) (files : list string) (name : string) (v : N) (p : Path) :
  (In (MigrationFile.make name v p) (allMigrationsOf dir files) <->
   In name files /\
   (exists stem, name = stem ++ ".js" \/ name = stem ++ ".ts" \/
                 name = stem ++ ".sql")%string /\
   (exists ds rest,
      ds <> EmptyString /\ Str.allDigits ds /\
      name = (ds ++ "-" ++ rest)%string /\ v = Str.parseInt10 ds) /\
   p = pathJoin dir name) /\
  (forall ds, Str.parseInt10 ds = Str.toNumber (Str.decimalValue ds)) /\
  Str.decimalValue EmptyString = 0%N /\
  (forall ds c,
     Str.decimalValue (ds ++ String c EmptyString)
     = (10 * Str.decimalValue ds + Str.digitVal c)%N) /\
  (forall n, (n < 2 ^ 53)%N -> Str.toNumber n = n) /\
  (forall n,
     (2 ^ 53 <= n)%N ->
     (exists k, Str.toNumber n = k * 2 ^ (N.log2 n - 52))%N /\
     (2 * n <= 2 * Str.toNumber n + 2 ^ (N.log2 n - 52))%N /\
     (2 * Str.toNumber n <= 2 * n + 2 ^ (N.log2 n - 52))%N).
Proof.
  split; [|split; [reflexivity|split; [reflexivity|split;
    [intros; apply parseDigits_snoc
    |split; [exact toNumber_exact | exact toNumber_nearest]]]]].
  rewrite allMigrationsOf_In. simpl.
  rewrite recognised_iff, extractVersion_iff. tauto.
Qed.

(* ================================================================= *)
(** ** The manager: file access, the integrity check, the ledger callbacks *)

Section ManagerFacts.
Variable D : Type.
Variable sqlExec : string -> Batch D.
Variable evalModule : string -> option (Exports D).
Variable connects : bool.
Variable shutsDown : bool.
Variable mainSchema : string.
Variable currentDir : string.
Variable fs : FS.

Local Abbreviation World := (World D).
Local Abbreviation migrationUp := (migrationUp sqlExec evalModule fs).
Local Abbreviation runnable := (runnable sqlExec evalModule fs).
Local Abbreviation scriptOf := (scriptOf sqlExec evalModule fs).
Local Abbreviation committed := (committed sqlExec evalModule fs).
Local Abbreviation runMigrationForSchema :=
  (runMigrationForSchema sqlExec evalModule connects currentDir fs).
Local Abbreviation handleMigration :=
  (handleMigration sqlExec evalModule connects shutsDown mainSchema
     currentDir fs).
Local Abbreviation main :=
  (main sqlExec evalModule connects shutsDown mainSchema currentDir fs).
Local Abbreviation appliedWorld := (appliedWorld sqlExec evalModule fs).
Local Abbreviation failsAt := (failsAt sqlExec evalModule fs).
Local Abbreviation applied := (applied sqlExec evalModule fs).
Local Abbreviation leftByFailure := (leftByFailure sqlExec evalModule fs).
Local Abbreviation succeedsAt := (succeedsAt sqlExec evalModule fs).
Local Abbreviation refusedAt := (refusedAt sqlExec evalModule fs).
Local Abbreviation allSucceed := (allSucceed sqlExec evalModule fs).
Local Abbreviation keepsTransaction :=
  (keepsTransaction sqlExec evalModule fs).
Local Abbreviation keepsLedger := (keepsLedger sqlExec evalModule fs).
Local Abbreviation confined := (confined sqlExec evalModule fs).
Local Abbreviation failedWorldOf := (failedWorldOf sqlExec evalModule fs).

(** Runs the binds of the monad and the queries on the session. *)
Ltac run_monad :=
  cbv beta iota zeta delta
    [bind tryCatch ret throw queryBegin queryCommit queryRollback
     runScript queryInsert queryDelete send log setDb getDb getSnapshot].

Lemma getFileMd5_eq (p : Path) (w : World) :
  getFileMd5 fs p w =
  match fileText fs p with
  | Some content => (Ok (MD5.md5hex content), w)
  | None => (Err (ENOENT p), w)
  end.
Proof.
  unfold getFileMd5, readFile, bind, fileText.
  destruct (lookupFile _ _); reflexivity.
Qed.

Lemma validateApplied_step (dir : string) (row : AppliedMigration.t)
  (rest : list AppliedMigration.t) (w : World) :
  validateApplied fs dir (row :: rest) w =
  match lookupFile (AppliedMigration.name row) (fs dir) with
  | None => (Err (AppliedMissing (AppliedMigration.name row)), w)
  | Some content =>
      if String.eqb (MD5.md5hex content) (AppliedMigration.md5 row)
      then validateApplied fs dir rest w
      else (Err (Md5Mismatch (AppliedMigration.name row)
                   (AppliedMigration.md5 row) (MD5.md5hex content)), w)
  end.
Proof.
  simpl. unfold bind at 1. unfold tryCatch, bind.
  rewrite getFileMd5_eq. unfold fileText, pathJoin; simpl.
  destruct (lookupFile _ _) as [content|]; [|reflexivity].
  destruct (String.eqb _ _); reflexivity.
Qed.

Lemma intact_iff (dir : string) (row : AppliedMigration.t) :
  intact fs dir row <->
  exists content,
    lookupFile (AppliedMigration.name row) (fs dir) = Some content /\
    MD5.md5hex content = AppliedMigration.md5 row.
Proof.
  unfold intact. destruct (lookupFile _ _) as [c|]; simpl; split.
  - intros [= H]. now exists c.
  - intros (c' & [= <-] & H). now rewrite H.
  - discriminate.
  - intros (c' & H & _). discriminate.
Qed.

Lemma validateApplied_world (dir : string) (rows : list AppliedMigration.t)
  (w : World) :
  snd (validateApplied fs dir rows w) = w.
Proof.
  induction rows as [|row rows IH]; [reflexivity|].
  rewrite validateApplied_step.
  destruct (lookupFile _ _); [|reflexivity].
  destruct (String.eqb _ _); [exact IH | reflexivity].
Qed.

Lemma validateApplied_ok (dir : string) (rows : list AppliedMigration.t)
  (w : World) :
  (forall r, In r rows -> intact fs dir r) ->
  validateApplied fs dir rows w = (Ok tt, w).
Proof.
  induction rows as [|row rows IH]; intros H; [reflexivity|].
  rewrite validateApplied_step.
  destruct (proj1 (intact_iff dir row) (H row (or_introl eq_refl)))
    as (c & -> & Hc).
  rewrite Hc, String.eqb_refl. apply IH. intros r Hr. apply H. now right.
Qed.

Lemma validateApplied_ok_inv (dir : string)
  (rows : list AppliedMigration.t) (w w' : World) :
  validateApplied fs dir rows w = (Ok tt, w') ->
  forall r, In r rows -> intact fs dir r.
Proof.
  induction rows as [|row rows IH]; intros H r Hr; [destruct Hr|].
  rewrite validateApplied_step in H.
  destruct (lookupFile _ _) as [c|] eqn:Hc; [|discriminate].
  destruct (String.eqb_spec (MD5.md5hex c) (AppliedMigration.md5 row))
    as [Heq|]; [|discriminate].
  destruct Hr as [<-|Hr]; [|now apply IH].
  apply intact_iff. now exists c.
Qed.

(** The check stops at the first row that is not intact, with the error
    of that row. *)
Lemma validateApplied_first (dir : string)
  (pre : list AppliedMigration.t) (row : AppliedMigration.t)
  (post : list AppliedMigration.t) (w : World) :
  (forall r, In r pre -> intact fs dir r) ->
  ~ intact fs dir row ->
  validateApplied fs dir (pre ++ row :: post) w =
  (Err match lookupFile (AppliedMigration.name row) (fs dir) with
       | None => AppliedMissing (AppliedMigration.name row)
       | Some content =>
           Md5Mismatch (AppliedMigration.name row)
             (AppliedMigration.md5 row) (MD5.md5hex content)
       end, w).
Proof.
  induction pre as [|r pre IH]; intros Hpre Hrow; simpl app.
  - rewrite validateApplied_step.
    destruct (lookupFile _ _) as [c|] eqn:Hc; [|reflexivity].
    destruct (String.eqb_spec (MD5.md5hex c) (AppliedMigration.md5 row))
      as [Heq|]; [|reflexivity].
    exfalso. apply Hrow, intact_iff. now exists c.
  - rewrite validateApplied_step.
    destruct (proj1 (intact_iff dir r) (Hpre r (or_introl eq_refl)))
      as (c & -> & Hc).
    rewrite Hc, String.eqb_refl. apply IH; [|exact Hrow].
    intros r' Hr'. apply Hpre. now right.
Qed.

Lemma validateApplied_fails (dir : string)
  (rows : list AppliedMigration.t) (row : AppliedMigration.t) (w : World) :
  In row rows -> ~ intact fs dir row ->
  exists e, validateApplied fs dir rows w = (Err e, w).
Proof.
  intros Hin Hrow.
  destruct (validateApplied fs dir rows w) as [[[]|e] w'] eqn:H.
  - exfalso. apply Hrow. eapply validateApplied_ok_inv; eauto.
  - exists e. f_equal.
    change w' with (snd (@Err unit e, w')). rewrite <- H.
    apply validateApplied_world.
Qed.

(* ----------------------------------------------------------------- *)
(** *** One migration in its transaction *)

Lemma readFile_eq (p : Path) (w : World) :
  readFile fs p w =
  match fileText fs p with
  | Some content => (Ok content, w)
  | None => (Err (ENOENT p), w)
  end.
Proof.
  unfold readFile, fileText. destruct (lookupFile _ _); reflexivity.
Qed.

Lemma migrationUp_success (m : MigrationFile.t) (f : Batch D) (w : World) :
  snapshot w = None ->
  scriptOf m = Some f ->
  snd (f (db w) (Some (db w))) = true ->
  exists lg,
    migrationUp (MigrationFile.name m) (MigrationFile.fullPath m) w =
    (Ok tt,
     {| db := fst (fst (f (db w) (Some (db w))));
        snapshot := None;
        sent := sent w ++ [Begin; Script (MigrationFile.name m); Commit];
        logged := logged w ++ lg |}).
Proof.
  intros Hsnap Hscript Hf. unfold scriptOf in Hscript.
  unfold migrationUp, loadTypeScriptMigration.
  destruct (fileText fs (MigrationFile.fullPath m)) as [content|] eqn:Ht;
    [|discriminate].
  destruct (Str.endsWith (MigrationFile.name m) ".sql").
  - injection Hscript as <-. run_monad. simpl. rewrite Hsnap. simpl.
    rewrite readFile_eq, Ht. simpl.
    destruct (sqlExec content (db w) (Some (db w))) as [[d' s'] ok].
    simpl in Hf. subst ok. simpl.
    rewrite <- !app_assoc. simpl.
    exists [InfoApplied (MigrationFile.name m)]. reflexivity.
  - run_monad. simpl. rewrite Hsnap. simpl. rewrite readFile_eq, Ht. simpl.
    destruct (evalModule content) as [mig|]; [|discriminate].
    simpl. rewrite Hscript. simpl.
    destruct (f (db w) (Some (db w))) as [[d' s'] ok].
    simpl in Hf. subst ok. simpl.
    rewrite <- !app_assoc. simpl.
    exists [InfoApplied (MigrationFile.name m)]. reflexivity.
Qed.

Lemma migrationUp_sql_error (name : string) (p : Path) (content : string)
  (w : World) :
  snapshot w = None ->
  Str.endsWith name ".sql" = true ->
  fileText fs p = Some content ->
  snd (sqlExec content (db w) (Some (db w))) = false ->
  migrationUp name p w =
  (Err (QueryFailed name),
   rolledBack w
     (rollbackOf (fst (fst (sqlExec content (db w) (Some (db w)))))
        (snd (fst (sqlExec content (db w) (Some (db w))))))
     [Script name] [ErrorRolledBack name (QueryFailed name)]).
Proof.
  intros Hsnap Hsql Ht Hf. unfold migrationUp, rolledBack, rollbackOf.
  rewrite Hsql. run_monad. simpl. rewrite Hsnap. simpl.
  rewrite readFile_eq, Ht. simpl.
  destruct (sqlExec content (db w) (Some (db w))) as [[d' s'] ok].
  simpl in Hf. subst ok.
  simpl. destruct s'; simpl; rewrite <- !app_assoc; reflexivity.
Qed.

Lemma migrationUp_up_throws (name : string) (p : Path) (content : string)
  (migration : Exports D) (f : Batch D) (w : World) :
  snapshot w = None ->
  Str.endsWith name ".sql" = false ->
  fileText fs p = Some content ->
  evalModule content = Some migration ->
  up migration = Some f ->
  snd (f (db w) (Some (db w))) = false ->
  migrationUp name p w =
  (Err (ImportFailed name (UpThrew name)),
   rolledBack w
     (rollbackOf (fst (fst (f (db w) (Some (db w)))))
        (snd (fst (f (db w) (Some (db w))))))
     [Script name]
     [ErrorImport name (UpThrew name);
      ErrorRolledBack name (ImportFailed name (UpThrew name))]).
Proof.
  intros Hsnap Hsql Ht Hm Hup Hf.
  unfold migrationUp, loadTypeScriptMigration, rolledBack, rollbackOf.
  rewrite Hsql. run_monad. simpl. rewrite Hsnap. simpl.
  rewrite readFile_eq, Ht. simpl. rewrite Hm. simpl. rewrite Hup. simpl.
  destruct (f (db w) (Some (db w))) as [[d' s'] ok].
  simpl in Hf. subst ok.
  simpl. destruct s'; simpl; rewrite <- !app_assoc; reflexivity.
Qed.

Lemma migrationUp_no_up (name : string) (p : Path) (content : string)
  (migration : Exports D) (w : World) :
  snapshot w = None ->
  Str.endsWith name ".sql" = false ->
  fileText fs p = Some content ->
  evalModule content = Some migration ->
  up migration = None ->
  migrationUp name p w =
  (Err (ImportFailed name (NoUpExport name)),
   rolledBack w (db w) []
     [ErrorImport name (NoUpExport name);
      ErrorRolledBack name (ImportFailed name (NoUpExport name))]).
Proof.
  intros Hsnap Hsql Ht Hm Hup.
  unfold migrationUp, loadTypeScriptMigration, rolledBack.
  rewrite Hsql. run_monad. simpl. rewrite Hsnap. simpl.
  rewrite readFile_eq, Ht. simpl. rewrite Hm. simpl. rewrite Hup. simpl.
  rewrite <- !app_assoc. reflexivity.
Qed.

Lemma migrationUp_load_fails (name : string) (p : Path) (w : World) :
  snapshot w = None ->
  Str.endsWith name ".sql" = false ->
  match fileText fs p with
  | Some content => evalModule content = None
  | None => True
  end ->
  migrationUp name p w =
  (Err (ImportFailed name (LoadFailed p)),
   rolledBack w (db w) []
     [ErrorLoad p (LoadFailed p); ErrorImport name (LoadFailed p);
      ErrorRolledBack name (ImportFailed name (LoadFailed p))]).
Proof.
  intros Hsnap Hsql Ht.
  unfold migrationUp, loadTypeScriptMigration, rolledBack.
  rewrite Hsql. run_monad. simpl. rewrite Hsnap. simpl.
  rewrite readFile_eq.
  destruct (fileText fs p) as [content|]; simpl; [rewrite Ht; simpl|];
    rewrite <- !app_assoc; reflexivity.
Qed.

Lemma migrationUp_sql_unreadable (name : string) (p : Path) (w : World) :
  snapshot w = None ->
  Str.endsWith name ".sql" = true ->
  fileText fs p = None ->
  migrationUp name p w =
  (Err (ENOENT p), rolledBack w (db w) [] [ErrorRolledBack name (ENOENT p)]).
Proof.
  intros Hsnap Hsql Ht. unfold migrationUp, rolledBack.
  rewrite Hsql. run_monad. simpl. rewrite Hsnap. simpl.
  rewrite readFile_eq, Ht. simpl. rewrite <- !app_assoc. reflexivity.
Qed.

(** A migration either commits what its script left, or is rolled back. *)
Lemma migrationUp_cases (m : MigrationFile.t) (w : World) :
  snapshot w = None ->
  (exists f lg,
     scriptOf m = Some f /\ snd (f (db w) (Some (db w))) = true /\
     migrationUp (MigrationFile.name m) (MigrationFile.fullPath m) w =
     (Ok tt,
      {| db := fst (fst (f (db w) (Some (db w))));
         snapshot := None;
         sent := sent w ++ [Begin; Script (MigrationFile.name m); Commit];
         logged := logged w ++ lg |})) \/
  (exists e t lg,
     failsAt m (db w) t /\
     migrationUp (MigrationFile.name m) (MigrationFile.fullPath m) w =
     (Err e, rolledBack w (leftByFailure m (db w)) t lg)).
Proof.
  intros Hsnap. unfold failsAt, leftByFailure.
  destruct (scriptOf m) as [f|] eqn:Hs.
  - destruct (snd (f (db w) (Some (db w)))) eqn:Hf.
    + left. destruct (migrationUp_success m f w Hsnap Hs Hf) as [lg H].
      now exists f, lg.
    + right. unfold scriptOf in Hs.
      destruct (fileText fs (MigrationFile.fullPath m)) as [c|] eqn:Ht;
        [|discriminate].
      destruct (Str.endsWith (MigrationFile.name m) ".sql") eqn:Hsql.
      * injection Hs as <-. do 3 eexists. split.
        { right. exists (sqlExec c). auto. }
        now apply migrationUp_sql_error.
      * destruct (evalModule c) as [mig|] eqn:Hm; [|discriminate].
        do 3 eexists. split.
        { right. exists f. auto. }
        now apply migrationUp_up_throws with (content := c) (migration := mig).
  - right. unfold scriptOf in Hs.
    destruct (fileText fs (MigrationFile.fullPath m)) as [c|] eqn:Ht.
    + destruct (Str.endsWith (MigrationFile.name m) ".sql") eqn:Hsql;
        [discriminate|].
      destruct (evalModule c) as [mig|] eqn:Hm.
      * do 3 eexists. split; [left; split; reflexivity|].
        now apply migrationUp_no_up with (content := c) (migration := mig).
      * do 3 eexists. split; [left; split; reflexivity|].
        apply migrationUp_load_fails; auto. now rewrite Ht.
    + destruct (Str.endsWith (MigrationFile.name m) ".sql") eqn:Hsql.
      * do 3 eexists. split; [left; split; reflexivity|].
        now apply migrationUp_sql_unreadable.
      * do 3 eexists. split; [left; split; reflexivity|].
        apply migrationUp_load_fails; auto. now rewrite Ht.
Qed.

(* ----------------------------------------------------------------- *)
(** *** The ledger callbacks *)

Lemma hasVersion_false_iff (v : Z) (l : list AppliedMigration.t) :
  hasVersion v l = false <-> ~ In v (appliedVersionsOf l).
Proof.
  unfold hasVersion, appliedVersionsOf.
  rewrite <- not_true_iff_false, existsb_exists, in_map_iff.
  split; intros H (r & Hr1 & Hr2); apply H; exists r.
  - subst v. split; [exact Hr2 | apply Z.eqb_refl].
  - apply Z.eqb_eq in Hr2. now split.
Qed.

Lemma logMigration_unversioned (name : string) (p : Path) (w : World) :
  extractVersion name = None -> logMigration fs name p w = (Ok tt, w).
Proof. intros H. unfold logMigration. now rewrite H. Qed.

Lemma unlogMigration_unversioned (arg : NameArg) (w : World) :
  extractVersion (match arg with
                  | NameString n => n
                  | NameObject n => n
                  end) = None ->
  unlogMigration arg w = (Ok tt, w).
Proof.
  intros H. unfold unlogMigration.
  destruct arg; simpl in *; now rewrite H.
Qed.

Lemma logMigration_insert (m : MigrationFile.t) (w : World) :
  extractVersion (MigrationFile.name m) = Some (MigrationFile.version m) ->
  fileText fs (MigrationFile.fullPath m) <> None ->
  ~ In (versionZ m) (appliedVersionsOf (ledger (db w))) ->
  logMigration fs (MigrationFile.name m) (MigrationFile.fullPath m) w =
  (Ok tt,
   {| db := {| ledger := ledger (db w) ++ [ledgerRow fs m];
               data := data (db w) |};
      snapshot := snapshot w;
      sent := sent w ++ [Insert (ledgerRow fs m)];
      logged := logged w |}).
Proof.
  intros Hv Ht Hnew. unfold logMigration, ledgerRow. rewrite Hv.
  unfold bind at 1. rewrite getFileMd5_eq.
  destruct (fileText fs (MigrationFile.fullPath m)) as [c|];
    [|contradiction].
  apply hasVersion_false_iff in Hnew. run_monad. simpl.
  fold (versionZ m). now rewrite Hnew.
Qed.

(* ----------------------------------------------------------------- *)
(** *** The step runner over the pending files *)

(** What [logMigration] does for a file with a version: the row is sent,
    and appended unless the primary key refuses it. *)
Lemma logMigration_row (m : MigrationFile.t) (w : World) :
  extractVersion (MigrationFile.name m) = Some (MigrationFile.version m) ->
  fileText fs (MigrationFile.fullPath m) <> None ->
  logMigration fs (MigrationFile.name m) (MigrationFile.fullPath m) w =
  ((if hasVersion (versionZ m) (ledger (db w))
    then Err (DuplicateKey (versionZ m)) else Ok tt),
   {| db := withRow (ledgerRow fs m) (db w);
      snapshot := snapshot w;
      sent := sent w ++ [Insert (ledgerRow fs m)];
      logged := logged w |}).
Proof.
  intros Hv Ht. unfold logMigration, ledgerRow, withRow. rewrite Hv.
  unfold bind at 1. rewrite getFileMd5_eq.
  destruct (fileText fs (MigrationFile.fullPath m)) as [c|];
    [|contradiction].
  run_monad. simpl. fold (versionZ m).
  destruct (hasVersion (versionZ m) (ledger (db w))); [|reflexivity].
  now destruct (db w).
Qed.

(** A migration succeeds, fails, or succeeds and has its row refused. *)
Lemma outcome_cases (m : MigrationFile.t) (d : Db D) :
  succeedsAt m d \/ (exists t, failsAt m d t) \/ refusedAt m d.
Proof.
  unfold succeedsAt, failsAt, refusedAt.
  destruct (scriptOf m) as [f|]; [|right; left; eexists; left; auto].
  destruct (snd (f d (Some d))) eqn:Hf.
  - destruct (hasVersion (versionZ m) (ledger (fst (fst (f d (Some d))))))
      eqn:Hh; [right; right | left]; now exists f.
  - right; left. eexists. right. now exists f.
Qed.

Lemma appliedWorld_nil (w : World) :
  snapshot w = None -> appliedWorld w [] [] [] = w.
Proof.
  unfold appliedWorld; simpl. rewrite !app_nil_r.
  destruct w as [d s c g]; simpl. now intros ->.
Qed.

Lemma appliedWorld_cons (w : World) (m : MigrationFile.t)
  (done : list MigrationFile.t) (tail : list Command)
  (lg lg' : list LogLine) :
  appliedWorld (appliedWorld w [m] [] lg) done tail lg'
  = appliedWorld w (m :: done) tail (lg ++ lg').
Proof.
  unfold appliedWorld. simpl. rewrite ?app_nil_r, <- ?app_assoc.
  reflexivity.
Qed.

Lemma failedWorldOf_cons (w : World) (m : MigrationFile.t)
  (done : list MigrationFile.t) (n : MigrationFile.t) (t : list Command)
  (lg lg' : list LogLine) :
  failedWorldOf (appliedWorld w [m] [] lg) done n t lg'
  = failedWorldOf w (m :: done) n t (lg ++ lg').
Proof.
  unfold failedWorldOf, appliedWorld. simpl.
  rewrite ?app_nil_r, <- ?app_assoc. reflexivity.
Qed.

Lemma committed_snoc (done : list MigrationFile.t) (m : MigrationFile.t)
  (d : Db D) :
  committed (done ++ [m]) d = applied m (committed done d).
Proof. unfold committed. now rewrite fold_left_app. Qed.


Section Runner.
Variable appliedRows : list AppliedMigration.t.
Variable dir : string.

Local Abbreviation storage := (storageOf D fs appliedRows dir).

(** The head of the list succeeds: its transaction and its row, then the
    rest. *)
Lemma umzugApply_head_succeeds (m : MigrationFile.t)
  (rest : list MigrationFile.t) (w : World) :
  snapshot w = None ->
  extractVersion (MigrationFile.name m) = Some (MigrationFile.version m) ->
  fileText fs (MigrationFile.fullPath m) <> None ->
  succeedsAt m (db w) ->
  exists lg,
    umzugApply storage (map runnable (m :: rest)) w
    = umzugApply storage (map runnable rest) (appliedWorld w [m] [] lg).
Proof.
  intros Hsnap Hv Ht (f & Hs & Hf & Hh).
  destruct (migrationUp_success m f w Hsnap Hs Hf) as [lg Hup].
  exists lg. simpl map. simpl umzugApply. unfold bind at 1. unfold tryCatch.
  simpl rmUp. simpl rmName. simpl rmPath. rewrite Hup.
  unfold bind at 1. simpl storageLogMigration.
  rewrite logMigration_row by assumption. simpl db. rewrite Hh.
  f_equal. unfold appliedWorld, committed, applied. simpl.
  rewrite Hs. unfold withRow. simpl. rewrite Hh.
  rewrite ?app_nil_r, <- ?app_assoc. reflexivity.
Qed.

(** The head of the list fails: it is rolled back and the rest is left. *)
Lemma umzugApply_head_fails (m : MigrationFile.t)
  (rest : list MigrationFile.t) (w : World) (t : list Command) :
  snapshot w = None ->
  failsAt m (db w) t ->
  exists cause lg,
    umzugApply storage (map runnable (m :: rest)) w
    = (Err (MigrationError (MigrationFile.name m) cause),
       failedWorldOf w [] m t lg).
Proof.
  intros Hsnap Hfail.
  destruct (migrationUp_cases m w Hsnap)
    as [(f & lg & Hs & Hf & _)|(e & t' & lg & Hfail' & Hup)].
  - exfalso. destruct Hfail as [[Hn _]|(f' & Hs' & Hf' & _)].
    + rewrite Hs in Hn. discriminate.
    + rewrite Hs in Hs'. injection Hs' as <-. rewrite Hf in Hf'.
      discriminate.
  - assert (t' = t) as ->.
    { destruct Hfail as [[Hn ->]|(f & Hs & _ & ->)],
               Hfail' as [[Hn' ->]|(f' & Hs' & _ & ->)];
        try reflexivity; congruence. }
    exists e, lg. simpl map. simpl umzugApply. unfold bind at 1.
    unfold tryCatch. simpl rmUp. simpl rmName. rewrite Hup.
    unfold throw. f_equal.
Qed.

(** The script of the head succeeds and its row is refused. *)
Lemma umzugApply_head_refused (m : MigrationFile.t)
  (rest : list MigrationFile.t) (w : World) :
  snapshot w = None ->
  extractVersion (MigrationFile.name m) = Some (MigrationFile.version m) ->
  fileText fs (MigrationFile.fullPath m) <> None ->
  refusedAt m (db w) ->
  exists lg,
    umzugApply storage (map runnable (m :: rest)) w
    = (Err (DuplicateKey (versionZ m)), appliedWorld w [m] [] lg).
Proof.
  intros Hsnap Hv Ht (f & Hs & Hf & Hh).
  destruct (migrationUp_success m f w Hsnap Hs Hf) as [lg Hup].
  exists lg. simpl map. simpl umzugApply. unfold bind at 1. unfold tryCatch.
  simpl rmUp. simpl rmName. simpl rmPath. rewrite Hup.
  unfold bind at 1. simpl storageLogMigration.
  rewrite logMigration_row by assumption. simpl db. rewrite Hh.
  f_equal. unfold appliedWorld, committed, applied. simpl.
  rewrite Hs. unfold withRow. simpl. rewrite Hh.
  rewrite ?app_nil_r, <- ?app_assoc. reflexivity.
Qed.

(** Migrations that succeed one after the other are applied one after the
    other, and the step runner goes on with what follows them. *)
Lemma umzugApply_succeed (done rest : list MigrationFile.t) :
  forall w : World,
  snapshot w = None ->
  (forall m, In m done ->
     extractVersion (MigrationFile.name m) = Some (MigrationFile.version m)
     /\ fileText fs (MigrationFile.fullPath m) <> None) ->
  allSucceed done (db w) ->
  exists lg,
    umzugApply storage (map runnable (done ++ rest)) w
    = umzugApply storage (map runnable rest) (appliedWorld w done [] lg).
Proof.
  induction done as [|m done IH]; intros w Hsnap Hwf Hall.
  - exists []. now rewrite appliedWorld_nil.
  - destruct Hall as [Hm Hall].
    destruct (Hwf m (or_introl eq_refl)) as [Hv Ht].
    destruct (umzugApply_head_succeeds m (done ++ rest) w Hsnap Hv Ht Hm)
      as [lg Hhead].
    destruct (IH (appliedWorld w [m] [] lg)) as [lg' Hrest].
    + reflexivity.
    + intros m' Hm'. apply Hwf. now right.
    + exact Hall.
    + exists (lg ++ lg'). simpl app. rewrite Hhead, Hrest.
      now rewrite appliedWorld_cons.
Qed.

End Runner.

(** The migrations that succeed one after the other from [d], and what
    stops them if anything does. *)
Lemma succeeding_prefix (ms : list MigrationFile.t) :
  forall d : Db D,
  exists done rest,
    ms = done ++ rest /\ allSucceed done d /\
    (rest = [] \/
     exists m rest',
       rest = m :: rest' /\
       ((exists t, failsAt m (committed done d) t) \/
        refusedAt m (committed done d))).
Proof.
  induction ms as [|m ms IH]; intros d.
  - exists [], []. simpl. auto.
  - destruct (outcome_cases m d) as [Hm|Hstop].
    + destruct (IH (applied m d)) as (done & rest & -> & Hall & Hrest).
      exists (m :: done), rest. simpl. auto.
    + exists [], (m :: ms). simpl. split; [reflexivity|]. split; [exact I|].
      right. now exists m, ms.
Qed.

(** The step runner applies the migrations that succeed one after the
    other, and completes or stops at the first that does not. *)
Lemma umzugApply_spec (appliedRows : list AppliedMigration.t) (dir : string)
  (ms : list MigrationFile.t) (w : World) :
  snapshot w = None ->
  (forall m, In m ms ->
     extractVersion (MigrationFile.name m) = Some (MigrationFile.version m)
     /\ fileText fs (MigrationFile.fullPath m) <> None) ->
  exists done rest,
    ms = done ++ rest /\ allSucceed done (db w) /\
    ((rest = [] /\
      exists lg,
        umzugApply (storageOf D fs appliedRows dir) (map runnable ms) w
        = (Ok tt, appliedWorld w done [] lg)) \/
     (exists m rest' cause t lg,
        rest = m :: rest' /\
        failsAt m (committed done (db w)) t /\
        umzugApply (storageOf D fs appliedRows dir) (map runnable ms) w
        = (Err (MigrationError (MigrationFile.name m) cause),
           failedWorldOf w done m t lg)) \/
     (exists m rest' lg,
        rest = m :: rest' /\
        refusedAt m (committed done (db w)) /\
        umzugApply (storageOf D fs appliedRows dir) (map runnable ms) w
        = (Err (DuplicateKey (versionZ m)),
           appliedWorld w (done ++ [m]) [] lg))).
Proof.
  intros Hsnap Hwf.
  destruct (succeeding_prefix ms (db w)) as (done & rest & -> & Hall & Hrest).
  exists done, rest. split; [reflexivity|]. split; [exact Hall|].
  destruct (umzugApply_succeed appliedRows dir done rest w Hsnap) as [lg Hgo];
    [intros m Hm; apply Hwf, in_or_app; now left | exact Hall |].
  rewrite Hgo.
  destruct Hrest as [->|(m & rest' & -> & [[t Hfail]|Href])].
  - left. split; [reflexivity|]. now exists lg.
  - right; left.
    destruct (umzugApply_head_fails appliedRows dir m rest'
                (appliedWorld w done [] lg) t eq_refl Hfail)
      as (cause & lg' & Hhead).
    exists m, rest', cause, t, (lg ++ lg'). split; [reflexivity|].
    split; [exact Hfail|]. rewrite Hhead. f_equal.
    unfold failedWorldOf, appliedWorld. simpl.
    rewrite ?app_nil_r, <- ?app_assoc. reflexivity.
  - right; right.
    destruct (Hwf m) as [Hv Ht]; [apply in_or_app; right; now left|].
    destruct (umzugApply_head_refused appliedRows dir m rest'
                (appliedWorld w done [] lg) eq_refl Hv Ht Href)
      as (lg' & Hhead).
    exists m, rest', (lg ++ lg'). split; [reflexivity|].
    split; [exact Href|]. rewrite Hhead. f_equal.
    unfold appliedWorld. simpl. rewrite committed_snoc.
    rewrite flat_map_app. simpl.
    rewrite ?app_nil_r, <- ?app_assoc. reflexivity.
Qed.

(* ----------------------------------------------------------------- *)
(** *** The run of a schema *)

Lemma lookupFile_In (name : string) (d : Dir) :
  In name (map fst d) -> lookupFile name d <> None.
Proof.
  induction d as [|[n c] d IH]; simpl; [intros []|].
  intros [<-|H]; [now rewrite String.eqb_refl|].
  destruct (String.eqb n name); [discriminate | now apply IH].
Qed.

Lemma umzugPending_runnable (names : list string)
  (pend : list MigrationFile.t) :
  umzugPending names (map runnable pend)
  = map runnable (notExecuted names pend).
Proof.
  unfold umzugPending, notExecuted.
  induction pend as [|m pend IH]; simpl; [reflexivity|].
  destruct (negb _); simpl; now rewrite IH.
Qed.

(** The step runner drops pending files; the versions left stay distinct. *)
Lemma notExecuted_NoDup (names : list string) (pend : list MigrationFile.t) :
  NoDup (map versionZ pend) ->
  NoDup (map versionZ (notExecuted names pend)).
Proof.
  unfold notExecuted. induction pend as [|m pend IH]; intros Hnd; simpl.
  - constructor.
  - apply NoDup_cons_iff in Hnd as [Hfresh Hnd].
    destruct (negb _); simpl; [|now apply IH].
    apply NoDup_cons_iff. split; [|now apply IH].
    intros Hin. apply Hfresh.
    apply in_map_iff in Hin as (m' & Hv & Hm').
    apply filter_In in Hm' as [Hm' _].
    rewrite <- Hv. now apply in_map.
Qed.

Lemma contiguous_increasing (first : Z) (k : nat) :
  StronglySorted Z.lt (contiguous first k).
Proof.
  unfold contiguous. generalize 0%nat as i.
  induction k as [|k IH]; intros i; simpl; constructor; [apply IH|].
  rewrite Forall_forall. intros z Hz.
  apply in_map_iff in Hz as (j & <- & Hj). apply in_seq in Hj. lia.
Qed.

Lemma increasing_NoDup (l : list Z) : StronglySorted Z.lt l -> NoDup l.
Proof.
  induction 1 as [|z l Hs IH Hall]; constructor; [|exact IH].
  intros Hin. rewrite Forall_forall in Hall. specialize (Hall z Hin). lia.
Qed.

Lemma contiguous_NoDup (first : Z) (k : nat) : NoDup (contiguous first k).
Proof. apply increasing_NoDup, contiguous_increasing. Qed.

Lemma selectApplied_versions (l : list AppliedMigration.t) (v : Z) :
  In v (appliedVersionsOf (selectApplied l)) <-> In v (appliedVersionsOf l).
Proof.
  unfold appliedVersionsOf, selectApplied.
  split; apply Permutation_in, Permutation_map;
    [apply sortBy_perm | symmetry; apply sortBy_perm].
Qed.

Lemma selectApplied_In (l : list AppliedMigration.t) (r : AppliedMigration.t) :
  In r (selectApplied l) <-> In r l.
Proof. apply sortBy_In. Qed.

(** What the pending files of a directory are made of. *)
Lemma pending_wellformed (applied : list AppliedMigration.t) (dir : string)
  (pend : list MigrationFile.t) :
  computePending applied dir (map fst (fs dir)) = Ok pend ->
  (forall m, In m pend ->
     extractVersion (MigrationFile.name m) = Some (MigrationFile.version m)
     /\ fileText fs (MigrationFile.fullPath m) <> None
     /\ ~ In (versionZ m) (appliedVersionsOf applied)) /\
  NoDup (map versionZ pend) /\
  StronglySorted Z.lt (map versionZ pend).
Proof.
  intros H. apply computePending_ok in H as [Hp Hc]. split; [|split].
  - intros m Hm. rewrite Hp in Hm. apply pendingOf_In in Hm as [Hm Hna].
    apply allMigrationsOf_In in Hm as (Hf & _ & Hv & Hpath).
    repeat split; [exact Hv | | exact Hna].
    unfold fileText. rewrite Hpath. simpl. now apply lookupFile_In.
  - rewrite Hc. apply contiguous_NoDup.
  - rewrite Hc. apply contiguous_increasing.
Qed.

Lemma run_no_client (schema folder : string) (w : World) :
  connects = false ->
  runMigrationForSchema schema folder w = (Err ClientUnavailable, w).
Proof.
  intros H. unfold runMigrationForSchema, getDbClient. now rewrite H.
Qed.

(** The ordered read raises on a version outside the range of its cast,
    and the run ends there. *)
Lemma run_unreadable (schema folder : string) (d : Db D) :
  connects = true ->
  readable (ledger d) = false ->
  runMigrationForSchema schema folder (startWorld d)
  = (Err IntegerOutOfRange, afterSetup schema d).
Proof.
  intros Hc Hr. unfold runMigrationForSchema, getDbClient. rewrite Hc.
  unfold getOrCreateMigrationDirectory,
    setupDBSchemaAndGetAppliedMigrations, startWorld, afterSetup.
  run_monad. simpl. now rewrite Hr.
Qed.

Lemma run_unfold (schema folder : string) (d : Db D) :
  connects = true ->
  readable (ledger d) = true ->
  runMigrationForSchema schema folder (startWorld d) =
  let dir := migrationDirOf currentDir folder in
  let applied := selectApplied (ledger d) in
  let w0 := afterSetup schema d in
  match computePending applied dir (map fst (fs dir)) with
  | Err e => (Err e, w0)
  | Ok pend =>
      match validateApplied fs dir applied w0 with
      | (Err e, w1) => (Err e, w1)
      | (Ok _, w1) =>
          match umzugApply (storageOf D fs applied dir)
                  (map runnable
                     (notExecuted (map AppliedMigration.name applied) pend))
                  w1 with
          | (Err e, w2) => (Err e, w2)
          | (Ok _, w2) =>
              (Ok tt,
               {| db := db w2; snapshot := None;
                  sent := sent w2 ++ [Commit; ResetSearchPath];
                  logged := logged w2 ++ [InfoSchemaDone schema] |})
          end
      end
  end.
Proof.
  intros Hc Hr. unfold runMigrationForSchema, getDbClient. rewrite Hc.
  unfold getOrCreateMigrationDirectory,
    setupDBSchemaAndGetAppliedMigrations, getPendingMigration, readdir,
    umzugUp, startWorld, afterSetup, migrationDirOf.
  run_monad. simpl. rewrite Hr.
  destruct (computePending _ _ _) as [pend|e]; [|reflexivity].
  simpl. unfold executed. run_monad.
  destruct (validateApplied _ _ _ _) as [[[]|e] w1]; [|reflexivity].
  rewrite umzugPending_runnable.
  destruct (umzugApply _ _ _) as [[[]|e] w2]; [|reflexivity].
  simpl. rewrite <- !app_assoc. reflexivity.
Qed.

Lemma run_sequence_violation (schema folder : string) (d : Db D) (e : Error) :
  connects = true ->
  readable (ledger d) = true ->
  computePending (selectApplied (ledger d)) (migrationDirOf currentDir folder)
    (map fst (fs (migrationDirOf currentDir folder))) = Err e ->
  runMigrationForSchema schema folder (startWorld d)
  = (Err e, afterSetup schema d).
Proof.
  intros Hc Hr H. rewrite run_unfold by assumption. simpl. now rewrite H.
Qed.

Lemma run_integrity_violation (schema folder : string) (d : Db D)
  (pend : list MigrationFile.t) (e : Error) :
  connects = true ->
  readable (ledger d) = true ->
  computePending (selectApplied (ledger d)) (migrationDirOf currentDir folder)
    (map fst (fs (migrationDirOf currentDir folder))) = Ok pend ->
  validateApplied fs (migrationDirOf currentDir folder)
    (selectApplied (ledger d)) (afterSetup schema d)
  = (Err e, afterSetup schema d) ->
  runMigrationForSchema schema folder (startWorld d)
  = (Err e, afterSetup schema d).
Proof.
  intros Hc Hr H Hv. rewrite run_unfold by assumption. simpl.
  now rewrite H, Hv.
Qed.

(** The run from the step runner on, once the ledger was read, the
    pending files passed the sequence check and the applied ones the
    integrity check. *)
Lemma run_from_runner (schema folder : string) (d : Db D)
  (pend : list MigrationFile.t) :
  let dir := migrationDirOf currentDir folder in
  let applied := selectApplied (ledger d) in
  connects = true ->
  readable (ledger d) = true ->
  computePending applied dir (map fst (fs dir)) = Ok pend ->
  (forall r, In r (ledger d) -> intact fs dir r) ->
  runMigrationForSchema schema folder (startWorld d) =
  match umzugApply (storageOf D fs applied dir)
          (map runnable
             (notExecuted (map AppliedMigration.name applied) pend))
          (afterSetup schema d) with
  | (Err e, w2) => (Err e, w2)
  | (Ok _, w2) =>
      (Ok tt,
       {| db := db w2; snapshot := None;
          sent := sent w2 ++ [Commit; ResetSearchPath];
          logged := logged w2 ++ [InfoSchemaDone schema] |})
  end.
Proof.
  intros dir applied Hc Hr Hp Hint.
  rewrite run_unfold by assumption. fold dir applied. simpl. rewrite Hp.
  rewrite validateApplied_ok
    by (intros r Hr'; apply Hint; now apply selectApplied_In).
  reflexivity.
Qed.

Lemma notExecuted_wellformed (applied : list AppliedMigration.t)
  (dir : string) (names : list string) (pend : list MigrationFile.t) :
  computePending applied dir (map fst (fs dir)) = Ok pend ->
  forall m, In m (notExecuted names pend) ->
    extractVersion (MigrationFile.name m) = Some (MigrationFile.version m)
    /\ fileText fs (MigrationFile.fullPath m) <> None.
Proof.
  intros Hp m Hm. apply filter_In in Hm as [Hm _].
  destruct (pending_wellformed applied dir pend Hp) as (Hwf & _).
  destruct (Hwf m Hm) as (Hv & Ht & _). now split.
Qed.

(** A run that reaches the step runner applies the files to be applied
    that succeed one after the other, each in its transaction followed by
    its ledger row, and either completes or stops at the first one that
    fails or whose row is refused. *)
Lemma run_applies (schema folder : string) (d : Db D)
  (pend : list MigrationFile.t) :
  let dir := migrationDirOf currentDir folder in
  let applied := selectApplied (ledger d) in
  connects = true ->
  readable (ledger d) = true ->
  computePending applied dir (map fst (fs dir)) = Ok pend ->
  (forall r, In r (ledger d) -> intact fs dir r) ->
  exists done rest,
    notExecuted (map AppliedMigration.name applied) pend = done ++ rest /\
    allSucceed done d /\
    ((rest = [] /\
      exists lg,
        runMigrationForSchema schema folder (startWorld d)
        = (Ok tt,
           appliedWorld (afterSetup schema d) done
             [Commit; ResetSearchPath] lg)) \/
     (exists m rest' cause t lg,
        rest = m :: rest' /\
        failsAt m (committed done d) t /\
        runMigrationForSchema schema folder (startWorld d)
        = (Err (MigrationError (MigrationFile.name m) cause),
           failedWorldOf (afterSetup schema d) done m t lg)) \/
     (exists m rest' lg,
        rest = m :: rest' /\
        refusedAt m (committed done d) /\
        runMigrationForSchema schema folder (startWorld d)
        = (Err (DuplicateKey (versionZ m)),
           appliedWorld (afterSetup schema d) (done ++ [m]) [] lg))).
Proof.
  intros dir applied Hc Hr Hp Hint.
  rewrite (run_from_runner schema folder d pend) by assumption.
  fold dir applied.
  destruct (umzugApply_spec applied dir
              (notExecuted (map AppliedMigration.name applied) pend)
              (afterSetup schema d) eq_refl
              (notExecuted_wellformed applied dir _ pend Hp))
    as (done & rest & Hsplit & Hall & Hres).
  exists done, rest. split; [exact Hsplit|]. split; [exact Hall|].
  destruct Hres as [(-> & lg & ->)
                   |[(m & rest' & cause & t & lg & -> & Hf & ->)
                    |(m & rest' & lg & -> & Href & ->)]].
  - left. split; [reflexivity|]. exists (lg ++ [InfoSchemaDone schema]).
    f_equal. unfold appliedWorld; simpl.
    rewrite ?app_nil_r, <- ?app_assoc. reflexivity.
  - right; left. now exists m, rest', cause, t, lg.
  - right; right. now exists m, rest', lg.
Qed.

(* ----------------------------------------------------------------- *)
(** *** Names without a version: the ledger callbacks do nothing *)

(** C10.  For a migration name without a parsable leading version, both
    [logMigration] and [unlogMigration] (called with the name or with an
    object carrying it) return normally and leave the session as it was:
    no command is sent, so no row is inserted or deleted. *)
Theorem unversioned_name_leaves_ledger (name : string) (migrationPath : Path)
  (w : World) :
  extractVersion name = None ->
  logMigration fs name migrationPath w = (Ok tt, w) /\
  unlogMigration (NameString name) w = (Ok tt, w) /\
  unlogMigration (NameObject name) w = (Ok tt, w).
Proof.
  intros H. split; [|split].
  - now apply logMigration_unversioned.
  - now apply unlogMigration_unversioned.
  - now apply unlogMigration_unversioned.
Qed.

(* ----------------------------------------------------------------- *)
(** *** The top-level driver *)

Lemma handleMigration_eq (w : World) :
  handleMigration w =
  match runMigrationForSchema mainSchema mainSchema w with
  | (Err e, w1) => log (ErrorProcessFailed e) w1
  | (Ok _, w1) =>
      if connects
      then if shutsDown
           then log InfoAllDone w1
           else log (ErrorProcessFailed ShutdownFailed) w1
      else log (ErrorProcessFailed ClientUnavailable) w1
  end.
Proof.
  unfold handleMigration, tryCatch, bind.
  destruct (runMigrationForSchema mainSchema mainSchema w) as [[[]|e] w1];
    [|reflexivity].
  unfold getDbClient, shutdown.
  destruct connects; [|reflexivity]. destruct shutsDown; reflexivity.
Qed.

(** C9.  Whatever happens inside the run of the schema, [handleMigration]
    returns normally; a failure of the run is caught and logged as the
    last line of the log; and [main] ends the process with status 0. *)
Theorem handleMigration_swallows_failures (w : World) :
  (exists w', handleMigration w = (Ok tt, w')) /\
  fst (main w) = 0%Z /\
  (forall e w1,
     runMigrationForSchema mainSchema mainSchema w = (Err e, w1) ->
     handleMigration w =
     (Ok tt, {| db := db w1; snapshot := snapshot w1; sent := sent w1;
                logged := logged w1 ++ [ErrorProcessFailed e] |})).
Proof.
  assert (H : exists w', handleMigration w = (Ok tt, w')).
  { rewrite handleMigration_eq.
    destruct (runMigrationForSchema mainSchema mainSchema w) as [[[]|e] w1];
      [destruct connects; [destruct shutsDown|]|];
      unfold log; eexists; reflexivity. }
  split; [exact H|]. split.
  - destruct H as [w' H]. unfold main. now rewrite H.
  - intros e w1 Hrun. rewrite handleMigration_eq, Hrun. reflexivity.
Qed.

(* ----------------------------------------------------------------- *)
(** *** The pending set *)

Lemma getPendingMigration_eq (applied : list AppliedMigration.t)
  (dir : string) (w : World) :
  getPendingMigration fs applied dir w =
  (computePending applied dir (map fst (fs dir)), w).
Proof.
  unfold getPendingMigration, readdir, bind, ret, throw.
  destruct (computePending _ _ _); reflexivity.
Qed.

(** C1.  For every ledger and every directory, [getPendingMigration] on
    the ordered read of the ledger either returns the discovered files
    whose version is not applied, with the versions [last + 1],
    [last + 2], ..., where [last] is the greatest applied version (0 for
    an empty ledger), or fails with the version mismatch error; the
    session is untouched either way.  On any list of applied rows the same
    holds with [last] the version of the last row.  With versions 1 and 2
    applied and files of versions 2 and 4, it fails expecting 3 at the file
    of version 4. *)
Theorem pending_is_contiguous_or_rejected
  (ledger : list AppliedMigration.t) (dir : string) (w : World) :
  (exists lastApplied,
     MaxOrZero (appliedVersionsOf ledger) lastApplied /\
     ((exists pend,
         getPendingMigration fs (selectApplied ledger) dir w = (Ok pend, w) /\
         (forall m, In m pend <->
                    In m (allMigrationsOf dir (map fst (fs dir))) /\
                    ~ In (versionZ m) (appliedVersionsOf ledger)) /\
         map versionZ pend
         = contiguous (lastApplied + 1) (List.length pend)) \/
      (exists expected found,
         getPendingMigration fs (selectApplied ledger) dir w
         = (Err (VersionMismatch expected found), w)))) /\
  (forall applied : list AppliedMigration.t,
     (exists pend,
        getPendingMigration fs applied dir w = (Ok pend, w) /\
        (forall m, In m pend <->
                   In m (allMigrationsOf dir (map fst (fs dir))) /\
                   ~ In (versionZ m) (appliedVersionsOf applied)) /\
        map versionZ pend
        = contiguous
            (match lastOpt (appliedVersionsOf applied) with
             | Some v => v
             | None => 0%Z
             end + 1)
            (List.length pend)) \/
     (exists expected found,
        getPendingMigration fs applied dir w
        = (Err (VersionMismatch expected found), w))) /\
  (forall n1 h1 n2 h2,
     computePending
       (selectApplied [AppliedMigration.make 1 n1 h1;
                       AppliedMigration.make 2 n2 h2])
       dir ["2-edit.sql"; "4-late.sql"]%string
     = Err (VersionMismatch 3 "4-late.sql")).
Proof.
  assert (Hany : forall applied : list AppliedMigration.t,
     (exists pend,
        getPendingMigration fs applied dir w = (Ok pend, w) /\
        (forall m, In m pend <->
                   In m (allMigrationsOf dir (map fst (fs dir))) /\
                   ~ In (versionZ m) (appliedVersionsOf applied)) /\
        map versionZ pend
        = contiguous
            (match lastOpt (appliedVersionsOf applied) with
             | Some v => v
             | None => 0%Z
             end + 1)
            (List.length pend)) \/
     (exists expected found,
        getPendingMigration fs applied dir w
        = (Err (VersionMismatch expected found), w))).
  { intros applied. rewrite getPendingMigration_eq.
    destruct (computePending_cases applied dir (map fst (fs dir)))
      as [[H Hc]|(e & m & _ & _ & H)]; rewrite H.
    - left. eexists. split; [reflexivity|]. split; [|exact Hc].
      intros m. apply pendingOf_In.
    - right. now exists e, (MigrationFile.name m). }
  split; [|split; [exact Hany | reflexivity]].
  eexists. split; [apply lastApplied_is_max|].
  destruct (Hany (selectApplied ledger))
    as [(pend & H & Hin & Hc)|(e & f & H)].
  - left. exists pend. split; [exact H|]. split; [|exact Hc].
    intros m. rewrite Hin, selectApplied_versions. reflexivity.
  - right. now exists e, f.
Qed.

Lemma NoDup_map_eq (A B : Type) (f : A -> B) (l : list A) (a b : A) :
  NoDup (map f l) -> In a l -> In b l -> f a = f b -> a = b.
Proof.
  induction l as [|x l IH]; simpl; intros Hnd Ha Hb Hf; [destruct Ha|].
  inversion Hnd as [|? ? Hnotin Hnd']; subst.
  destruct Ha as [->|Ha], Hb as [->|Hb]; auto.
  - exfalso. apply Hnotin. rewrite Hf. now apply in_map.
  - exfalso. apply Hnotin. rewrite <- Hf. now apply in_map.
Qed.

(** C8.  When two distinct files of the directory carry the same version
    and that version is not applied, the validator fails with the version
    mismatch error and leaves the session as it was; a run with a client
    fails right after the ledger was read, with that error of the
    validator, or at the read itself when the ledger has a version the
    read refuses, so no migration is executed and none of the two files
    is picked. *)
Theorem duplicate_version_is_rejected
  (schema folder : string) (d : Db D) (n1 n2 : string) (v : N) :
  let dir := migrationDirOf currentDir folder in
  n1 <> n2 ->
  In n1 (map fst (fs dir)) -> In n2 (map fst (fs dir)) ->
  recognised n1 = true -> recognised n2 = true ->
  extractVersion n1 = Some v -> extractVersion n2 = Some v ->
  ~ In (Z.of_N v) (appliedVersionsOf (ledger d)) ->
  exists expected found,
    getPendingMigration fs (selectApplied (ledger d)) dir
      (afterSetup schema d)
    = (Err (VersionMismatch expected found), afterSetup schema d) /\
    (connects = true ->
     runMigrationForSchema schema folder (startWorld d)
     = (Err (if readable (ledger d)
             then VersionMismatch expected found
             else IntegerOutOfRange),
        afterSetup schema d)).
Proof.
  intros dir Hne H1 H2 Hr1 Hr2 Hv1 Hv2 Hna.
  rewrite getPendingMigration_eq.
  destruct (computePending_cases (selectApplied (ledger d)) dir
              (map fst (fs dir)))
    as [[H Hc]|(e & m & _ & _ & H)].
  - exfalso. apply Hne.
    set (m1 := MigrationFile.make n1 v (pathJoin dir n1)).
    set (m2 := MigrationFile.make n2 v (pathJoin dir n2)).
    assert (Hin : forall n, In n (map fst (fs dir)) -> recognised n = true ->
              extractVersion n = Some v ->
              In (MigrationFile.make n v (pathJoin dir n))
                 (pendingOf (appliedVersionsOf (selectApplied (ledger d)))
                    (allMigrationsOf dir (map fst (fs dir))))).
    { intros n Hn Hr Hv. apply pendingOf_In. split.
      - apply allMigrationsOf_In. simpl. auto.
      - unfold versionZ; simpl. now rewrite selectApplied_versions. }
    assert (Heq : m1 = m2).
    { eapply NoDup_map_eq with (f := versionZ);
        [rewrite Hc; apply contiguous_NoDup | apply Hin | apply Hin
        | reflexivity]; assumption. }
    now injection Heq.
  - exists e, (MigrationFile.name m). rewrite H. split; [reflexivity|].
    intros Hconn. destruct (readable (ledger d)) eqn:Hread.
    + now apply run_sequence_violation.
    + now apply run_unreadable.
Qed.

(* ----------------------------------------------------------------- *)
(** *** The integrity check of applied migrations *)

Lemma validateApplied_eq (dir : string) (rows : list AppliedMigration.t)
  (w : World) :
  validateApplied fs dir rows w = (fst (validateApplied fs dir rows w), w).
Proof.
  rewrite <- (validateApplied_world dir rows w) at 3.
  now destruct (validateApplied fs dir rows w).
Qed.

(** A run whose ledger has a row that is not intact fails, and it fails
    before anything but the provisioning commands was sent. *)
Lemma run_stops_on_broken_row (schema folder : string) (d : Db D)
  (row : AppliedMigration.t) :
  In row (ledger d) ->
  ~ intact fs (migrationDirOf currentDir folder) row ->
  exists e w',
    runMigrationForSchema schema folder (startWorld d) = (Err e, w') /\
    (w' = startWorld d \/ w' = afterSetup schema d).
Proof.
  intros Hin Hrow.
  assert (Hc : connects = true \/ connects = false)
    by (destruct connects; auto).
  destruct Hc as [Hc|Hc].
  - destruct (readable (ledger d)) eqn:Hread.
    + destruct (computePending (selectApplied (ledger d))
                  (migrationDirOf currentDir folder)
                  (map fst (fs (migrationDirOf currentDir folder))))
        as [pend|e] eqn:Hp.
      * destruct (validateApplied_fails (migrationDirOf currentDir folder)
                    (selectApplied (ledger d)) row (afterSetup schema d))
          as [e He]; [now apply selectApplied_In | exact Hrow |].
        exists e, (afterSetup schema d). split; [|now right].
        now apply run_integrity_violation with (pend := pend).
      * exists e, (afterSetup schema d). split; [|now right].
        now apply run_sequence_violation.
    + exists IntegerOutOfRange, (afterSetup schema d). split; [|now right].
      now apply run_unreadable.
  - exists ClientUnavailable, (startWorld d). split; [|now left].
    now apply run_no_client.
Qed.

Lemma run_reports_first_broken_row (schema folder : string) (d : Db D)
  (pend : list MigrationFile.t)
  (pre : list AppliedMigration.t) (row : AppliedMigration.t)
  (post : list AppliedMigration.t) :
  let dir := migrationDirOf currentDir folder in
  connects = true ->
  computePending (selectApplied (ledger d)) dir (map fst (fs dir)) = Ok pend ->
  selectApplied (ledger d) = pre ++ row :: post ->
  (forall r, In r pre -> intact fs dir r) ->
  ~ intact fs dir row ->
  runMigrationForSchema schema folder (startWorld d) =
  (Err (if readable (ledger d)
        then match lookupFile (AppliedMigration.name row) (fs dir) with
             | None => AppliedMissing (AppliedMigration.name row)
             | Some content =>
                 Md5Mismatch (AppliedMigration.name row)
                   (AppliedMigration.md5 row) (MD5.md5hex content)
             end
        else IntegerOutOfRange), afterSetup schema d).
Proof.
  intros dir Hc Hp Hsel Hpre Hrow.
  destruct (readable (ledger d)) eqn:Hread; [|now apply run_unreadable].
  apply run_integrity_violation with (pend := pend);
    [exact Hc|exact Hread|exact Hp|].
  fold dir. rewrite Hsel. now apply validateApplied_first.
Qed.

(** C2 (as amended).  When the file of an applied row now has a
    fingerprint other than the recorded one, the run fails, the database
    is as it was and nothing but the provisioning commands was sent, so no
    pending migration is executed.  The failure is the MD5 mismatch of
    that row when the client is available, the ledger can be read, the
    pending files pass the sequence check and the rows read before it are
    intact; when the ledger has a version the read refuses, it is the
    error of the read.  The fingerprint is the MD5 digest of the text of
    the file and of nothing else, and computing it changes nothing. *)
Theorem changed_fingerprint_stops_run (schema folder : string) (d : Db D)
  (row : AppliedMigration.t) (content : string) :
  let dir := migrationDirOf currentDir folder in
  In row (ledger d) ->
  lookupFile (AppliedMigration.name row) (fs dir) = Some content ->
  MD5.md5hex content <> AppliedMigration.md5 row ->
  (exists e w',
     runMigrationForSchema schema folder (startWorld d) = (Err e, w') /\
     (w' = startWorld d \/ w' = afterSetup schema d)) /\
  (connects = true ->
   forall pend pre post,
     computePending (selectApplied (ledger d)) dir (map fst (fs dir))
     = Ok pend ->
     selectApplied (ledger d) = pre ++ row :: post ->
     (forall r, In r pre -> intact fs dir r) ->
     runMigrationForSchema schema folder (startWorld d)
     = (Err (if readable (ledger d)
             then Md5Mismatch (AppliedMigration.name row)
                    (AppliedMigration.md5 row) (MD5.md5hex content)
             else IntegerOutOfRange),
        afterSetup schema d)) /\
  (forall (p : Path) (text : string) (w : World),
     fileText fs p = Some text ->
     getFileMd5 fs p w = (Ok (MD5.md5hex text), w)).
Proof.
  intros dir Hin Hfile Hmd5.
  assert (Hrow : ~ intact fs dir row).
  { intros H. apply intact_iff in H as (c & Hc & Heq).
    rewrite Hfile in Hc. injection Hc as <-. contradiction. }
  split; [|split].
  - now apply run_stops_on_broken_row with (row := row).
  - intros Hc pend pre post Hp Hsel Hpre.
    rewrite (run_reports_first_broken_row schema folder d pend pre row post)
      by assumption.
    fold dir. now rewrite Hfile.
  - intros p text w Ht. now rewrite getFileMd5_eq, Ht.
Qed.

(** C3 (as amended).  When the file of an applied row is absent from the
    directory, the run fails, the database (the ledger with it) is as it
    was and nothing but the provisioning commands was sent, so no pending
    migration is executed.  The failure is the applied-migration-missing
    error of that row when the client is available, the ledger can be
    read, the pending files pass the sequence check and the rows read
    before it are intact; when the ledger has a version the read refuses,
    it is the error of the read. *)
Theorem missing_file_stops_run (schema folder : string) (d : Db D)
  (row : AppliedMigration.t) :
  let dir := migrationDirOf currentDir folder in
  In row (ledger d) ->
  lookupFile (AppliedMigration.name row) (fs dir) = None ->
  (exists e w',
     runMigrationForSchema schema folder (startWorld d) = (Err e, w') /\
     (w' = startWorld d \/ w' = afterSetup schema d)) /\
  (connects = true ->
   forall pend pre post,
     computePending (selectApplied (ledger d)) dir (map fst (fs dir))
     = Ok pend ->
     selectApplied (ledger d) = pre ++ row :: post ->
     (forall r, In r pre -> intact fs dir r) ->
     runMigrationForSchema schema folder (startWorld d)
     = (Err (if readable (ledger d)
             then AppliedMissing (AppliedMigration.name row)
             else IntegerOutOfRange),
        afterSetup schema d)).
Proof.
  intros dir Hin Hfile.
  assert (Hrow : ~ intact fs dir row).
  { intros H. apply intact_iff in H as (c & Hc & _).
    rewrite Hfile in Hc. discriminate. }
  split.
  - now apply run_stops_on_broken_row with (row := row).
  - intros Hc pend pre post Hp Hsel Hpre.
    rewrite (run_reports_first_broken_row schema folder d pend pre row post)
      by assumption.
    fold dir. now rewrite Hfile.
Qed.

(* ----------------------------------------------------------------- *)
(** *** The ways a run can go *)

Lemma validateApplied_error_kind (dir : string)
  (rows : list AppliedMigration.t) (w w' : World) (e : Error) :
  validateApplied fs dir rows w = (Err e, w') -> isIntegrityError e.
Proof.
  induction rows as [|row rows IH]; [discriminate|].
  rewrite validateApplied_step.
  destruct (lookupFile _ _) as [c|]; [|now intros [= <- _]].
  destruct (String.eqb _ _); [exact IH | now intros [= <- _]].
Qed.

Lemma run_cases (schema folder : string) (d : Db D) :
  let dir := migrationDirOf currentDir folder in
  let applied := selectApplied (ledger d) in
  (connects = false /\
   runMigrationForSchema schema folder (startWorld d)
   = (Err ClientUnavailable, startWorld d)) \/
  (connects = true /\ readable (ledger d) = false /\
   runMigrationForSchema schema folder (startWorld d)
   = (Err IntegerOutOfRange, afterSetup schema d)) \/
  (connects = true /\ readable (ledger d) = true /\
   exists expected found,
     computePending applied dir (map fst (fs dir))
     = Err (VersionMismatch expected found) /\
     runMigrationForSchema schema folder (startWorld d)
     = (Err (VersionMismatch expected found), afterSetup schema d)) \/
  (connects = true /\ readable (ledger d) = true /\
   exists pend e,
     computePending applied dir (map fst (fs dir)) = Ok pend /\
     isIntegrityError e /\
     runMigrationForSchema schema folder (startWorld d)
     = (Err e, afterSetup schema d)) \/
  (connects = true /\ readable (ledger d) = true /\
   exists pend,
     computePending applied dir (map fst (fs dir)) = Ok pend /\
     (forall r, In r (ledger d) -> intact fs dir r) /\
     exists done rest,
       notExecuted (map AppliedMigration.name applied) pend = done ++ rest /\
       allSucceed done d /\
       ((rest = [] /\
         exists lg,
           runMigrationForSchema schema folder (startWorld d)
           = (Ok tt,
              appliedWorld (afterSetup schema d) done
                [Commit; ResetSearchPath] lg)) \/
        (exists m rest' cause t lg,
           rest = m :: rest' /\
           failsAt m (committed done d) t /\
           runMigrationForSchema schema folder (startWorld d)
           = (Err (MigrationError (MigrationFile.name m) cause),
              failedWorldOf (afterSetup schema d) done m t lg)) \/
        (exists m rest' lg,
           rest = m :: rest' /\
           refusedAt m (committed done d) /\
           runMigrationForSchema schema folder (startWorld d)
           = (Err (DuplicateKey (versionZ m)),
              appliedWorld (afterSetup schema d) (done ++ [m]) [] lg)))).
Proof.
  intros dir applied.
  assert (Hc : connects = true \/ connects = false)
    by (destruct connects; auto).
  destruct Hc as [Hc|Hc];
    [|left; split; [exact Hc | now apply run_no_client]].
  right.
  destruct (readable (ledger d)) eqn:Hread;
    [|left; split; [exact Hc|]; split;
      [reflexivity | now apply run_unreadable]].
  right.
  destruct (computePending_cases applied dir (map fst (fs dir)))
    as [[Hp _]|(e & m & _ & _ & Hp)].
  - right.
    destruct (validateApplied fs dir applied (afterSetup schema d))
      as [[[]|e] w1] eqn:Hv.
    + right. split; [exact Hc|]. split; [reflexivity|].
      eexists. split; [exact Hp|].
      assert (Hint : forall r, In r (ledger d) -> intact fs dir r).
      { intros r Hr. eapply validateApplied_ok_inv; [exact Hv|].
        now apply selectApplied_In. }
      split; [exact Hint|]. now apply run_applies.
    + left. split; [exact Hc|]. split; [reflexivity|].
      eexists. exists e. split; [exact Hp|].
      split; [eapply validateApplied_error_kind; exact Hv|].
      eapply run_integrity_violation; [exact Hc | exact Hread | exact Hp |].
      rewrite validateApplied_eq. fold dir applied. now rewrite Hv.
  - left. split; [exact Hc|]. split; [reflexivity|].
    exists e, (MigrationFile.name m).
    split; [exact Hp|]. now apply run_sequence_violation.
Qed.

Lemma toBeApplied_eq (dir : string) (l : list AppliedMigration.t)
  (pend : list MigrationFile.t) :
  computePending (selectApplied l) dir (map fst (fs dir)) = Ok pend ->
  toBeApplied fs dir l
  = notExecuted (map AppliedMigration.name (selectApplied l)) pend.
Proof. intros H. unfold toBeApplied. now rewrite H. Qed.

Lemma ledgerRow_version (m : MigrationFile.t) :
  AppliedMigration.version (ledgerRow fs m) = versionZ m.
Proof. reflexivity. Qed.

Lemma ledgerRows_versions (ms : list MigrationFile.t) :
  appliedVersionsOf (map (ledgerRow fs) ms) = map versionZ ms.
Proof. unfold appliedVersionsOf. rewrite map_map. reflexivity. Qed.

(* ----------------------------------------------------------------- *)
(** *** A migration that fails *)

Lemma leftByFailure_keeps (m : MigrationFile.t) (d : Db D) :
  keepsTransaction m d -> leftByFailure m d = d.
Proof.
  unfold keepsTransaction, leftByFailure. intros H.
  destruct (scriptOf m) as [f|]; [|reflexivity].
  now rewrite (H f eq_refl).
Qed.

(** Confined scripts that succeed leave the ledger to the manager: it
    grows by the rows of the files applied. *)
Lemma committed_confined (ms : list MigrationFile.t) :
  forall d : Db D,
  (forall m, In m ms -> confined m) ->
  allSucceed ms d ->
  ledger (committed ms d) = ledger d ++ map (ledgerRow fs) ms.
Proof.
  induction ms as [|m ms IH]; intros d Hconf Hall; simpl.
  - now rewrite app_nil_r.
  - destruct Hall as [(f & Hs & _ & Hh) Hall].
    unfold committed in *. simpl.
    rewrite IH; [|intros n Hn; apply Hconf; now right|exact Hall].
    destruct (Hconf m (or_introl eq_refl) d) as [_ Hl].
    unfold applied, withRow. rewrite Hs. simpl. rewrite Hh. simpl.
    rewrite (Hl f Hs), <- app_assoc. reflexivity.
Qed.

(** The files to be applied have pairwise distinct versions, so what
    comes before one of them and what comes after it share none. *)
Lemma toBeApplied_versions_apart (applied : list AppliedMigration.t)
  (dir : string) (names : list string)
  (pend pre post : list MigrationFile.t) :
  computePending applied dir (map fst (fs dir)) = Ok pend ->
  notExecuted names pend = pre ++ post ->
  forall a b, In a pre -> In b post -> versionZ a <> versionZ b.
Proof.
  intros Hp Hsplit.
  destruct (pending_wellformed applied dir pend Hp) as (_ & Hnd & _).
  apply (notExecuted_NoDup names) in Hnd. rewrite Hsplit in Hnd.
  clear Hsplit Hp. induction pre as [|x pre IH]; intros a b Ha Hb;
    [destruct Ha|].
  simpl in Hnd. apply NoDup_cons_iff in Hnd as [Hx Hnd].
  destruct Ha as [<-|Ha]; [|now apply IH].
  intros Heq. apply Hx. rewrite Heq, map_app.
  apply in_or_app. right. now apply in_map.
Qed.

Lemma name_gives_version (applied : list AppliedMigration.t)
  (dir : string) (names : list string) (pend : list MigrationFile.t)
  (a b : MigrationFile.t) :
  computePending applied dir (map fst (fs dir)) = Ok pend ->
  In a (notExecuted names pend) -> In b (notExecuted names pend) ->
  MigrationFile.name a = MigrationFile.name b -> versionZ a = versionZ b.
Proof.
  intros Hp Ha Hb Hn.
  destruct (notExecuted_wellformed applied dir names pend Hp a Ha) as [Hva _].
  destruct (notExecuted_wellformed applied dir names pend Hp b Hb) as [Hvb _].
  rewrite Hn, Hvb in Hva. injection Hva as Hva. unfold versionZ.
  now rewrite Hva.
Qed.

(** A run in which the migrations of [pre] succeed and the next one fails
    ends with the failure of that one. *)
Lemma run_stops_at_failure (schema folder : string) (d : Db D)
  (pend pre : list MigrationFile.t) (m : MigrationFile.t)
  (post : list MigrationFile.t) (t : list Command) :
  let dir := migrationDirOf currentDir folder in
  let applied := selectApplied (ledger d) in
  connects = true ->
  readable (ledger d) = true ->
  computePending applied dir (map fst (fs dir)) = Ok pend ->
  (forall r, In r (ledger d) -> intact fs dir r) ->
  notExecuted (map AppliedMigration.name applied) pend = pre ++ m :: post ->
  allSucceed pre d ->
  failsAt m (committed pre d) t ->
  exists cause lg,
    runMigrationForSchema schema folder (startWorld d)
    = (Err (MigrationError (MigrationFile.name m) cause),
       failedWorldOf (afterSetup schema d) pre m t lg).
Proof.
  intros dir applied Hc Hr Hp Hint Hsplit Hall Hfail.
  rewrite (run_from_runner schema folder d pend) by assumption.
  fold dir applied. rewrite Hsplit.
  pose proof (notExecuted_wellformed applied dir
                (map AppliedMigration.name applied) pend Hp) as Hwf.
  rewrite Hsplit in Hwf.
  destruct (umzugApply_succeed applied dir pre (m :: post)
              (afterSetup schema d) eq_refl) as [lg Hgo];
    [intros n Hn; apply Hwf, in_or_app; now left | exact Hall |].
  rewrite Hgo.
  destruct (umzugApply_head_fails applied dir m post
              (appliedWorld (afterSetup schema d) pre [] lg) t eq_refl Hfail)
    as (cause & lg' & Hhead).
  rewrite Hhead. exists cause, (lg ++ lg'). f_equal.
  unfold failedWorldOf, appliedWorld. simpl.
  rewrite ?app_nil_r, <- ?app_assoc. reflexivity.
Qed.

Lemma in_transactions (c : Command) (done : list MigrationFile.t) :
  In c (flat_map (transaction fs) done) ->
  exists n, In n done /\
    (c = Begin \/ c = Script (MigrationFile.name n) \/ c = Commit \/
     c = Insert (ledgerRow fs n)).
Proof.
  intros H. apply in_flat_map in H as (n & Hn & Hin).
  exists n. split; [exact Hn|].
  destruct Hin as [H|[H|[H|[H|[]]]]]; auto.
Qed.

(** What was sent when a migration failed: the transactions of the
    migrations before it, then [Begin], its script if it could start,
    and [Rollback]. *)
Lemma in_failedWorld (schema : string) (d : Db D)
  (pre : list MigrationFile.t) (m : MigrationFile.t) (t : list Command)
  (lg : list LogLine) (c : Command) :
  failsAt m (committed pre d) t ->
  In c (sent (failedWorldOf (afterSetup schema d) pre m t lg)) ->
  (exists n, In n pre /\
     (c = Script (MigrationFile.name n) \/ c = Insert (ledgerRow fs n))) \/
  c = Script (MigrationFile.name m) \/
  (forall x, c <> Script x) /\ (forall r, c <> Insert r).
Proof.
  intros Hfail Hin. simpl in Hin.
  destruct Hin as [<-|[<-|[<-|Hin]]];
    try (right; right; split; intros; discriminate).
  apply in_app_or in Hin as [Hin|Hin].
  - apply in_transactions in Hin as (n & Hn & [->|[->|[->| ->]]]);
      try (right; right; split; intros; discriminate);
      left; exists n; auto.
  - destruct Hin as [<-|Hin];
      [right; right; split; intros; discriminate|].
    apply in_app_or in Hin as [Hin|[<-|[]]];
      [|right; right; split; intros; discriminate].
    destruct Hfail as [[_ ->]|(f & _ & _ & ->)]; [destruct Hin|].
    destruct Hin as [<-|[]]. now right; left.
Qed.

(** C4 (as amended).  However a migration fails (a batch that raises, an
    [up] that throws, a script that does not load or exports no [up]), it
    ends with [Rollback], neither [Commit] nor the row of the ledger is
    sent and no transaction stays open; the database is as it was when
    the transaction began when the script left that transaction open, and
    is what [ROLLBACK] gives back otherwise.  In a run where the
    migrations before N succeed and N fails, the run ends with the failure
    of N: the rows of the migrations before N were sent, the row of N was
    not, and neither the script nor the row of a later migration; the
    database is as the migrations before N left it when N's script left
    its transaction open.  Every run that ends with the failure of a
    migration is such a run; with confined scripts its ledger is the one
    it found followed by the rows of the migrations before N, and it has
    no row of N's version. *)
Theorem failed_migration_is_rolled_back :
  (forall (m : MigrationFile.t) (w : World) (e : Error) (w' : World),
     snapshot w = None ->
     migrationUp (MigrationFile.name m) (MigrationFile.fullPath m) w
     = (Err e, w') ->
     exists t lg,
       failsAt m (db w) t /\
       w' = rolledBack w (leftByFailure m (db w)) t lg /\
       (keepsTransaction m (db w) -> db w' = db w)) /\
  (forall (name dirn content : string) (w : World),
     snapshot w = None ->
     lookupFile name (fs dirn) = Some content ->
     (Str.endsWith name ".sql" = true ->
      snd (sqlExec content (db w) (Some (db w))) = false ->
      exists d' lg,
        migrationUp name (pathJoin dirn name) w
        = (Err (QueryFailed name), rolledBack w d' [Script name] lg)) /\
     (forall migration f,
        Str.endsWith name ".sql" = false ->
        evalModule content = Some migration ->
        up migration = Some f ->
        snd (f (db w) (Some (db w))) = false ->
        exists d' lg,
          migrationUp name (pathJoin dirn name) w
          = (Err (ImportFailed name (UpThrew name)),
             rolledBack w d' [Script name] lg)) /\
     (forall migration,
        Str.endsWith name ".sql" = false ->
        evalModule content = Some migration ->
        up migration = None ->
        exists lg,
          migrationUp name (pathJoin dirn name) w
          = (Err (ImportFailed name (NoUpExport name)),
             rolledBack w (db w) [] lg))) /\
  (forall (schema folder : string) (d : Db D)
          (pend pre : list MigrationFile.t) (m : MigrationFile.t)
          (post : list MigrationFile.t) (t : list Command),
     let dir := migrationDirOf currentDir folder in
     connects = true ->
     readable (ledger d) = true ->
     computePending (selectApplied (ledger d)) dir (map fst (fs dir))
     = Ok pend ->
     (forall r, In r (ledger d) -> intact fs dir r) ->
     notExecuted (map AppliedMigration.name (selectApplied (ledger d))) pend
     = pre ++ m :: post ->
     allSucceed pre d ->
     failsAt m (committed pre d) t ->
     exists cause lg w',
       runMigrationForSchema schema folder (startWorld d)
       = (Err (MigrationError (MigrationFile.name m) cause), w') /\
       w' = failedWorldOf (afterSetup schema d) pre m t lg /\
       (keepsTransaction m (committed pre d) -> db w' = committed pre d) /\
       (forall n, In n pre -> In (Insert (ledgerRow fs n)) (sent w')) /\
       ~ In (Insert (ledgerRow fs m)) (sent w') /\
       (forall n, In n post ->
          ~ In (Script (MigrationFile.name n)) (sent w') /\
          ~ In (Insert (ledgerRow fs n)) (sent w'))) /\
  (forall (schema folder : string) (d : Db D) (name : string)
          (cause : Error) (w' : World),
     runMigrationForSchema schema folder (startWorld d)
     = (Err (MigrationError name cause), w') ->
     exists pre m post t lg,
       toBeApplied fs (migrationDirOf currentDir folder) (ledger d)
       = pre ++ m :: post /\
       MigrationFile.name m = name /\
       allSucceed pre d /\
       failsAt m (committed pre d) t /\
       w' = failedWorldOf (afterSetup schema d) pre m t lg /\
       ((forall n, In n (pre ++ [m]) -> confined n) ->
        ledger (db w') = ledger d ++ map (ledgerRow fs) pre /\
        data (db w') = data (committed pre d) /\
        ~ In (versionZ m) (appliedVersionsOf (ledger (db w'))))).
Proof.
  split; [|split; [|split]].
  - intros m w e w' Hsnap Hup.
    destruct (migrationUp_cases m w Hsnap)
      as [(f & lg & _ & _ & H)|(e' & t & lg & Hfail & H)];
      rewrite H in Hup; [discriminate|].
    injection Hup as _ <-. exists t, lg.
    split; [exact Hfail|]. split; [reflexivity|].
    intros Hk. simpl. now apply leftByFailure_keeps.
  - intros name dirn content w Hsnap Hfile.
    assert (Ht : fileText fs (pathJoin dirn name) = Some content)
      by exact Hfile.
    split; [|split].
    + intros Hsql Hf. do 2 eexists.
      now apply migrationUp_sql_error with (content := content).
    + intros migration f Hsql Hm Hup Hf. do 2 eexists.
      now apply migrationUp_up_throws
        with (content := content) (migration := migration) (f := f).
    + intros migration Hsql Hm Hup. eexists.
      now apply migrationUp_no_up
        with (content := content) (migration := migration).
  - intros schema folder d pend pre m post t dir Hc Hr Hp Hint Hsplit
      Hall Hfail.
    destruct (run_stops_at_failure schema folder d pend pre m post t
                Hc Hr Hp Hint Hsplit Hall Hfail) as (cause & lg & Hrun).
    exists cause, lg, (failedWorldOf (afterSetup schema d) pre m t lg).
    split; [exact Hrun|]. split; [reflexivity|].
    assert (Hm : In m (notExecuted
                         (map AppliedMigration.name (selectApplied (ledger d)))
                         pend))
      by (rewrite Hsplit; apply in_or_app; right; now left).
    assert (Hpre : forall n, In n pre ->
              In n (notExecuted
                      (map AppliedMigration.name (selectApplied (ledger d)))
                      pend))
      by (intros n Hn; rewrite Hsplit; apply in_or_app; now left).
    assert (Hpost : forall n, In n post ->
              In n (notExecuted
                      (map AppliedMigration.name (selectApplied (ledger d)))
                      pend))
      by (intros n Hn; rewrite Hsplit; apply in_or_app; right; now right).
    assert (Hbefore : forall a b, In a pre -> In b (m :: post) ->
              versionZ a <> versionZ b)
      by (eapply toBeApplied_versions_apart; [exact Hp | exact Hsplit]).
    assert (Hafter : forall a b, In a (pre ++ [m]) -> In b post ->
              versionZ a <> versionZ b).
    { eapply toBeApplied_versions_apart; [exact Hp|].
      rewrite <- app_assoc. exact Hsplit. }
    split; [|split; [|split]].
    + intros Hk. simpl. now apply leftByFailure_keeps.
    + intros n Hn. simpl. do 3 right. apply in_or_app. left.
      apply in_flat_map. exists n. split; [exact Hn|]. simpl. auto.
    + intros Hin.
      apply (in_failedWorld schema d pre m t lg _ Hfail) in Hin
        as [(n & Hn & [H|H])|[H|[_ H]]]; try discriminate.
      * apply (Hbefore n m Hn (or_introl eq_refl)).
        injection H as H _ _. exact (eq_sym H).
      * now apply (H (ledgerRow fs m)).
    + intros n Hn. split; intros Hin;
        apply (in_failedWorld schema d pre m t lg _ Hfail) in Hin
          as [(n' & Hn' & [H|H])|[H|[H1 H2]]]; try discriminate.
      * injection H as H.
        apply (Hafter n' n); [apply in_or_app; now left | exact Hn|].
        symmetry. eapply name_gives_version; eauto.
      * injection H as H.
        apply (Hafter m n); [apply in_or_app; right; now left | exact Hn|].
        symmetry. eapply name_gives_version; eauto.
      * now apply (H1 (MigrationFile.name n)).
      * apply (Hafter n' n); [apply in_or_app; now left | exact Hn|].
        injection H as H _ _. exact (eq_sym H).
      * now apply (H2 (ledgerRow fs n)).
  - intros schema folder d name cause w' Hrun.
    destruct (run_cases schema folder d)
      as [[_ H]|[(_ & _ & H)|[(_ & _ & e & f & _ & H)
         |[(_ & _ & pend & e & _ & He & H)
          |(_ & _ & pend & Hp & Hint & done & rest & Hsplit & Hall
              & [(_ & lg & H)
                |[(m & rest' & cause' & t & lg & -> & Hf & H)
                 |(m & rest' & lg & _ & _ & H)]])]]]];
      rewrite H in Hrun; try discriminate.
    + injection Hrun as -> _. destruct He.
    + injection Hrun as Hn Hcause <-. subst cause'.
      exists done, m, rest', t, lg.
      rewrite (toBeApplied_eq _ _ _ Hp).
      split; [exact Hsplit|]. split; [exact Hn|]. split; [exact Hall|].
      split; [exact Hf|]. split; [reflexivity|].
      intros Hconf. simpl.
      rewrite leftByFailure_keeps
        by (apply Hconf, in_or_app; right; now left).
      rewrite committed_confined;
        [|intros n Hn'; apply Hconf, in_or_app; now left | exact Hall].
      split; [reflexivity|]. split; [reflexivity|].
      unfold appliedVersionsOf. rewrite map_app.
      fold (appliedVersionsOf (ledger d)).
      fold (appliedVersionsOf (map (ledgerRow fs) done)).
      rewrite ledgerRows_versions. intros Hin.
      destruct (pending_wellformed _ _ _ Hp) as (Hwf & _).
      assert (Hm : In m pend).
      { assert (Hm : In m (done ++ m :: rest'))
          by (apply in_or_app; right; now left).
        rewrite <- Hsplit in Hm. now apply filter_In in Hm. }
      apply in_app_or in Hin as [Hin|Hin].
      * destruct (Hwf m Hm) as (_ & _ & Hna). apply Hna.
        now apply selectApplied_versions.
      * apply in_map_iff in Hin as (n & Hv & Hn').
        apply (toBeApplied_versions_apart _ _ _ _ _ _ Hp Hsplit n m Hn'
                 (or_introl eq_refl) Hv).
Qed.

(* ----------------------------------------------------------------- *)
(** *** The order of a run *)

Lemma increasing_map_filter (A : Type) (f : A -> Z) (p : A -> bool)
  (l : list A) :
  StronglySorted Z.lt (map f l) ->
  StronglySorted Z.lt (map f (filter p l)).
Proof.
  induction l as [|a l IH]; simpl; intros H; [constructor|].
  inversion H as [|? ? Hs Hall]; subst.
  destruct (p a); simpl; [|now apply IH].
  constructor; [now apply IH|].
  rewrite Forall_forall in *. intros z Hz. apply Hall.
  apply in_map_iff in Hz as (x & <- & Hx). apply filter_In in Hx as [Hx _].
  now apply in_map.
Qed.

Lemma toBeApplied_increasing (dir : string) (l : list AppliedMigration.t) :
  StronglySorted Z.lt (map versionZ (toBeApplied fs dir l)).
Proof.
  unfold toBeApplied.
  destruct (computePending _ _ _) as [pend|e] eqn:Hp; [|constructor].
  apply increasing_map_filter. now apply pending_wellformed in Hp.
Qed.

Lemma toBeApplied_readable (dir : string) (l : list AppliedMigration.t)
  (m : MigrationFile.t) :
  In m (toBeApplied fs dir l) ->
  exists content,
    fileText fs (MigrationFile.fullPath m) = Some content /\
    ledgerRow fs m
    = AppliedMigration.make (versionZ m) (MigrationFile.name m)
        (MD5.md5hex content).
Proof.
  unfold toBeApplied.
  destruct (computePending _ _ _) as [pend|e] eqn:Hp; [|intros []].
  intros Hm. apply filter_In in Hm as [Hm _].
  apply pending_wellformed in Hp as (Hwf & _).
  destruct (Hwf m Hm) as (_ & Ht & _). unfold ledgerRow.
  destruct (fileText fs (MigrationFile.fullPath m)) as [c|];
    [|contradiction].
  now exists c.
Qed.

Lemma failsAt_no_insert (m : MigrationFile.t) (d : Db D) (t : list Command) :
  failsAt m d t -> existsb isInsert (Begin :: t ++ [Rollback]) = false.
Proof. intros [[_ ->]|(f & _ & _ & ->)]; reflexivity. Qed.

(** A run in which every migration to be applied succeeds completes. *)
Lemma run_completes (schema folder : string) (d : Db D)
  (pend : list MigrationFile.t) :
  let dir := migrationDirOf currentDir folder in
  let applied := selectApplied (ledger d) in
  let todo := notExecuted (map AppliedMigration.name applied) pend in
  connects = true ->
  readable (ledger d) = true ->
  computePending applied dir (map fst (fs dir)) = Ok pend ->
  (forall r, In r (ledger d) -> intact fs dir r) ->
  allSucceed todo d ->
  exists lg,
    runMigrationForSchema schema folder (startWorld d)
    = (Ok tt,
       appliedWorld (afterSetup schema d) todo [Commit; ResetSearchPath] lg).
Proof.
  intros dir applied todo Hc Hr Hp Hint Hall.
  rewrite (run_from_runner schema folder d pend) by assumption.
  fold dir applied todo.
  destruct (umzugApply_succeed applied dir todo [] (afterSetup schema d)
              eq_refl) as [lg Hgo];
    [apply (notExecuted_wellformed applied dir _ pend Hp) | exact Hall |].
  rewrite app_nil_r in Hgo. rewrite Hgo. simpl.
  exists (lg ++ [InfoSchemaDone schema]). f_equal.
  unfold appliedWorld. simpl. rewrite ?app_nil_r, <- ?app_assoc.
  reflexivity.
Qed.

(** Every run applies a prefix of the files to be applied, which are in
    strictly increasing version order; each applied file contributes
    [Begin], its script, [Commit] and only then the [Insert] of a row
    whose fingerprint is the digest of the text the file has now. *)
Lemma run_order (schema folder : string) (d : Db D)
  (res : Result unit) (w' : World) :
  runMigrationForSchema schema folder (startWorld d) = (res, w') ->
  exists done rest tail lg,
    toBeApplied fs (migrationDirOf currentDir folder) (ledger d)
    = done ++ rest /\
    (w' = appliedWorld (afterSetup schema d) done tail lg \/
     (exists m rest' t,
        rest = m :: rest' /\ tail = Begin :: t ++ [Rollback] /\
        w' = failedWorldOf (afterSetup schema d) done m t lg) \/
     (connects = false /\ done = [] /\ w' = startWorld d)) /\
    existsb isInsert tail = false /\
    StronglySorted Z.lt (map versionZ (done ++ rest)) /\
    (forall m, In m done ->
       exists content,
         fileText fs (MigrationFile.fullPath m) = Some content /\
         ledgerRow fs m
         = AppliedMigration.make (versionZ m) (MigrationFile.name m)
             (MD5.md5hex content)) /\
    (res = Ok tt -> rest = [] /\ tail = [Commit; ResetSearchPath]).
Proof.
  intros Hrun.
  set (dir := migrationDirOf currentDir folder).
  assert (Hshape : forall done rest tail lg,
            toBeApplied fs dir (ledger d) = done ++ rest ->
            (w' = appliedWorld (afterSetup schema d) done tail lg \/
             (exists m rest' t,
                rest = m :: rest' /\ tail = Begin :: t ++ [Rollback] /\
                w' = failedWorldOf (afterSetup schema d) done m t lg) \/
             (connects = false /\ done = [] /\ w' = startWorld d)) ->
            existsb isInsert tail = false ->
            (res = Ok tt -> rest = [] /\ tail = [Commit; ResetSearchPath]) ->
            exists done rest tail lg,
              toBeApplied fs dir (ledger d) = done ++ rest /\
              (w' = appliedWorld (afterSetup schema d) done tail lg \/
               (exists m rest' t,
                  rest = m :: rest' /\ tail = Begin :: t ++ [Rollback] /\
                  w' = failedWorldOf (afterSetup schema d) done m t lg) \/
               (connects = false /\ done = [] /\ w' = startWorld d)) /\
              existsb isInsert tail = false /\
              StronglySorted Z.lt (map versionZ (done ++ rest)) /\
              (forall m, In m done ->
                 exists content,
                   fileText fs (MigrationFile.fullPath m) = Some content /\
                   ledgerRow fs m
                   = AppliedMigration.make (versionZ m)
                       (MigrationFile.name m) (MD5.md5hex content)) /\
              (res = Ok tt ->
               rest = [] /\ tail = [Commit; ResetSearchPath])).
  { intros done rest tail lg Hsplit Hw Htail Hok.
    exists done, rest, tail, lg.
    split; [exact Hsplit|]. split; [exact Hw|]. split; [exact Htail|].
    split; [rewrite <- Hsplit; apply toBeApplied_increasing|].
    split; [|exact Hok].
    intros m Hm. apply (toBeApplied_readable dir (ledger d)).
    rewrite Hsplit. apply in_or_app. now left. }
  destruct (run_cases schema folder d)
    as [[Hc H]|[(_ & _ & H)|[(_ & _ & e & f & _ & H)
       |[(_ & _ & pend & e & _ & _ & H)
        |(_ & _ & pend & Hp & Hint & done & rest & Hsplit & Hall
            & [(-> & lg & H)
              |[(m & rest' & cause & t & lg & -> & Hf & H)
               |(m & rest' & lg & -> & _ & H)]])]]]];
    rewrite H in Hrun; injection Hrun as <- <-.
  - apply (Hshape [] (toBeApplied fs dir (ledger d)) [] []);
      [reflexivity | right; right; auto | reflexivity | discriminate].
  - apply (Hshape [] (toBeApplied fs dir (ledger d)) [] []);
      [reflexivity | left; now rewrite appliedWorld_nil | reflexivity
      | discriminate].
  - apply (Hshape [] (toBeApplied fs dir (ledger d)) [] []);
      [reflexivity | left; now rewrite appliedWorld_nil | reflexivity
      | discriminate].
  - apply (Hshape [] (toBeApplied fs dir (ledger d)) [] []);
      [reflexivity | left; now rewrite appliedWorld_nil | reflexivity
      | discriminate].
  - apply (Hshape done [] [Commit; ResetSearchPath] lg);
      [unfold dir; now rewrite (toBeApplied_eq _ _ _ Hp) | now left | reflexivity
      | auto].
  - apply (Hshape done (m :: rest') (Begin :: t ++ [Rollback]) lg);
      [unfold dir; now rewrite (toBeApplied_eq _ _ _ Hp)
      | right; left; now exists m, rest', t
      | eapply failsAt_no_insert; exact Hf | discriminate].
  - apply (Hshape (done ++ [m]) rest' [] lg);
      [unfold dir; rewrite (toBeApplied_eq _ _ _ Hp), <- app_assoc; exact Hsplit
      | now left | reflexivity | discriminate].
Qed.

(** The scenario of two [.sql] files on an empty ledger. *)
Lemma two_files_on_empty_ledger (schema folder : string)
  (c1 c2 : string) (s0 s1 s2 : D) (t1 t2 : option (Db D)) :
  let dir := migrationDirOf currentDir folder in
  let row1 := AppliedMigration.make 1 "1-init.sql" (MD5.md5hex c1) in
  let row2 := AppliedMigration.make 2 "2-add-index.sql" (MD5.md5hex c2) in
  let d0 := {| ledger := []; data := s0 |} in
  let d1 := {| ledger := [row1]; data := s1 |} in
  connects = true ->
  Permutation (fs dir) [("1-init.sql", c1); ("2-add-index.sql", c2)]%string ->
  sqlExec c1 d0 (Some d0) = ({| ledger := []; data := s1 |}, t1, true) ->
  sqlExec c2 d1 (Some d1) = ({| ledger := [row1]; data := s2 |}, t2, true) ->
  exists lg,
    runMigrationForSchema schema folder (startWorld d0)
    = (Ok tt,
       {| db := {| ledger := [row1; row2]; data := s2 |};
          snapshot := None;
          sent := [CreateSchema schema; CreateTable; SelectApplied;
                   Begin; Script "1-init.sql"; Commit; Insert row1;
                   Begin; Script "2-add-index.sql"; Commit; Insert row2;
                   Commit; ResetSearchPath];
          logged := lg |}).
Proof.
  intros dir row1 row2 d0 d1 Hc Hperm Hsql1 Hsql2.
  set (m1 := MigrationFile.make "1-init.sql" 1 (pathJoin dir "1-init.sql")).
  set (m2 := MigrationFile.make "2-add-index.sql" 2
               (pathJoin dir "2-add-index.sql")).
  assert (Hfacts :
            computePending [] dir (map fst (fs dir)) = Ok [m1; m2] /\
            lookupFile "1-init.sql" (fs dir) = Some c1 /\
            lookupFile "2-add-index.sql" (fs dir) = Some c2).
  { apply Permutation_sym, Permutation_length_2_inv in Hperm as [H|H];
      rewrite H; repeat split; reflexivity. }
  destruct Hfacts as (Hp & Hf1 & Hf2).
  assert (Hs1 : scriptOf m1 = Some (sqlExec c1)).
  { unfold scriptOf, fileText; simpl. fold dir. now rewrite Hf1. }
  assert (Hs2 : scriptOf m2 = Some (sqlExec c2)).
  { unfold scriptOf, fileText; simpl. fold dir. now rewrite Hf2. }
  assert (Hr1 : ledgerRow fs m1 = row1).
  { unfold ledgerRow, fileText; simpl. fold dir. now rewrite Hf1. }
  assert (Hr2 : ledgerRow fs m2 = row2).
  { unfold ledgerRow, fileText; simpl. fold dir. now rewrite Hf2. }
  assert (Ha1 : applied m1 d0 = d1).
  { unfold applied. now rewrite Hs1, Hsql1, Hr1. }
  assert (Ha2 : applied m2 d1 = {| ledger := [row1; row2]; data := s2 |}).
  { unfold applied. now rewrite Hs2, Hsql2, Hr2. }
  destruct (run_completes schema folder d0 [m1; m2] Hc eq_refl Hp)
    as [lg Hrun]; [intros r []| |].
  - change (succeedsAt m1 d0 /\ succeedsAt m2 (applied m1 d0) /\ True).
    rewrite Ha1. split; [|split; [|exact I]].
    + exists (sqlExec c1). rewrite Hsql1. auto.
    + exists (sqlExec c2). rewrite Hsql2. auto.
  - exists lg. rewrite Hrun.
    change (notExecuted
              (map AppliedMigration.name (selectApplied (ledger d0)))
              [m1; m2]) with [m1; m2].
    unfold appliedWorld, afterSetup, transaction, committed.
    cbn [db sent logged snapshot flat_map app fold_left].
    rewrite Ha1, Ha2, Hr1, Hr2. reflexivity.
Qed.

(** C5.  In every run the files to be applied are in strictly increasing
    version order and a prefix of them is applied, one after the other,
    whatever their scripts do; each applied file contributes [Begin], its
    script, [Commit] and only then the [Insert] of a row whose
    fingerprint is the digest of the text the file has now; what follows
    the applied files inserts nothing.  The database after the run is the
    one the applied files leave, one after the other, or what [ROLLBACK]
    gives back when the next file fails.  With an empty ledger and the
    files [1-init.sql] and [2-add-index.sql] (listed in any order) whose
    batches succeed and leave the ledger as it is, the run applies version
    1 and then version 2, and the ledger ends with the rows of versions 1
    and 2 and the fingerprints of the two texts. *)
Theorem migrations_apply_in_order_commit_then_log :
  (forall (schema folder : string) (d : Db D)
          (res : Result unit) (w' : World),
     runMigrationForSchema schema folder (startWorld d) = (res, w') ->
     exists done rest tail lg,
       toBeApplied fs (migrationDirOf currentDir folder) (ledger d)
       = done ++ rest /\
       (w' = appliedWorld (afterSetup schema d) done tail lg \/
        (exists m rest' t,
           rest = m :: rest' /\ tail = Begin :: t ++ [Rollback] /\
           w' = failedWorldOf (afterSetup schema d) done m t lg) \/
        (connects = false /\ done = [] /\ w' = startWorld d)) /\
       existsb isInsert tail = false /\
       StronglySorted Z.lt (map versionZ (done ++ rest)) /\
       (forall m, In m done ->
          exists content,
            fileText fs (MigrationFile.fullPath m) = Some content /\
            ledgerRow fs m
            = AppliedMigration.make (versionZ m) (MigrationFile.name m)
                (MD5.md5hex content)) /\
       (res = Ok tt -> rest = [] /\ tail = [Commit; ResetSearchPath])) /\
  (forall (m : MigrationFile.t) (d : Db D),
     keepsTransaction m d -> leftByFailure m d = d) /\
  (forall (ms : list MigrationFile.t) (d : Db D),
     (forall m, In m ms -> confined m) ->
     allSucceed ms d ->
     ledger (committed ms d) = ledger d ++ map (ledgerRow fs) ms) /\
  (forall (schema folder : string) (c1 c2 : string) (s0 s1 s2 : D)
          (t1 t2 : option (Db D)),
     let dir := migrationDirOf currentDir folder in
     let row1 := AppliedMigration.make 1 "1-init.sql" (MD5.md5hex c1) in
     let row2 :=
       AppliedMigration.make 2 "2-add-index.sql" (MD5.md5hex c2) in
     let d0 := {| ledger := []; data := s0 |} in
     let d1 := {| ledger := [row1]; data := s1 |} in
     connects = true ->
     Permutation (fs dir)
       [("1-init.sql", c1); ("2-add-index.sql", c2)]%string ->
     sqlExec c1 d0 (Some d0) = ({| ledger := []; data := s1 |}, t1, true) ->
     sqlExec c2 d1 (Some d1)
     = ({| ledger := [row1]; data := s2 |}, t2, true) ->
     exists lg,
       runMigrationForSchema schema folder (startWorld d0)
       = (Ok tt,
          {| db := {| ledger := [row1; row2]; data := s2 |};
             snapshot := None;
             sent := [CreateSchema schema; CreateTable; SelectApplied;
                      Begin; Script "1-init.sql"; Commit; Insert row1;
                      Begin; Script "2-add-index.sql"; Commit; Insert row2;
                      Commit; ResetSearchPath];
             logged := lg |})).
Proof.
  split; [|split; [|split]].
  - apply run_order.
  - apply leftByFailure_keeps.
  - intros ms d. apply committed_confined.
  - apply two_files_on_empty_ledger.
Qed.

(* ----------------------------------------------------------------- *)
(** *** A second run *)

Lemma filter_all (A : Type) (p : A -> bool) (l : list A) :
  (forall x, In x l -> p x = true) -> filter p l = l.
Proof.
  induction l as [|a l IH]; simpl; intros H; [reflexivity|].
  rewrite (H a (or_introl eq_refl)). f_equal. apply IH. auto.
Qed.

Lemma filter_none (A : Type) (p : A -> bool) (l : list A) :
  (forall x, In x l -> p x = false) -> filter p l = [].
Proof.
  induction l as [|a l IH]; simpl; intros H; [reflexivity|].
  rewrite (H a (or_introl eq_refl)). apply IH. auto.
Qed.

Lemma pending_path (applied : list AppliedMigration.t) (dir : string)
  (pend : list MigrationFile.t) (m : MigrationFile.t) :
  computePending applied dir (map fst (fs dir)) = Ok pend ->
  In m pend ->
  MigrationFile.fullPath m = pathJoin dir (MigrationFile.name m).
Proof.
  intros H Hm. apply computePending_ok in H as [-> _].
  apply pendingOf_In in Hm as [Hm _].
  now apply allMigrationsOf_In in Hm.
Qed.

(** On a ledger whose rows record the version of their name, the step
    runner takes up every pending file. *)
Lemma notExecuted_all (l : list AppliedMigration.t) (dir : string)
  (pend : list MigrationFile.t) :
  namedByVersion l ->
  computePending (selectApplied l) dir (map fst (fs dir)) = Ok pend ->
  notExecuted (map AppliedMigration.name (selectApplied l)) pend = pend.
Proof.
  intros Hnamed Hp. apply filter_all. intros m Hm.
  apply negb_true_iff, not_true_iff_false. intros Hex.
  apply existsb_exists in Hex as (n & Hn & Heq).
  apply String.eqb_eq in Heq. subst n.
  apply in_map_iff in Hn as (r & Hname & Hr).
  destruct (pending_wellformed _ _ _ Hp) as (Hwf & _).
  destruct (Hwf m Hm) as (Hv & _ & Hna). apply Hna.
  destruct (Hnamed r (proj1 (selectApplied_In l r) Hr)) as (v & Hrv & Hrz).
  rewrite Hname, Hv in Hrv. injection Hrv as <-.
  unfold versionZ. rewrite <- Hrz. unfold appliedVersionsOf.
  now apply in_map.
Qed.

Lemma ledgerRow_intact (applied : list AppliedMigration.t) (dir : string)
  (pend : list MigrationFile.t) (m : MigrationFile.t) :
  computePending applied dir (map fst (fs dir)) = Ok pend ->
  In m pend ->
  intact fs dir (ledgerRow fs m).
Proof.
  intros Hp Hm. pose proof (pending_path _ _ _ _ Hp Hm) as Hpath.
  destruct (pending_wellformed _ _ _ Hp) as (Hwf & _).
  destruct (Hwf m Hm) as (_ & Ht & _).
  unfold intact, ledgerRow. simpl. unfold fileText in *.
  rewrite Hpath in *. simpl in *.
  now destruct (lookupFile (MigrationFile.name m) (fs dir)).
Qed.

(** Once every pending file has its row, nothing is pending. *)
Lemma nothing_pending_after (l : list AppliedMigration.t) (dir : string)
  (pend : list MigrationFile.t) :
  computePending (selectApplied l) dir (map fst (fs dir)) = Ok pend ->
  computePending (selectApplied (l ++ map (ledgerRow fs) pend)) dir
    (map fst (fs dir)) = Ok [].
Proof.
  intros Hp. pose proof (computePending_ok _ _ _ _ Hp) as [Hpend _].
  unfold computePending.
  replace (pendingOf _ _) with (@nil MigrationFile.t); [reflexivity|].
  symmetry. apply filter_none. intros m Hm.
  apply negb_false_iff, includes_iff, selectApplied_versions.
  unfold appliedVersionsOf. rewrite map_app.
  fold (appliedVersionsOf l).
  fold (appliedVersionsOf (map (ledgerRow fs) pend)).
  rewrite ledgerRows_versions. apply in_or_app.
  destruct (includes (appliedVersionsOf (selectApplied l)) (versionZ m))
    eqn:Hinc.
  - left. now apply selectApplied_versions, includes_iff.
  - right. apply (in_map versionZ). rewrite Hpend.
    apply filter_In. split; [exact Hm|].
    unfold versionZ in Hinc. now rewrite Hinc.
Qed.

(** Once the ledger holds the rows it held and the rows of the pending
    files, whatever else it holds, nothing is pending. *)
Lemma nothing_pending_when_kept (l l' : list AppliedMigration.t)
  (dir : string) (pend : list MigrationFile.t) :
  computePending (selectApplied l) dir (map fst (fs dir)) = Ok pend ->
  (forall r, In r (l ++ map (ledgerRow fs) pend) -> In r l') ->
  computePending (selectApplied l') dir (map fst (fs dir)) = Ok [].
Proof.
  intros Hp Hkept. pose proof (computePending_ok _ _ _ _ Hp) as [Hpend _].
  unfold computePending.
  replace (pendingOf _ _) with (@nil MigrationFile.t); [reflexivity|].
  symmetry. apply filter_none. intros m Hm.
  apply negb_false_iff, includes_iff, selectApplied_versions.
  destruct (includes (appliedVersionsOf (selectApplied l)) (versionZ m))
    eqn:Hinc.
  - apply includes_iff in Hinc.
    apply (proj1 (selectApplied_versions l (versionZ m))) in Hinc.
    unfold appliedVersionsOf in Hinc.
    apply in_map_iff in Hinc as (r & Hv & Hr).
    fold (versionZ m). rewrite <- Hv.
    unfold appliedVersionsOf. apply in_map, Hkept, in_or_app. now left.
  - change (Z.of_N (MigrationFile.version m))
      with (AppliedMigration.version (ledgerRow fs m)).
    unfold appliedVersionsOf. apply in_map, Hkept, in_or_app. right.
    apply in_map. rewrite Hpend. apply filter_In. split; [exact Hm|].
    unfold versionZ in Hinc. now rewrite Hinc.
Qed.

(** A run that completed applied every file that was to be applied. *)
Lemma completed_run (schema folder : string) (d : Db D) (w1 : World) :
  let dir := migrationDirOf currentDir folder in
  runMigrationForSchema schema folder (startWorld d) = (Ok tt, w1) ->
  connects = true /\ readable (ledger d) = true /\
  (forall r, In r (ledger d) -> intact fs dir r) /\
  exists pend lg,
    computePending (selectApplied (ledger d)) dir (map fst (fs dir))
    = Ok pend /\
    allSucceed (toBeApplied fs dir (ledger d)) d /\
    w1 = appliedWorld (afterSetup schema d) (toBeApplied fs dir (ledger d))
           [Commit; ResetSearchPath] lg.
Proof.
  intros dir Hrun.
  destruct (run_cases schema folder d)
    as [[_ H]|[(_ & _ & H)|[(_ & _ & e & f & _ & H)
       |[(_ & _ & pend & e & _ & _ & H)
        |(Hc & Hr & pend & Hp & Hint & done & rest & Hsplit & Hall
            & [(-> & lg & H)
              |[(m & rest' & cause & t & lg & _ & _ & H)
               |(m & rest' & lg & _ & _ & H)]])]]]];
    rewrite H in Hrun; try discriminate.
  injection Hrun as <-. rewrite app_nil_r in Hsplit.
  split; [exact Hc|]. split; [exact Hr|]. split; [exact Hint|].
  exists pend, lg. unfold dir. rewrite (toBeApplied_eq _ _ _ Hp), Hsplit.
  auto.
Qed.

(** Once the ledger holds the rows it held and the rows of the files that
    were to be applied, no file is left to apply. *)
Lemma nothing_left_to_apply (dir : string)
  (l l' : list AppliedMigration.t) (pend : list MigrationFile.t) :
  computePending (selectApplied l) dir (map fst (fs dir)) = Ok pend ->
  (forall r, In r (l ++ map (ledgerRow fs) (toBeApplied fs dir l)) ->
             In r l') ->
  toBeApplied fs dir l' = [].
Proof.
  intros Hp Hkept. unfold toBeApplied at 1.
  destruct (computePending (selectApplied l') dir (map fst (fs dir)))
    as [pend'|e] eqn:Hp'; [|reflexivity].
  apply filter_none. intros m Hm. apply negb_false_iff.
  pose proof (computePending_ok _ _ _ _ Hp') as [Hpend' _].
  rewrite Hpend' in Hm. apply pendingOf_In in Hm as [Hall Hnew].
  rewrite selectApplied_versions in Hnew.
  assert (Hrow : forall r, In r l ->
            AppliedMigration.version r <> versionZ m).
  { intros r Hr Hv. apply Hnew. rewrite <- Hv. unfold appliedVersionsOf.
    apply in_map, Hkept, in_or_app. now left. }
  destruct (existsb (String.eqb (MigrationFile.name m))
              (map AppliedMigration.name (selectApplied l))) eqn:Hname.
  - apply existsb_exists in Hname as (n & Hn & Heq).
    apply existsb_exists. exists n. split; [|exact Heq].
    apply in_map_iff in Hn as (r & <- & Hr). apply in_map.
    apply (proj2 (selectApplied_In l' r)).
    apply (proj1 (selectApplied_In l r)) in Hr.
    apply Hkept, in_or_app. now left.
  - exfalso. apply Hnew.
    assert (Htodo : In m (toBeApplied fs dir l)).
    { rewrite (toBeApplied_eq _ _ _ Hp). apply filter_In.
      split; [|now rewrite Hname].
      pose proof (computePending_ok _ _ _ _ Hp) as [-> _].
      apply pendingOf_In. split; [exact Hall|].
      rewrite selectApplied_versions. intros Hin.
      apply in_map_iff in Hin as (r & Hv & Hr). now apply (Hrow r). }
    change (versionZ m)
      with (AppliedMigration.version (ledgerRow fs m)).
    unfold appliedVersionsOf. apply in_map, Hkept, in_or_app. right.
    now apply in_map.
Qed.

(** C6 (as amended).  After a run that completed without error and left
    in the ledger every row it found and the row of every file that was
    to be applied, a second run over the same directory has no file to
    apply: whatever its outcome, it sends nothing but the provisioning
    commands, the ledger read and at most the closing [Commit] and reset,
    and leaves the database, the ledger with it, exactly as the first run
    left it.  When moreover the rows the first run found record the
    version of their name, the pending set of the second run is empty.
    Confined scripts leave such a ledger: the one found followed by the
    rows of the files applied.  On that ledger, with rows that record the
    version of their name, the second run completes if the ledger can be
    read and fails at the read otherwise.  The orchestrator sends what
    the run of the main schema sends and leaves the database as that run
    leaves it. *)
Theorem second_run_applies_nothing (schema folder : string) (d : Db D)
  (w1 : World) :
  let dir := migrationDirOf currentDir folder in
  let todo := toBeApplied fs dir (ledger d) in
  runMigrationForSchema schema folder (startWorld d) = (Ok tt, w1) ->
  ((forall r, In r (ledger d ++ map (ledgerRow fs) todo) ->
              In r (ledger (db w1))) ->
   toBeApplied fs dir (ledger (db w1)) = [] /\
   (forall res w2,
      runMigrationForSchema schema folder (startWorld (db w1)) = (res, w2) ->
      db w2 = db w1 /\ snapshot w2 = None /\
      (sent w2 = [CreateSchema schema; CreateTable; SelectApplied] \/
       sent w2 = [CreateSchema schema; CreateTable; SelectApplied;
                  Commit; ResetSearchPath])) /\
   (namedByVersion (ledger d) ->
    computePending (selectApplied (ledger (db w1))) dir (map fst (fs dir))
    = Ok [])) /\
  ((forall m, In m todo -> confined m) ->
   ledger (db w1) = ledger d ++ map (ledgerRow fs) todo) /\
  (ledger (db w1) = ledger d ++ map (ledgerRow fs) todo ->
   namedByVersion (ledger d) ->
   (readable (ledger (db w1)) = true ->
    exists lg,
      runMigrationForSchema schema folder (startWorld (db w1))
      = (Ok tt,
         {| db := db w1; snapshot := None;
            sent := [CreateSchema schema; CreateTable; SelectApplied;
                     Commit; ResetSearchPath];
            logged := lg |})) /\
   (readable (ledger (db w1)) = false ->
    runMigrationForSchema schema folder (startWorld (db w1))
    = (Err IntegerOutOfRange, afterSetup schema (db w1)))) /\
  (forall w : World,
     db (snd (handleMigration w))
     = db (snd (runMigrationForSchema mainSchema mainSchema w)) /\
     sent (snd (handleMigration w))
     = sent (snd (runMigrationForSchema mainSchema mainSchema w))).
Proof.
  intros dir todo Hrun.
  destruct (completed_run schema folder d w1 Hrun)
    as (Hc & Hr & Hint & pend & lg & Hp & Hall & Hw1).
  fold dir in Hint, Hp, Hall, Hw1. fold todo in Hall, Hw1.
  split; [|split; [|split]].
  - intros Hkept.
    assert (Hnone : toBeApplied fs dir (ledger (db w1)) = [])
      by (eapply nothing_left_to_apply; [exact Hp | exact Hkept]).
    split; [exact Hnone|]. split.
    2:{ intros Hnamed.
        apply nothing_pending_when_kept with (l := ledger d) (pend := pend);
          [exact Hp|].
        replace pend with todo; [exact Hkept|].
        unfold todo. rewrite (toBeApplied_eq _ _ _ Hp).
        now apply notExecuted_all with (dir := dir). }
    intros res w2 Hrun2.
    destruct (run_cases schema folder (db w1))
      as [[Hc' _]|[(_ & _ & H)|[(_ & _ & e & f & _ & H)
         |[(_ & _ & pend' & e & _ & _ & H)
          |(_ & _ & pend' & Hp' & _ & done & rest & Hsplit & _ & Hres)]]]].
    + rewrite Hc in Hc'. discriminate.
    + rewrite H in Hrun2. injection Hrun2 as <- <-. simpl. auto.
    + rewrite H in Hrun2. injection Hrun2 as <- <-. simpl. auto.
    + rewrite H in Hrun2. injection Hrun2 as <- <-. simpl. auto.
    + fold dir in Hp', Hsplit.
      rewrite <- (toBeApplied_eq _ _ _ Hp'), Hnone in Hsplit.
      symmetry in Hsplit. apply app_eq_nil in Hsplit as [-> ->].
      destruct Hres as [(_ & lg' & H)
                       |[(m & rest' & cause & t & lg' & Hrest & _)
                        |(m & rest' & lg' & Hrest & _)]];
        try discriminate.
      rewrite H in Hrun2. injection Hrun2 as <- <-. simpl. auto.
  - intros Hconf. rewrite Hw1. simpl. now apply committed_confined.
  - intros Hledger Hnamed.
    assert (Htodo : todo = pend).
    { unfold todo. rewrite (toBeApplied_eq _ _ _ Hp).
      now apply notExecuted_all with (dir := dir). }
    rewrite Htodo in Hledger.
    assert (Hp2 : computePending (selectApplied (ledger (db w1))) dir
                    (map fst (fs dir)) = Ok []).
    { rewrite Hledger. now apply nothing_pending_after. }
    split.
    + intros Hr2.
      destruct (run_completes schema folder (db w1) [] Hc Hr2 Hp2)
        as [lg2 Hrun2].
      * intros r Hin. rewrite Hledger in Hin.
        apply in_app_or in Hin as [Hin|Hin]; [now apply Hint|].
        apply in_map_iff in Hin as (m & <- & Hm).
        now apply ledgerRow_intact
          with (applied := selectApplied (ledger d)) (pend := pend).
      * exact I.
      * exists lg2. rewrite Hrun2. reflexivity.
    + intros Hr2. now apply run_unreadable.
  - intros w. rewrite handleMigration_eq.
    destruct (runMigrationForSchema mainSchema mainSchema w) as [[[]|e] w'];
      [destruct connects; [destruct shutsDown|]|]; split; reflexivity.
Qed.

End ManagerFacts.

(* ================================================================= *)
(** ** The statements on the concrete instance *)

Section OnTheInstance.
Import Example.
Open Scope string_scope.

#[local] Opaque MD5.md5hex.

(** [notes.sql] has no version: logging and unlogging it change nothing. *)
Lemma unversioned_name_leaves_ledger_witness :
  extractVersion "notes.sql" = None /\
  logMigration (onlyDir []) "notes.sql" notesPath (startWorld (appliedInit "A"))
  = (Ok tt, startWorld (appliedInit "A")) /\
  unlogMigration (NameString "notes.sql") (startWorld (appliedInit "A"))
  = (Ok tt, startWorld (appliedInit "A")) /\
  unlogMigration (NameObject "notes.sql") (startWorld (appliedInit "A"))
  = (Ok tt, startWorld (appliedInit "A")).
Proof.
  split; [reflexivity|].
  apply (unversioned_name_leaves_ledger Schema (onlyDir []) "notes.sql"
           notesPath (startWorld (appliedInit "A"))).
  reflexivity.
Defined.

(** Without a database client the driver logs the failure and returns. *)
Lemma handleMigration_swallows_failures_witness :
  handleMigration sqlExec evalModule false true "main" "/app" failingDir
    (startWorld emptyDb)
  = (Ok tt,
     {| db := emptyDb; snapshot := None; sent := [];
        logged := [ErrorProcessFailed ClientUnavailable] |}).
Proof.
  apply (proj2 (proj2 (handleMigration_swallows_failures Schema sqlExec
                         evalModule false true "main" "/app" failingDir
                         (startWorld emptyDb)))
           ClientUnavailable (startWorld emptyDb)).
  reflexivity.
Defined.

(** [0012-users.sql] is discovered with version 12; [notes.txt] is not. *)
Lemma discovered_iff_extension_and_version_prefix_witness :
  In (MigrationFile.make "0012-users.sql" 12 (pathJoin dir "0012-users.sql"))
     (allMigrationsOf dir ["notes.txt"; "0012-users.sql"]).
Proof.
  apply (proj1 (discovered_iff_extension_and_version_prefix dir
                  ["notes.txt"; "0012-users.sql"] "0012-users.sql" 12
                  (pathJoin dir "0012-users.sql"))).
  split; [simpl; auto|]. split; [exists "0012-users"; auto|].
  split; [|reflexivity].
  exists "0012", "users.sql".
  split; [discriminate|]. split; [|split; reflexivity].
  intros c Hc. simpl in Hc.
  destruct Hc as [<-|[<-|[<-|[<-|[]]]]]; reflexivity.
Defined.

(** Versions 1 and 2 applied, files of versions 2 and 4: 3 is expected. *)
Lemma pending_is_contiguous_or_rejected_witness :
  computePending
    (selectApplied [AppliedMigration.make 1 "1-init.sql" "abc123";
                    AppliedMigration.make 2 "2-add-index.sql" "def456"])
    dir ["2-edit.sql"; "4-late.sql"]
  = Err (VersionMismatch 3 "4-late.sql").
Proof.
  apply (proj2 (proj2 (pending_is_contiguous_or_rejected Schema (onlyDir [])
                         [] dir (startWorld emptyDb)))).
Defined.

(** Two files of version 2 after version 1: the validator fails. *)
Lemma duplicate_version_is_rejected_witness :
  exists expected found,
    getPendingMigration duplicateDir (selectApplied (ledger (appliedInit "A")))
      dir (afterSetup "main" (appliedInit "A"))
    = (Err (VersionMismatch expected found), afterSetup "main" (appliedInit "A"))
    /\ (true = true ->
        run duplicateDir (appliedInit "A")
        = (Err (VersionMismatch expected found),
           afterSetup "main" (appliedInit "A"))).
Proof.
  apply (duplicate_version_is_rejected Schema sqlExec evalModule true "/app"
           duplicateDir "main" "main" (appliedInit "A")
           "2-left.sql" "2-right.sql" 2).
  - discriminate.
  - simpl; auto.
  - simpl; auto.
  - reflexivity.
  - reflexivity.
  - reflexivity.
  - reflexivity.
  - simpl. intros [H|[]]. discriminate.
Defined.

(** [1-init.sql] was applied as [A] and now reads [B]. *)
Lemma changed_fingerprint_stops_run_witness :
  (exists e w',
     run editedDir (appliedInit "A") = (Err e, w') /\
     (w' = startWorld (appliedInit "A") \/
      w' = afterSetup "main" (appliedInit "A"))) /\
  run editedDir (appliedInit "A")
  = (Err (Md5Mismatch "1-init.sql" (MD5.md5hex "A") (MD5.md5hex "B")),
     afterSetup "main" (appliedInit "A")).
Proof.
  pose proof (changed_fingerprint_stops_run Schema sqlExec evalModule true
                "/app" editedDir "main" "main" (appliedInit "A")
                (AppliedMigration.make 1 "1-init.sql" (MD5.md5hex "A")) "B")
    as H.
  unfold dir. cbv zeta in H.
  destruct H as (H1 & H2 & _).
  - simpl; auto.
  - reflexivity.
  - vm_compute. discriminate.
  - split; [exact H1|].
    apply (H2 eq_refl [] [] []); [reflexivity | reflexivity | intros r []].
Defined.

(** [1-init.sql] was applied and is gone; [2-next.sql] is pending. *)
Lemma missing_file_stops_run_witness :
  (exists e w',
     run emptiedDir (appliedInit "A") = (Err e, w') /\
     (w' = startWorld (appliedInit "A") \/
      w' = afterSetup "main" (appliedInit "A"))) /\
  run emptiedDir (appliedInit "A")
  = (Err (AppliedMissing "1-init.sql"), afterSetup "main" (appliedInit "A")).
Proof.
  pose proof (missing_file_stops_run Schema sqlExec evalModule true
                "/app" emptiedDir "main" "main" (appliedInit "A")
                (AppliedMigration.make 1 "1-init.sql" (MD5.md5hex "A")))
    as H.
  unfold dir. cbv zeta in H.
  destruct H as (H1 & H2).
  - simpl; auto.
  - reflexivity.
  - split; [exact H1|].
    apply (H2 eq_refl
             [MigrationFile.make "2-next.sql" 2 (pathJoin dir "2-next.sql")]
             [] []); [reflexivity | reflexivity | intros r []].
Defined.

(** The scripts of the instance that record a statement are confined. *)
Lemma recording_batch_confined (fs : FS) (m : MigrationFile.t)
  (text : string) :
  scriptOf sqlExec evalModule fs m = Some (sqlExec text) ->
  String.eqb text "CREATE TABLE t; COMMIT; SELECT 1/0" = false ->
  String.eqb text
    "INSERT INTO migrations VALUES (1, '1-own.sql', 'x'); COMMIT; SELECT 1/0"
  = false ->
  String.eqb text "DELETE FROM migrations; COMMIT; SELECT 1/0" = false ->
  String.eqb text "DELETE FROM migrations" = false ->
  confined sqlExec evalModule fs m.
Proof.
  intros Hs H1 H2 H3 H4 d.
  split; intros f Hf; rewrite Hs in Hf; injection Hf as <-;
    unfold sqlExec; rewrite H1, H2, H3, H4; reflexivity.
Qed.

(** Of three files the second raises: the first stays applied, the second
    is rolled back, the third is not run. *)
Lemma failed_migration_is_rolled_back_witness :
  (exists cause lg w',
     run failingDir emptyDb
     = (Err (MigrationError "2-bad.sql" cause), w') /\
     w' = failedWorldOf sqlExec evalModule failingDir
            (afterSetup "main" emptyDb)
            [MigrationFile.make "1-init.sql" 1 (pathJoin dir "1-init.sql")]
            (MigrationFile.make "2-bad.sql" 2 (pathJoin dir "2-bad.sql"))
            [Script "2-bad.sql"] lg /\
     db w'
     = committed sqlExec evalModule failingDir
         [MigrationFile.make "1-init.sql" 1 (pathJoin dir "1-init.sql")]
         emptyDb /\
     (forall n,
        In n [MigrationFile.make "1-init.sql" 1 (pathJoin dir "1-init.sql")] ->
        In (Insert (ledgerRow failingDir n)) (sent w')) /\
     ~ In (Insert
             (ledgerRow failingDir
                (MigrationFile.make "2-bad.sql" 2 (pathJoin dir "2-bad.sql"))))
          (sent w') /\
     (forall n,
        In n [MigrationFile.make "3-next.sql" 3 (pathJoin dir "3-next.sql")] ->
        ~ In (Script (MigrationFile.name n)) (sent w') /\
        ~ In (Insert (ledgerRow failingDir n)) (sent w'))) /\
  (exists t lg,
     failsAt sqlExec evalModule badDir
       (MigrationFile.make "1-bad.sql" 1 (pathJoin dir "1-bad.sql"))
       emptyDb t /\
     afterBadRun
     = rolledBack (afterSetup "main" emptyDb)
         (leftByFailure sqlExec evalModule badDir
            (MigrationFile.make "1-bad.sql" 1 (pathJoin dir "1-bad.sql"))
            emptyDb) t lg /\
     db afterBadRun = emptyDb).
Proof.
  pose proof (failed_migration_is_rolled_back Schema sqlExec evalModule true
                "/app" failingDir) as (_ & _ & Hrun & _).
  pose proof (failed_migration_is_rolled_back Schema sqlExec evalModule true
                "/app" badDir) as (Hone & _).
  unfold dir. split.
  - destruct (Hrun "main" "main" emptyDb
             [MigrationFile.make "1-init.sql" 1
                (pathJoin (migrationDirOf "/app" "main") "1-init.sql");
              MigrationFile.make "2-bad.sql" 2
                (pathJoin (migrationDirOf "/app" "main") "2-bad.sql");
              MigrationFile.make "3-next.sql" 3
                (pathJoin (migrationDirOf "/app" "main") "3-next.sql")]
             [MigrationFile.make "1-init.sql" 1
                (pathJoin (migrationDirOf "/app" "main") "1-init.sql")]
             (MigrationFile.make "2-bad.sql" 2
                (pathJoin (migrationDirOf "/app" "main") "2-bad.sql"))
             [MigrationFile.make "3-next.sql" 3
                (pathJoin (migrationDirOf "/app" "main") "3-next.sql")]
             [Script "2-bad.sql"])
      as (cause & lg & w' & Hw & Hshape & Hkept & Hpre & Hown & Hpost).
    + reflexivity.
    + reflexivity.
    + reflexivity.
    + intros r [].
    + reflexivity.
    + split; [|exact I]. eexists. split; [reflexivity|]. split; reflexivity.
    + right. eexists. split; [reflexivity|]. split; reflexivity.
    + exists cause, lg, w'. split; [exact Hw|]. split; [exact Hshape|].
      split; [|split; [exact Hpre|split; [exact Hown | exact Hpost]]].
      apply Hkept.
      now apply (recording_batch_confined failingDir _ "SELECT 1/0").
  - destruct (Hone (MigrationFile.make "1-bad.sql" 1
                      (pathJoin (migrationDirOf "/app" "main") "1-bad.sql"))
                (afterSetup "main" emptyDb)
                (QueryFailed "1-bad.sql") afterBadRun)
      as (t & lg & Hfails & Hshape & Hkept).
    + reflexivity.
    + vm_compute; reflexivity.
    + exists t, lg. split; [exact Hfails|]. split; [exact Hshape|].
      apply Hkept.
      now apply (recording_batch_confined badDir _ "SELECT 1/0").
Defined.

(** Two files on an empty ledger, listed in reverse. *)
Lemma migrations_apply_in_order_commit_then_log_witness :
  (exists done rest tail lg,
     toBeApplied twoFiles dir (ledger emptyDb) = (done ++ rest)%list /\
     (afterTwoFiles
      = appliedWorld sqlExec evalModule twoFiles (afterSetup "main" emptyDb)
          done tail lg \/
      (exists m rest' t,
         rest = m :: rest' /\ tail = (Begin :: t ++ [Rollback])%list /\
         afterTwoFiles
         = failedWorldOf sqlExec evalModule twoFiles
             (afterSetup "main" emptyDb) done m t lg) \/
      (true = false /\ done = [] /\ afterTwoFiles = startWorld emptyDb)) /\
     existsb isInsert tail = false /\
     StronglySorted Z.lt (map versionZ (done ++ rest)) /\
     (forall m, In m done ->
        exists content,
          fileText twoFiles (MigrationFile.fullPath m) = Some content /\
          ledgerRow twoFiles m
          = AppliedMigration.make (versionZ m) (MigrationFile.name m)
              (MD5.md5hex content)) /\
     (Ok tt = Ok tt -> rest = [] /\ tail = [Commit; ResetSearchPath])) /\
  exists lg,
    run twoFiles emptyDb
    = (Ok tt,
       {| db :=
            {| ledger :=
                 [AppliedMigration.make 1 "1-init.sql"
                    (MD5.md5hex "CREATE TABLE t");
                  AppliedMigration.make 2 "2-add-index.sql"
                    (MD5.md5hex "CREATE INDEX i")];
               data := ["CREATE TABLE t"; "CREATE INDEX i"] |};
          snapshot := None;
          sent :=
            [CreateSchema "main"; CreateTable; SelectApplied;
             Begin; Script "1-init.sql"; Commit;
             Insert (AppliedMigration.make 1 "1-init.sql"
                       (MD5.md5hex "CREATE TABLE t"));
             Begin; Script "2-add-index.sql"; Commit;
             Insert (AppliedMigration.make 2 "2-add-index.sql"
                       (MD5.md5hex "CREATE INDEX i"));
             Commit; ResetSearchPath];
          logged := lg |}).
Proof.
  pose proof (migrations_apply_in_order_commit_then_log Schema sqlExec
                evalModule true "/app" twoFiles)
    as (Hevery & _ & _ & Hscenario).
  unfold dir. split.
  - apply (Hevery "main" "main" emptyDb (Ok tt) afterTwoFiles).
    vm_compute; reflexivity.
  - apply (Hscenario "main" "main" "CREATE TABLE t" "CREATE INDEX i"
             [] ["CREATE TABLE t"] ["CREATE TABLE t"; "CREATE INDEX i"]
             (Some emptyDb)
             (Some {| ledger :=
                        [AppliedMigration.make 1 "1-init.sql"
                           (MD5.md5hex "CREATE TABLE t")];
                      data := ["CREATE TABLE t"] |})).
    + reflexivity.
    + apply perm_swap.
    + reflexivity.
    + reflexivity.
Defined.

(** The same two files, run twice. *)
Lemma second_run_applies_nothing_witness :
  run twoFiles emptyDb = (Ok tt, afterTwoFiles) /\
  toBeApplied twoFiles dir (ledger (db afterTwoFiles)) = [] /\
  ledger (db afterTwoFiles)
  = (ledger emptyDb
     ++ map (ledgerRow twoFiles)
          (toBeApplied twoFiles dir (ledger emptyDb)))%list /\
  computePending (selectApplied (ledger (db afterTwoFiles))) dir
    (map fst (twoFiles dir)) = Ok [] /\
  exists lg,
    run twoFiles (db afterTwoFiles)
    = (Ok tt,
       {| db := db afterTwoFiles; snapshot := None;
          sent := [CreateSchema "main"; CreateTable; SelectApplied;
                   Commit; ResetSearchPath];
          logged := lg |}).
Proof.
  assert (Hrun : run twoFiles emptyDb = (Ok tt, afterTwoFiles))
    by (vm_compute; reflexivity).
  split; [exact Hrun|]. unfold dir in *.
  destruct (second_run_applies_nothing Schema sqlExec evalModule true true
              "main" "/app" twoFiles "main" "main" emptyDb afterTwoFiles
              Hrun)
    as (Hnone & Hconfined & Hsecond & _).
  assert (Hledger :
            ledger (db afterTwoFiles)
            = (ledger emptyDb
               ++ map (ledgerRow twoFiles)
                    (toBeApplied twoFiles (migrationDirOf "/app" "main")
                       (ledger emptyDb)))%list).
  { apply Hconfined. intros m [<-|[<-|[]]].
    - now apply (recording_batch_confined twoFiles _ "CREATE TABLE t").
    - now apply (recording_batch_confined twoFiles _ "CREATE INDEX i"). }
  destruct Hnone as (Hnothing & _ & Hpending);
    [intros r Hr; rewrite Hledger; exact Hr|].
  destruct (Hsecond Hledger) as (Hok & _); [intros r []|].
  split; [exact Hnothing|]. split; [exact Hledger|].
  split; [apply Hpending; intros r []|]. apply Hok. vm_compute; reflexivity.
Defined.

(** Against C2 as stated.  The applied file holds a text other than the
    one it was applied with, and the run completes: the two texts have the
    same digest.  With the applied file edited and a file out of sequence
    in the directory, the run fails with the version mismatch, not with
    the MD5 mismatch.  And with the applied file edited and a version in
    the ledger that the ordered read refuses, the run fails at the read. *)
Lemma changed_content_not_always_a_tamper_error :
  textA <> textB /\
  MD5.md5hex textA = MD5.md5hex textB /\
  fst (run collidingDir (appliedInit textA)) = Ok tt /\
  MD5.md5hex "B" <> MD5.md5hex "A" /\
  fst (run editedGapDir (appliedInit "A"))
  = Err (VersionMismatch 2 "3-late.sql") /\
  computePending (selectApplied (ledger wideDb)) dir
    (map fst (wideEditedDir dir)) = Ok [] /\
  fst (run wideEditedDir wideDb) = Err IntegerOutOfRange.
Proof.
  split; [discriminate|].
  split; [vm_compute; reflexivity|].
  split; [vm_compute; reflexivity|].
  split; [vm_compute; discriminate|].
  split; [vm_compute; reflexivity|].
  split; vm_compute; reflexivity.
Qed.

(** Against C3 as stated.  The applied file is absent and a file out of
    sequence is in the directory: the run fails with the version mismatch,
    not with the applied-migration-missing error.  And with the applied
    file absent and a version in the ledger that the ordered read
    refuses, the run fails at the read. *)
Lemma missing_file_not_always_a_missing_error :
  In (AppliedMigration.make 1 "1-init.sql" (MD5.md5hex "A"))
     (ledger (appliedInit "A")) /\
  lookupFile "1-init.sql" (emptiedGapDir dir) = None /\
  fst (run emptiedGapDir (appliedInit "A"))
  = Err (VersionMismatch 2 "3-late.sql") /\
  lookupFile "1-init.sql" (wideEmptiedDir dir) = None /\
  computePending (selectApplied (ledger wideDb)) dir
    (map fst (wideEmptiedDir dir)) = Ok [] /\
  fst (run wideEmptiedDir wideDb) = Err IntegerOutOfRange.
Proof.
  split; [now left|]. repeat split; vm_compute; reflexivity.
Qed.

(** Against C4 as stated.  A file that creates a table, commits and then
    raises: the migration fails and is rolled back, and the table is
    still there.  A file that inserts a row of its own version into the
    ledger, commits and raises: the migration fails and the ledger has an
    entry for it.  And after a first file that was applied, a second one
    that empties the ledger, commits and raises: the run ends with the
    failure of the second, and the ledger entry of the first is gone. *)
Lemma committing_batch_is_not_undone :
  (fst (run keepingDir emptyDb)
   = Err (MigrationError "1-keep.sql" (QueryFailed "1-keep.sql")) /\
   sent afterKeepingRun
   = [CreateSchema "main"; CreateTable; SelectApplied;
      Begin; Script "1-keep.sql"; Rollback] /\
   data emptyDb = [] /\
   data (db afterKeepingRun) = ["CREATE TABLE t"]) /\
  (fst (run owningDir emptyDb)
   = Err (MigrationError "1-own.sql" (QueryFailed "1-own.sql")) /\
   sent afterOwningRun
   = [CreateSchema "main"; CreateTable; SelectApplied;
      Begin; Script "1-own.sql"; Rollback] /\
   ledger (db afterOwningRun) = [AppliedMigration.make 1 "1-own.sql" "x"]) /\
  (fst (run wipingDir emptyDb)
   = Err (MigrationError "2-wipe.sql" (QueryFailed "2-wipe.sql")) /\
   sent afterWipingRun
   = [CreateSchema "main"; CreateTable; SelectApplied;
      Begin; Script "1-init.sql"; Commit;
      Insert (AppliedMigration.make 1 "1-init.sql"
                (MD5.md5hex "CREATE TABLE t"));
      Begin; Script "2-wipe.sql"; Rollback] /\
   ledger (db afterWipingRun) = []).
Proof. repeat split; vm_compute; reflexivity. Qed.

(** Against C6 as stated.  After a run that failed on its only file, the
    second run finds that file to apply and executes it again.  On a
    ledger whose row of version 1 carries the name of the file of version
    2, the first run completes and the file is still pending after it,
    though not executed.  And on a ledger whose row of version 1 carries
    the name of the file of version 3, with a file of version 2 that
    empties the ledger, the first run completes and the second run
    executes the file of version 3. *)
Lemma second_run_can_find_pending_files :
  (fst (run badDir emptyDb)
   = Err (MigrationError "1-bad.sql" (QueryFailed "1-bad.sql")) /\
   toBeApplied badDir dir (ledger (db afterBadRun))
   = [MigrationFile.make "1-bad.sql" 1 (pathJoin dir "1-bad.sql")] /\
   sent (snd (run badDir (db afterBadRun)))
   = [CreateSchema "main"; CreateTable; SelectApplied;
      Begin; Script "1-bad.sql"; Rollback]) /\
  (fst (run misnamedDir misnamedDb) = Ok tt /\
   computePending (selectApplied (ledger (db afterMisnamedRun))) dir
     (map fst (misnamedDir dir))
   = Ok [MigrationFile.make "2-b.sql" 2 (pathJoin dir "2-b.sql")]) /\
  (fst (run purgingDir purgingDb) = Ok tt /\
   ledger (db afterPurgingRun)
   = [AppliedMigration.make 2 "2-b.sql"
        (MD5.md5hex "DELETE FROM migrations")] /\
   fst (run purgingDir (db afterPurgingRun)) = Ok tt /\
   sent (snd (run purgingDir (db afterPurgingRun)))
   = [CreateSchema "main"; CreateTable; SelectApplied;
      Begin; Script "3-c.sql"; Commit;
      Insert (AppliedMigration.make 3 "3-c.sql" (MD5.md5hex "C"));
      Commit; ResetSearchPath]).
Proof.
  split; [split; [|split]|split; [split|split; [|split; [|split]]]];
    vm_compute; reflexivity.
Qed.

(** Against C7 as stated.  The file [0-init.sql] is discovered, with the
    version 0, which is not positive.  And the file
    [9007199254740993-x.sql] is discovered with the version
    9007199254740992, which is not the integer its digits write. *)
Lemma version_zero_is_discovered :
  allMigrationsOf dir ["0-init.sql"]
  = [MigrationFile.make "0-init.sql" 0 (pathJoin dir "0-init.sql")] /\
  ~ (0 < 0)%N /\
  allMigrationsOf dir ["9007199254740993-x.sql"]
  = [MigrationFile.make "9007199254740993-x.sql" 9007199254740992
       (pathJoin dir "9007199254740993-x.sql")] /\
  Str.decimalValue "9007199254740993" = 9007199254740993%N.
Proof.
  split; [reflexivity|]. split; [lia|]. split; vm_compute; reflexivity.
Qed.

(** After a run that applied the file of the version next to the last one
    the ordered read accepts, the second run fails at the read: it
    executes nothing and leaves the database as it is. *)
Lemma second_run_can_fail_at_the_read :
  fst (run edgeDir edgeDb) = Ok tt /\
  appliedVersionsOf (ledger (db afterEdgeRun)) = [2147483647; 2147483648]%Z /\
  run edgeDir (db afterEdgeRun)
  = (Err IntegerOutOfRange, afterSetup "main" (db afterEdgeRun)).
Proof. repeat split; vm_compute; reflexivity. Qed.

End OnTheInstance.

(* ================================================================= *)
(** ** Further facts: versions in file names *)

Lemma parseDigits_of_uint_acc (d : Decimal.uint) (acc : positive) :
  Str.parseDigits (N.pos acc) (NilEmpty.string_of_uint d)
  = N.pos (Pos.of_uint_acc d acc).
Proof.
  revert acc; induction d as [|d IH|d IH|d IH|d IH|d IH|d IH|d IH|d IH|d IH|d IH];
    intros acc; cbn [NilEmpty.string_of_uint Str.parseDigits Pos.of_uint_acc];
    [reflexivity|..]; rewrite <- IH; f_equal;
    match goal with
    | |- context [Str.digitVal ?c] =>
        let k := eval vm_compute in (Str.digitVal c) in
        change (Str.digitVal c) with k
    end; lia.
Qed.

Lemma parseDigits_of_uint (d : Decimal.uint) :
  Str.decimalValue (NilEmpty.string_of_uint d) = N.of_uint d.
Proof.
  unfold Str.decimalValue, N.of_uint.
  induction d as [|d IH|d IH|d IH|d IH|d IH|d IH|d IH|d IH|d IH|d IH];
    cbn [NilEmpty.string_of_uint Str.parseDigits Pos.of_uint];
    [reflexivity | exact IH | ..];
    match goal with
    | |- context [Str.digitVal ?c] =>
        let k := eval vm_compute in (Str.digitVal c) in
        change (Str.digitVal c) with k
    end; apply (parseDigits_of_uint_acc d).
Qed.

Lemma string_of_uint_digits (d : Decimal.uint) :
  Str.allDigits (NilEmpty.string_of_uint d).
Proof.
  induction d; simpl; try apply StrFacts.allDigits_nil;
    apply StrFacts.allDigits_cons; split; (reflexivity || assumption).
Qed.

Lemma decimal_nonempty (n : N) : decimal n <> EmptyString.
Proof.
  unfold decimal. destruct n as [|p]; [discriminate|].
  simpl. pose proof (DecimalPos.Unsigned.to_uint_nonnil p) as H.
  destruct (Pos.to_uint p); [contradiction | discriminate..].
Qed.

(** X1.  The name made of the decimal text of a number, [-] and anything
    is given the Number nearest to that number as its version, which is
    the number itself below [2^53]; and zeros put before a name with a
    version do not change the version. *)
Theorem extractVersion_of_decimal :
  (forall (n : N) (rest : string),
     extractVersion (decimal n ++ "-" ++ rest) = Some (Str.toNumber n)) /\
  (forall (n : N) (rest : string),
     (n < 2 ^ 53)%N ->
     extractVersion (decimal n ++ "-" ++ rest) = Some n) /\
  (forall (name : string) (v : N),
     extractVersion name = Some v ->
     extractVersion (String "0" name) = Some v).
Proof.
  assert (Hany : forall (n : N) (rest : string),
            extractVersion (decimal n ++ "-" ++ rest)
            = Some (Str.toNumber n)).
  { intros n rest. apply extractVersion_iff. exists (decimal n), rest.
    split; [apply decimal_nonempty|]. split; [apply string_of_uint_digits|].
    split; [reflexivity|]. unfold decimal, Str.parseInt10.
    now rewrite parseDigits_of_uint, DecimalN.Unsigned.of_to. }
  split; [exact Hany|]. split.
  - intros n rest Hn. now rewrite Hany, toNumber_exact.
  - intros name v H. apply extractVersion_iff in H
      as (ds & rest & Hne & Hd & -> & ->).
    apply extractVersion_iff. exists (String "0" ds), rest.
    split; [discriminate|]. split; [|split; reflexivity].
    apply StrFacts.allDigits_cons. split; [reflexivity | exact Hd].
Qed.


(* ================================================================= *)
(** ** Further facts: the sequence check *)

Lemma sortBy_ext (A : Type) (le le' : A -> A -> bool) (l : list A) :
  (forall a b, le a b = le' a b) -> sortBy le l = sortBy le' l.
Proof.
  intros Hle. induction l as [|x l IH]; simpl; [reflexivity|].
  rewrite IH. generalize (sortBy le' l) as s.
  induction s as [|y s IHs]; simpl; [reflexivity|].
  now rewrite Hle, IHs.
Qed.

Lemma allMigrationsOf_sorted (dir : string) (files : list string) :
  StronglySorted byVersion (allMigrationsOf dir files).
Proof.
  unfold allMigrationsOf.
  rewrite (sortBy_ext _ _ (fun a b => Z.leb (versionZ a) (versionZ b))).
  - apply (sortBy_sorted _ versionZ).
  - intros a b. unfold versionZ.
    destruct (N.leb_spec (MigrationFile.version a) (MigrationFile.version b)),
             (Z.leb_spec (Z.of_N (MigrationFile.version a))
                         (Z.of_N (MigrationFile.version b)));
      (reflexivity || lia).
Qed.

Lemma pendingOf_sorted (vs : list Z) (all : list MigrationFile.t) :
  StronglySorted byVersion all -> StronglySorted byVersion (pendingOf vs all).
Proof.
  unfold pendingOf. induction 1 as [|m all Hs IH Hall]; simpl; [constructor|].
  destruct (negb _); [|exact IH]. constructor; [exact IH|].
  rewrite Forall_forall in *. intros x Hx. apply Hall.
  now apply filter_In in Hx.
Qed.

Lemma pendingOf_perm (vs : list Z) (all all' : list MigrationFile.t) :
  Permutation all all' -> Permutation (pendingOf vs all) (pendingOf vs all').
Proof.
  unfold pendingOf. induction 1 as [|m l l' Hp IH|m m' l|l l' l'' H1 IH1 H2 IH2];
    simpl.
  - constructor.
  - destruct (negb _); [now constructor | exact IH].
  - destruct (negb (includes vs (Z.of_N (MigrationFile.version m)))),
             (negb (includes vs (Z.of_N (MigrationFile.version m'))));
      (apply perm_swap || reflexivity).
  - now transitivity (filter
        (fun m => negb (includes vs (Z.of_N (MigrationFile.version m)))) l').
Qed.

Lemma allMigrationsOf_perm (dir : string) (files files' : list string) :
  Permutation files files' ->
  Permutation (allMigrationsOf dir files) (allMigrationsOf dir files').
Proof.
  intros Hp. unfold allMigrationsOf.
  rewrite !sortBy_perm. apply Permutation_flat_map, Permutation_map.
  induction Hp as [|f l l' Hp IH|f f' l|l l' l'' H1 IH1 H2 IH2]; simpl.
  - constructor.
  - destruct (recognised f); [now constructor | exact IH].
  - destruct (recognised f), (recognised f'); (apply perm_swap || reflexivity).
  - now transitivity (filter recognised l').
Qed.

(** Two lists in ascending order of distinct versions with the same
    elements are the same list. *)
Lemma ascending_unique (A : Type) (key : A -> Z) (l1 l2 : list A) :
  StronglySorted (fun a b => (key a <= key b)%Z) l1 ->
  StronglySorted (fun a b => (key a <= key b)%Z) l2 ->
  NoDup (map key l1) ->
  Permutation l1 l2 ->
  l1 = l2.
Proof.
  intros H1. revert l2.
  induction H1 as [|x l1 Hs1 IH Hall1]; intros l2 H2 Hnd Hp.
  - apply Permutation_nil in Hp. now subst.
  - destruct H2 as [|y l2 Hs2 Hall2].
    + apply Permutation_sym, Permutation_nil in Hp. discriminate.
    + rewrite Forall_forall in Hall1, Hall2.
      inversion Hnd as [|? ? Hfresh Hnd']; subst.
      assert (Hxy : x = y).
      { assert (Hy : In y (x :: l1))
          by (apply (Permutation_in y (Permutation_sym Hp)); now left).
        destruct Hy as [Hy|Hy]; [exact Hy|].
        assert (Hx : In x (y :: l2))
          by (apply (Permutation_in x Hp); now left).
        destruct Hx as [Hx|Hx]; [now symmetry|].
        exfalso. apply Hfresh.
        assert (Hk : key y = key x)
          by (specialize (Hall1 y Hy); specialize (Hall2 x Hx); cbv beta in *; lia).
        rewrite <- Hk. now apply in_map. }
      subst y. f_equal. apply IH; [exact Hs2 | exact Hnd'|].
      now apply Permutation_cons_inv in Hp.
Qed.

Lemma contiguous_length (first : Z) (k : nat) :
  List.length (contiguous first k) = k.
Proof. unfold contiguous. now rewrite length_map, length_seq. Qed.

Lemma contiguous_bounds (first : Z) (k : nat) (v : Z) :
  In v (contiguous first k) -> (first <= v)%Z.
Proof.
  unfold contiguous. intros H. apply in_map_iff in H as (i & <- & _). lia.
Qed.

Lemma increasing_ascending (l : list Z) :
  StronglySorted Z.lt l -> StronglySorted (fun a b => (a <= b)%Z) l.
Proof.
  induction 1 as [|z l Hs IH Hall]; constructor; [exact IH|].
  rewrite Forall_forall in *. intros y Hy. specialize (Hall y Hy). lia.
Qed.

Lemma sorted_map_key (l : list MigrationFile.t) :
  StronglySorted byVersion l ->
  StronglySorted (fun a b => (a <= b)%Z) (map versionZ l).
Proof.
  induction 1 as [|m l Hs IH Hall]; simpl; constructor; [exact IH|].
  rewrite Forall_forall in *. intros z Hz.
  apply in_map_iff in Hz as (x & <- & Hx). now apply Hall.
Qed.

(** Two lists of versions in ascending order with the same elements are
    the same list. *)
Lemma ascending_versions_unique (l1 l2 : list Z) :
  StronglySorted (fun a b => (a <= b)%Z) l1 ->
  StronglySorted (fun a b => (a <= b)%Z) l2 ->
  Permutation l1 l2 ->
  l1 = l2.
Proof.
  intros H1. revert l2.
  induction H1 as [|x l1 Hs1 IH Hall1]; intros l2 H2 Hp.
  - apply Permutation_nil in Hp. now subst.
  - destruct H2 as [|y l2 Hs2 Hall2].
    + apply Permutation_sym, Permutation_nil in Hp. discriminate.
    + rewrite Forall_forall in Hall1, Hall2.
      assert (Hxy : x = y).
      { assert (Hy : In y (x :: l1))
          by (apply (Permutation_in y (Permutation_sym Hp)); now left).
        assert (Hx : In x (y :: l2))
          by (apply (Permutation_in x Hp); now left).
        destruct Hy as [Hy|Hy]; [exact Hy|].
        destruct Hx as [Hx|Hx]; [now symmetry|].
        specialize (Hall1 y Hy). specialize (Hall2 x Hx). lia. }
      subst y. f_equal. apply IH; [exact Hs2|].
      now apply Permutation_cons_inv in Hp.
Qed.

(** The loop that prevents version skipping looks at the versions only. *)
Lemma versionLoop_versions (first : Z) (l : list MigrationFile.t) :
  forall (l' : list MigrationFile.t) (i : nat),
  map versionZ l = map versionZ l' ->
  match versionLoop first i l with
  | Ok _ => versionLoop first i l' = Ok tt
  | Err e =>
      exists expected m m',
        e = VersionMismatch expected (MigrationFile.name m) /\
        In m l /\ In m' l' /\ versionZ m' = versionZ m /\
        versionLoop first i l'
        = Err (VersionMismatch expected (MigrationFile.name m'))
  end.
Proof.
  induction l as [|m l IH]; intros [|m' l'] i Hv; try discriminate;
    [reflexivity|].
  simpl in Hv. injection Hv as Hm Hv. simpl.
  fold (versionZ m). fold (versionZ m'). rewrite <- Hm.
  destruct (Z.eqb (versionZ m) (first + Z.of_nat i)).
  - specialize (IH l' (S i) Hv).
    destruct (versionLoop first (S i) l) as [[]|e]; [exact IH|].
    destruct IH as (expected & x & x' & -> & Hx & Hx' & Hxv & Hloop).
    exists expected, x, x'. auto.
  - exists (first + Z.of_nat i)%Z, m, m'. auto.
Qed.

(** X2.  The order in which the directory lists its files shows in the
    outcome of the sequence check only through the file a failure names:
    a listing that passes gives the same pending files in whatever order
    it is read, and a listing that fails fails in whatever order it is
    read, expecting the same version at a file of the same version (of
    two files of one version, which one is named depends on the order). *)
Theorem computePending_listing_order
  (applied : list AppliedMigration.t) (dir : string)
  (files files' : list string) :
  Permutation files files' ->
  (forall pend,
     computePending applied dir files = Ok pend ->
     computePending applied dir files' = Ok pend) /\
  (forall expected found,
     computePending applied dir files = Err (VersionMismatch expected found) ->
     exists found',
       computePending applied dir files'
       = Err (VersionMismatch expected found') /\
       extractVersion found' = extractVersion found).
Proof.
  intros Hperm.
  set (pend1 := pendingOf (appliedVersionsOf applied)
                  (allMigrationsOf dir files)).
  set (pend2 := pendingOf (appliedVersionsOf applied)
                  (allMigrationsOf dir files')).
  assert (Hpp : Permutation pend1 pend2)
    by now apply pendingOf_perm, allMigrationsOf_perm.
  assert (Hvers : map versionZ pend1 = map versionZ pend2).
  { apply ascending_versions_unique.
    - apply sorted_map_key, pendingOf_sorted, allMigrationsOf_sorted.
    - apply sorted_map_key, pendingOf_sorted, allMigrationsOf_sorted.
    - now apply Permutation_map. }
  split.
  - intros pend Hok.
    destruct (computePending_ok _ _ _ _ Hok) as [Hpend Hcont].
    assert (Heq : pend1 = pend2).
    { apply (ascending_unique _ versionZ).
      - apply pendingOf_sorted, allMigrationsOf_sorted.
      - apply pendingOf_sorted, allMigrationsOf_sorted.
      - unfold pend1. rewrite <- Hpend, Hcont.
        apply increasing_NoDup, contiguous_increasing.
      - exact Hpp. }
    unfold computePending in *. fold pend1 in Hok. fold pend2.
    now rewrite <- Heq.
  - intros expected found Herr. unfold computePending in *.
    fold pend1 in Herr. fold pend2.
    pose proof (versionLoop_versions
                  (match lastOpt (appliedVersionsOf applied) with
                   | Some v => v
                   | None => 0%Z
                   end + 1) pend1 pend2 0 Hvers) as Hloop.
    destruct (versionLoop _ 0 pend1) as [[]|e]; [discriminate|].
    injection Herr as ->.
    destruct Hloop as (expected' & m & m' & He & Hm & Hm' & Hv & ->).
    injection He as -> ->.
    exists (MigrationFile.name m'). split; [reflexivity|].
    apply pendingOf_In in Hm as [Hm _]. apply pendingOf_In in Hm' as [Hm' _].
    apply allMigrationsOf_In in Hm as (_ & _ & -> & _).
    apply allMigrationsOf_In in Hm' as (_ & _ & -> & _).
    f_equal. unfold versionZ in Hv. lia.
Qed.

(** X3.  The sequence check rejects nothing it should accept: when the
    versions of the discovered files that are not applied are, each once,
    the versions [last + 1], ..., [last + k] after the last applied one,
    the pending files are returned. *)
Theorem computePending_accepts_contiguous
  (applied : list AppliedMigration.t) (dir : string) (files : list string)
  (k : nat) :
  Permutation (unappliedVersions applied dir files)
    (contiguous (lastAppliedOf applied + 1) k) ->
  computePending applied dir files
  = Ok (pendingOf (appliedVersionsOf applied) (allMigrationsOf dir files)).
Proof.
  unfold unappliedVersions, lastAppliedOf. intros Hperm.
  set (pend := pendingOf _ _) in *.
  assert (Heq : map versionZ pend
                = contiguous
                    (match lastOpt (appliedVersionsOf applied) with
                     | Some v => v | None => 0%Z end + 1) k).
  { apply (ascending_unique _ (fun z => z)).
    - apply sorted_map_key, pendingOf_sorted, allMigrationsOf_sorted.
    - apply increasing_ascending, contiguous_increasing.
    - rewrite map_id. apply (Permutation_NoDup (Permutation_sym Hperm)).
      apply increasing_NoDup, contiguous_increasing.
    - exact Hperm. }
  assert (Hlen : List.length pend = k).
  { rewrite <- (length_map versionZ), Heq. apply contiguous_length. }
  unfold computePending. fold pend.
  replace (versionLoop _ 0 pend) with (@Ok unit tt); [reflexivity|].
  symmetry. apply versionLoop_ok. rewrite Heq, Hlen. reflexivity.
Qed.

(** X4.  A discovered file whose version is not applied and is not above
    the last applied one, a migration added behind the ledger, makes the
    sequence check fail, whatever else the directory holds. *)
Theorem computePending_rejects_backfill
  (applied : list AppliedMigration.t) (dir : string) (files : list string)
  (name : string) (v : N) :
  In name files ->
  recognised name = true ->
  extractVersion name = Some v ->
  ~ In (Z.of_N v) (appliedVersionsOf applied) ->
  (Z.of_N v <= lastAppliedOf applied)%Z ->
  exists expected found,
    computePending applied dir files = Err (VersionMismatch expected found).
Proof.
  intros Hin Hrec Hv Hna Hle.
  destruct (computePending_cases applied dir files)
    as [[_ Hc]|(e & m & _ & _ & H)]; [|now exists e, (MigrationFile.name m)].
  exfalso.
  assert (Hm : In (Z.of_N v)
                 (map versionZ
                    (pendingOf (appliedVersionsOf applied)
                       (allMigrationsOf dir files)))).
  { apply in_map_iff.
    exists (MigrationFile.make name v (pathJoin dir name)).
    split; [reflexivity|]. apply pendingOf_In. split; [|exact Hna].
    apply allMigrationsOf_In. simpl. auto. }
  rewrite Hc in Hm. apply contiguous_bounds in Hm.
  unfold lastAppliedOf in Hle. lia.
Qed.

(** X5.  A file without a recognised extension or without a version in its
    name changes nothing, wherever the directory lists it. *)
Theorem computePending_ignores_other_files
  (applied : list AppliedMigration.t) (dir : string)
  (before after : list string) (name : string) :
  recognised name = false \/ extractVersion name = None ->
  computePending applied dir (before ++ name :: after)
  = computePending applied dir (before ++ after).
Proof.
  intros H. unfold computePending.
  replace (allMigrationsOf dir (before ++ name :: after))
    with (allMigrationsOf dir (before ++ after)); [reflexivity|].
  unfold allMigrationsOf. f_equal.
  rewrite !filter_app, !map_app, !flat_map_app. f_equal. simpl.
  destruct (recognised name) eqn:Hr; [|reflexivity].
  destruct H as [H|H]; [discriminate|]. simpl. now rewrite H.
Qed.


(* ================================================================= *)
(** ** Further facts: the ledger callbacks, the integrity check, the run *)

Section ManagerMore.
Variable D : Type.
Variable sqlExec : string -> Batch D.
Variable evalModule : string -> option (Exports D).
Variable connects : bool.
Variable shutsDown : bool.
Variable mainSchema : string.
Variable currentDir : string.
Variable fs : FS.

Local Abbreviation World := (World D).
Local Abbreviation runMigrationForSchema :=
  (runMigrationForSchema sqlExec evalModule connects currentDir fs).
Local Abbreviation appliedWorld := (appliedWorld sqlExec evalModule fs).
Local Abbreviation failsAt := (failsAt sqlExec evalModule fs).
Local Abbreviation committed := (committed sqlExec evalModule fs).
Local Abbreviation scriptOf := (scriptOf sqlExec evalModule fs).
Local Abbreviation migrationUp := (migrationUp sqlExec evalModule fs).
Local Abbreviation applied := (applied sqlExec evalModule fs).
Local Abbreviation leftByFailure := (leftByFailure sqlExec evalModule fs).
Local Abbreviation succeedsAt := (succeedsAt sqlExec evalModule fs).
Local Abbreviation refusedAt := (refusedAt sqlExec evalModule fs).
Local Abbreviation allSucceed := (allSucceed sqlExec evalModule fs).
Local Abbreviation keepsTransaction :=
  (keepsTransaction sqlExec evalModule fs).
Local Abbreviation keepsLedger := (keepsLedger sqlExec evalModule fs).
Local Abbreviation confined := (confined sqlExec evalModule fs).
Local Abbreviation failedWorldOf := (failedWorldOf sqlExec evalModule fs).
Local Abbreviation main :=
  (main sqlExec evalModule connects shutsDown mainSchema currentDir fs).

Ltac run_queries :=
  cbv beta iota zeta delta
    [bind tryCatch ret throw queryInsert queryDelete send setDb getDb
     getSnapshot].

Lemma delete_absent_version (v : Z) (l : list AppliedMigration.t) :
  ~ In v (appliedVersionsOf l) ->
  filter (fun r => negb (Z.eqb (AppliedMigration.version r) v)) l = l.
Proof.
  intros Hv. apply filter_all. intros r Hr.
  apply negb_true_iff, Z.eqb_neq. intros Heq. apply Hv.
  rewrite <- Heq. unfold appliedVersionsOf. now apply in_map.
Qed.

(** X6.  Logging a migration and unlogging it again gives back the
    database as it was: for a name with a version whose file is there and
    whose version the ledger does not hold, [logMigration] appends the row
    with the digest of the file, and [unlogMigration] of the same name then
    removes it and nothing else. *)
Theorem log_then_unlog_restores_ledger
  (name : string) (v : N) (migrationPath : Path) (content : string)
  (w : World) :
  extractVersion name = Some v ->
  fileText fs migrationPath = Some content ->
  ~ In (Z.of_N v) (appliedVersionsOf (ledger (db w))) ->
  exists w1 w2,
    logMigration fs name migrationPath w = (Ok tt, w1) /\
    ledger (db w1)
    = ledger (db w)
      ++ [AppliedMigration.make (Z.of_N v) name (MD5.md5hex content)] /\
    unlogMigration (NameString name) w1 = (Ok tt, w2) /\
    db w2 = db w /\
    sent w2
    = sent w
      ++ [Insert (AppliedMigration.make (Z.of_N v) name (MD5.md5hex content));
          Delete (Z.of_N v)].
Proof.
  intros Hv Ht Hnew.
  unfold logMigration, unlogMigration. rewrite Hv.
  unfold bind at 1. rewrite getFileMd5_eq, Ht.
  apply hasVersion_false_iff in Hnew as Hhas.
  run_queries. simpl. rewrite Hhas. simpl.
  do 2 eexists. split; [reflexivity|]. split; [reflexivity|].
  split; [reflexivity|]. simpl. rewrite <- app_assoc. split; [|reflexivity].
  rewrite filter_app, delete_absent_version by exact Hnew. simpl.
  rewrite Z.eqb_refl. simpl. rewrite app_nil_r. now destruct (db w).
Qed.

(** X7.  [logMigration] fails without changing the database: when the
    file cannot be read it fails before any query is sent, and when the
    ledger already holds the version the insert is refused by the primary
    key. *)
Theorem logMigration_failures_keep_ledger
  (name : string) (v : N) (migrationPath : Path) (w : World) :
  extractVersion name = Some v ->
  (fileText fs migrationPath = None ->
   logMigration fs name migrationPath w = (Err (ENOENT migrationPath), w)) /\
  (forall content,
     fileText fs migrationPath = Some content ->
     In (Z.of_N v) (appliedVersionsOf (ledger (db w))) ->
     exists w',
       logMigration fs name migrationPath w
       = (Err (DuplicateKey (Z.of_N v)), w') /\
       db w' = db w /\
       sent w'
       = sent w
         ++ [Insert (AppliedMigration.make (Z.of_N v) name
                       (MD5.md5hex content))]).
Proof.
  intros Hv. unfold logMigration. rewrite Hv. split.
  - intros Ht. unfold bind. now rewrite getFileMd5_eq, Ht.
  - intros content Ht Hin. unfold bind at 1. rewrite getFileMd5_eq, Ht.
    assert (Hhas : hasVersion (Z.of_N v) (ledger (db w)) = true).
    { destruct (hasVersion (Z.of_N v) (ledger (db w))) eqn:H; [reflexivity|].
      apply hasVersion_false_iff in H. contradiction. }
    run_queries. simpl. rewrite Hhas. eexists. split; [reflexivity|].
    simpl. auto.
Qed.

(** X8.  The integrity check passes exactly when every applied row is
    intact, its file present with the recorded digest; it then gives the
    recorded names in the order of the rows; and it never changes the
    session. *)
Theorem executed_iff_all_intact
  (appliedMigrations : list AppliedMigration.t) (migrationDir : string)
  (w : World) :
  ((forall r, In r appliedMigrations -> intact fs migrationDir r) <->
   executed fs appliedMigrations migrationDir w
   = (Ok (map AppliedMigration.name appliedMigrations), w)) /\
  snd (executed fs appliedMigrations migrationDir w) = w.
Proof.
  unfold executed, bind, ret. split; [split|].
  - intros H. now rewrite validateApplied_ok.
  - destruct (validateApplied fs migrationDir appliedMigrations w)
      as [[[]|e] w'] eqn:Hv; [|discriminate].
    intros _. eapply validateApplied_ok_inv. exact Hv.
  - rewrite validateApplied_eq.
    now destruct (fst (validateApplied fs migrationDir appliedMigrations w)).
Qed.

Lemma done_in_pending (names : list string) (pend done rest : list MigrationFile.t)
  (m : MigrationFile.t) :
  notExecuted names pend = done ++ rest -> In m (done ++ rest) ->
  In m pend /\ ~ In (MigrationFile.name m) names.
Proof.
  intros Hsplit Hm. rewrite <- Hsplit in Hm.
  apply filter_In in Hm as [Hm Hn]. split; [exact Hm|].
  apply negb_true_iff in Hn. intros Hin.
  assert (Hex : existsb (String.eqb (MigrationFile.name m)) names = true)
    by (apply existsb_exists; exists (MigrationFile.name m);
        split; [exact Hin | apply String.eqb_refl]).
  rewrite Hn in Hex. discriminate.
Qed.

(** A file to be applied has a version that neither the ledger nor a file
    taken up before it has. *)
Lemma version_of_next_is_new (d : Db D) (dir : string)
  (pend done : list MigrationFile.t) (m : MigrationFile.t)
  (rest : list MigrationFile.t) :
  computePending (selectApplied (ledger d)) dir (map fst (fs dir)) = Ok pend ->
  notExecuted (map AppliedMigration.name (selectApplied (ledger d))) pend
  = done ++ m :: rest ->
  ~ In (versionZ m)
      (appliedVersionsOf (ledger d ++ map (ledgerRow fs) done)).
Proof.
  intros Hp Hsplit Hin.
  unfold appliedVersionsOf in Hin. rewrite map_app in Hin.
  fold (appliedVersionsOf (ledger d)) in Hin.
  fold (appliedVersionsOf (map (ledgerRow fs) done)) in Hin.
  rewrite ledgerRows_versions in Hin.
  destruct (pending_wellformed fs _ _ _ Hp) as (Hwf & _).
  destruct (done_in_pending _ _ _ _ m Hsplit) as [Hm _];
    [apply in_or_app; right; now left|].
  apply in_app_or in Hin as [Hin|Hin].
  - destruct (Hwf m Hm) as (_ & _ & Hna). apply Hna.
    now apply selectApplied_versions.
  - apply in_map_iff in Hin as (n & Hv & Hn).
    apply (toBeApplied_versions_apart fs _ _ _ _ _ _ Hp Hsplit n m Hn
             (or_introl eq_refl) Hv).
Qed.

(** With confined scripts the primary key refuses no row of the run, and
    the ledger after the run is the ledger before it, then the rows of the
    files that were applied. *)
Lemma run_confined (schema folder : string) (d : Db D)
  (res : Result unit) (w' : World) :
  runMigrationForSchema schema folder (startWorld d) = (res, w') ->
  (forall m,
     In m (toBeApplied fs (migrationDirOf currentDir folder) (ledger d)) ->
     confined m) ->
  exists done rest,
    toBeApplied fs (migrationDirOf currentDir folder) (ledger d)
    = done ++ rest /\
    ledger (db w') = ledger d ++ map (ledgerRow fs) done /\
    (res = Ok tt -> rest = []) /\
    (forall v, res <> Err (DuplicateKey v)).
Proof.
  intros Hrun Hconf.
  destruct (run_cases _ sqlExec evalModule connects currentDir fs
              schema folder d)
    as [[_ H]|[(_ & _ & H)|[(_ & _ & e & f & _ & H)
       |[(_ & _ & pend & e & _ & He & H)
        |(_ & _ & pend & Hp & Hint & done & rest & Hsplit & Hall
            & [(-> & lg & H)
              |[(m & rest' & cause & t & lg & -> & Hf & H)
               |(m & rest' & lg & -> & Href & H)]])]]]];
    rewrite H in Hrun; injection Hrun as <- <-.
  - exists [], (toBeApplied fs (migrationDirOf currentDir folder) (ledger d)).
    simpl. rewrite app_nil_r. repeat (split; [reflexivity || discriminate|]).
    discriminate.
  - exists [], (toBeApplied fs (migrationDirOf currentDir folder) (ledger d)).
    simpl. rewrite app_nil_r. repeat (split; [reflexivity || discriminate|]).
    discriminate.
  - exists [], (toBeApplied fs (migrationDirOf currentDir folder) (ledger d)).
    simpl. rewrite app_nil_r. repeat (split; [reflexivity || discriminate|]).
    discriminate.
  - exists [], (toBeApplied fs (migrationDirOf currentDir folder) (ledger d)).
    simpl. rewrite app_nil_r. repeat (split; [reflexivity || discriminate|]).
    intros v [= ->]. exact He.
  - rewrite (toBeApplied_eq fs _ _ _ Hp) in Hconf |- *.
    exists done, []. split; [exact Hsplit|]. split; [|split; [reflexivity|]].
    + simpl. apply committed_confined; [|exact Hall].
      intros n Hn. apply Hconf. rewrite Hsplit. apply in_or_app. now left.
    + discriminate.
  - rewrite (toBeApplied_eq fs _ _ _ Hp) in Hconf |- *.
    exists done, (m :: rest'). split; [exact Hsplit|].
    split; [|split; discriminate].
    simpl. rewrite leftByFailure_keeps
      by (apply Hconf; rewrite Hsplit; apply in_or_app; right; now left).
    apply committed_confined; [|exact Hall].
    intros n Hn. apply Hconf. rewrite Hsplit. apply in_or_app. now left.
  - exfalso. rewrite (toBeApplied_eq fs _ _ _ Hp) in Hconf.
    destruct Href as (f & Hs & _ & Hhas).
    assert (Hm : confined m)
      by (apply Hconf; rewrite Hsplit; apply in_or_app; right; now left).
    destruct (Hm (committed done d)) as [_ Hkl].
    rewrite (Hkl f Hs) in Hhas.
    rewrite committed_confined in Hhas;
      [|intros n Hn; apply Hconf; rewrite Hsplit; apply in_or_app; now left
       |exact Hall].
    apply not_false_iff_true in Hhas. apply Hhas.
    apply hasVersion_false_iff.
    exact (version_of_next_is_new d _ pend done m rest' Hp Hsplit).
Qed.

(** X9.  A run leaves no transaction open, and what it changes it changes
    through its scripts and the rows it logs for them: a run that sent no
    script leaves the database as it found it, and a run whose scripts are
    confined (they do not write the ledger, and leave the transaction to
    the manager) keeps every row of the ledger, in place, and appends the
    rows of the files it applied, a prefix of the files to be applied that
    is all of them when the run completed. *)
Theorem run_only_appends_to_ledger (schema folder : string) (d : Db D)
  (res : Result unit) (w' : World) :
  runMigrationForSchema schema folder (startWorld d) = (res, w') ->
  snapshot w' = None /\
  ((forall name, ~ In (Script name) (sent w')) -> db w' = d) /\
  ((forall m,
      In m (toBeApplied fs (migrationDirOf currentDir folder) (ledger d)) ->
      confined m) ->
   exists done rest,
     toBeApplied fs (migrationDirOf currentDir folder) (ledger d)
     = done ++ rest /\
     ledger (db w') = ledger d ++ map (ledgerRow fs) done /\
     (res = Ok tt -> rest = [])).
Proof.
  intros Hrun. split; [|split].
  - destruct (run_cases _ sqlExec evalModule connects currentDir fs
                schema folder d)
      as [[_ H]|[(_ & _ & H)|[(_ & _ & e & f & _ & H)
         |[(_ & _ & pend & e & _ & He & H)
          |(_ & _ & pend & Hp & Hint & done & rest & Hsplit & Hall
              & [(_ & lg & H)
                |[(m & rest' & cause & t & lg & _ & Hf & H)
                 |(m & rest' & lg & _ & Href & H)]])]]]];
      rewrite H in Hrun; injection Hrun as _ <-; reflexivity.
  - intros Hno.
    destruct (run_cases _ sqlExec evalModule connects currentDir fs
                schema folder d)
      as [[_ H]|[(_ & _ & H)|[(_ & _ & e & f & _ & H)
         |[(_ & _ & pend & e & _ & He & H)
          |(_ & _ & pend & Hp & Hint & done & rest & Hsplit & Hall
              & [(_ & lg & H)
                |[(m & rest' & cause & t & lg & _ & Hf & H)
                 |(m & rest' & lg & _ & Href & H)]])]]]];
      rewrite H in Hrun; injection Hrun as _ <-; try reflexivity.
    + destruct done as [|n done]; [reflexivity|].
      destruct (Hno (MigrationFile.name n)). simpl. auto 10.
    + destruct done as [|n done];
        [|destruct (Hno (MigrationFile.name n)); simpl; auto 10].
      simpl. destruct Hf as [[Hnone _]|(f & _ & _ & ->)].
      * unfold leftByFailure. now rewrite Hnone.
      * destruct (Hno (MigrationFile.name m)). simpl. auto 10.
    + destruct (Hno (MigrationFile.name m)). simpl.
      do 3 right. apply in_or_app. left. apply in_flat_map.
      exists m. split; [apply in_or_app; right; now left | simpl; auto].
  - intros Hconf.
    destruct (run_confined schema folder d res w' Hrun Hconf)
      as (done & rest & H1 & H2 & H3 & _).
    now exists done, rest.
Qed.

(** X10.  A run whose scripts are confined keeps the ledger well formed:
    when no two rows have the same version before the run, none have after
    it, and when every row records the version its name starts with, so
    does every row after it. *)
Theorem run_keeps_ledger_wellformed (schema folder : string) (d : Db D)
  (res : Result unit) (w' : World) :
  runMigrationForSchema schema folder (startWorld d) = (res, w') ->
  (forall m,
     In m (toBeApplied fs (migrationDirOf currentDir folder) (ledger d)) ->
     confined m) ->
  (uniqueVersions (ledger d) -> uniqueVersions (ledger (db w'))) /\
  (namedByVersion (ledger d) -> namedByVersion (ledger (db w'))).
Proof.
  intros Hrun Hconf.
  destruct (run_confined schema folder d res w' Hrun Hconf)
    as (done & rest & Hsplit & -> & _).
  destruct (computePending (selectApplied (ledger d))
              (migrationDirOf currentDir folder)
              (map fst (fs (migrationDirOf currentDir folder))))
    as [pend|e] eqn:Hp.
  2:{ unfold toBeApplied in Hsplit. rewrite Hp in Hsplit.
      symmetry in Hsplit. apply app_eq_nil in Hsplit as [-> _].
      simpl. rewrite app_nil_r. auto. }
  rewrite (toBeApplied_eq fs _ _ _ Hp) in Hsplit.
  destruct (pending_wellformed fs _ _ _ Hp) as (Hwf & Hnd & _).
  assert (Hdone : forall m, In m done ->
            extractVersion (MigrationFile.name m)
            = Some (MigrationFile.version m) /\
            ~ In (versionZ m) (appliedVersionsOf (ledger d))).
  { intros m Hm.
    destruct (done_in_pending _ _ _ _ m Hsplit) as [Hin _];
      [apply in_or_app; now left|].
    destruct (Hwf m Hin) as (Hv & _ & Hna). split; [exact Hv|].
    intros H. apply Hna. now apply selectApplied_versions. }
  split.
  - unfold uniqueVersions, appliedVersionsOf. intros Hu.
    rewrite map_app. apply NoDup_app; [exact Hu | |].
    + fold (appliedVersionsOf (map (ledgerRow fs) done)).
      rewrite ledgerRows_versions.
      apply (notExecuted_NoDup
               (map AppliedMigration.name (selectApplied (ledger d)))) in Hnd.
      rewrite Hsplit, map_app in Hnd. now apply NoDup_app_remove_r in Hnd.
    + intros v Hv Hv'.
      fold (appliedVersionsOf (map (ledgerRow fs) done)) in Hv'.
      rewrite ledgerRows_versions in Hv'.
      apply in_map_iff in Hv' as (m & <- & Hm).
      now apply (proj2 (Hdone m Hm)).
  - intros Hnamed r Hr. apply in_app_or in Hr as [Hr|Hr]; [now apply Hnamed|].
    apply in_map_iff in Hr as (m & <- & Hm).
    exists (MigrationFile.version m). split; [|reflexivity].
    now apply (proj1 (Hdone m Hm)).
Qed.

(** X11.  After a run that completed and whose scripts are confined, every
    row of the ledger is intact: the rows it found, which it checked, and
    the rows it wrote. *)
Theorem completed_run_leaves_ledger_intact (schema folder : string)
  (d : Db D) (w' : World) :
  runMigrationForSchema schema folder (startWorld d) = (Ok tt, w') ->
  (forall m,
     In m (toBeApplied fs (migrationDirOf currentDir folder) (ledger d)) ->
     confined m) ->
  forall r, In r (ledger (db w')) ->
            intact fs (migrationDirOf currentDir folder) r.
Proof.
  intros Hrun Hconf.
  destruct (completed_run _ sqlExec evalModule connects currentDir fs
              schema folder d w' Hrun)
    as (_ & _ & Hint & pend & lg & Hp & Hall & ->).
  intros r Hr. simpl in Hr.
  rewrite (committed_confined _ sqlExec evalModule fs _ d Hconf Hall) in Hr.
  apply in_app_or in Hr as [Hr|Hr]; [now apply Hint|].
  apply in_map_iff in Hr as (m & <- & Hm).
  apply (ledgerRow_intact fs _ _ pend m Hp).
  rewrite (toBeApplied_eq fs _ _ _ Hp) in Hm. now apply filter_In in Hm.
Qed.



(** X14.  A run never executes a migration again: a script is sent only
    for a file of the directory whose name the ledger does not record and
    whose version the ledger does not hold. *)
Theorem run_never_reexecutes (schema folder : string) (d : Db D)
  (res : Result unit) (w' : World) (name : string) :
  runMigrationForSchema schema folder (startWorld d) = (res, w') ->
  In (Script name) (sent w') ->
  In name (map fst (fs (migrationDirOf currentDir folder))) /\
  ~ In name (map AppliedMigration.name (ledger d)) /\
  exists v, extractVersion name = Some v /\
            ~ In (Z.of_N v) (appliedVersionsOf (ledger d)).
Proof.
  intros Hrun Hin.
  assert (Hfrom : forall done,
            In (Script name) (flat_map (transaction fs) done) ->
            exists m, In m done /\ MigrationFile.name m = name).
  { intros done H. apply in_transactions in H as (n & Hn & [H|[H|[H|H]]]);
      try discriminate. exists n. split; [exact Hn | now injection H]. }
  assert (Hm : exists pend done rest m,
            computePending (selectApplied (ledger d))
              (migrationDirOf currentDir folder)
              (map fst (fs (migrationDirOf currentDir folder))) = Ok pend /\
            notExecuted
              (map AppliedMigration.name (selectApplied (ledger d))) pend
            = done ++ rest /\
            In m (done ++ rest) /\ MigrationFile.name m = name).
  { destruct (run_cases _ sqlExec evalModule connects currentDir fs
                schema folder d)
      as [[_ H]|[(_ & _ & H)|[(_ & _ & x & f & _ & H)
         |[(_ & _ & pend & e' & _ & He & H)
          |(_ & _ & pend & Hp & Hint & done & rest & Hsplit & Hall
              & [(_ & lg & H)
                |[(m & rest' & cause & t & lg & -> & Hf & H)
                 |(m & rest' & lg & -> & Href & H)]])]]]];
      rewrite H in Hrun; injection Hrun as _ <-; simpl in Hin.
    - destruct Hin.
    - destruct Hin as [H'|[H'|[H'|[]]]]; discriminate.
    - destruct Hin as [H'|[H'|[H'|[]]]]; discriminate.
    - destruct Hin as [H'|[H'|[H'|[]]]]; discriminate.
    - destruct Hin as [H'|[H'|[H'|H']]]; try discriminate.
      apply in_app_or in H' as [H'|H'].
      + destruct (Hfrom _ H') as (m & Hm & Hn).
        exists pend, done, rest, m. repeat (split; [assumption|]).
        split; [apply in_or_app; now left | exact Hn].
      + destruct H' as [H'|[H'|[]]]; discriminate.
    - destruct Hin as [H'|[H'|[H'|H']]]; try discriminate.
      apply in_app_or in H' as [H'|H'].
      + destruct (Hfrom _ H') as (n & Hn & Hname).
        exists pend, done, (m :: rest'), n. repeat (split; [assumption|]).
        split; [apply in_or_app; now left | exact Hname].
      + exists pend, done, (m :: rest'), m. repeat (split; [assumption|]).
        split; [apply in_or_app; right; now left|].
        destruct Hf as [[_ ->]|(f & _ & _ & ->)]; simpl in H'.
        * destruct H' as [H'|[H'|[]]]; discriminate.
        * destruct H' as [H'|[H'|[H'|[]]]]; try discriminate.
          now injection H'.
    - destruct Hin as [H'|[H'|[H'|H']]]; try discriminate.
      rewrite app_nil_r in H'. destruct (Hfrom _ H') as (n & Hn & Hname).
      exists pend, done, (m :: rest'), n. repeat (split; [assumption|]).
      split; [|exact Hname].
      apply in_app_or in Hn as [Hn|[<-|[]]]; apply in_or_app;
        [now left | right; now left]. }
  destruct Hm as (pend & done & rest & m & Hp & Hsplit & Hm & <-).
  destruct (done_in_pending _ _ _ _ m Hsplit Hm) as [Hpend Hname].
  destruct (pending_wellformed fs _ _ _ Hp) as (Hwf & _).
  destruct (Hwf m Hpend) as (Hv & _ & Hna).
  pose proof (computePending_ok _ _ _ _ Hp) as [Heq _].
  rewrite Heq in Hpend. apply pendingOf_In in Hpend as [Hall' _].
  apply allMigrationsOf_In in Hall' as (Hf' & _).
  split; [exact Hf'|]. split.
  - intros H. apply Hname. apply in_map_iff in H as (r & Hr & Hrin).
    apply in_map_iff. exists r. split; [exact Hr|].
    now apply (proj2 (selectApplied_In _ _)).
  - exists (MigrationFile.version m). split; [exact Hv|].
    intros H. apply Hna. now apply selectApplied_versions.
Qed.



Lemma lastOpt_app_snoc (A : Type) (l l' : list A) (x : A) :
  lastOpt (l ++ l' ++ [x]) = Some x.
Proof. rewrite app_assoc. apply lastOpt_snoc. Qed.

(** X16.  How a migration fails.  The failure of a [.sql] file is the
    missing file or the failed batch, as it is; the failure of a script,
    whatever it is (the module does not load, it exports no [up], or its
    [up] throws), is reported as a failure to import, and logged as one.
    In every case the last command sent is the rollback and the last line
    logged is that of the rollback, carrying the error thrown. *)
Theorem migrationUp_error_kinds (name : string) (fullPath : Path)
  (w : World) (e : Error) (w' : World) :
  snapshot w = None ->
  migrationUp name fullPath w = (Err e, w') ->
  (if Str.endsWith name ".sql"
   then e = ENOENT fullPath \/ e = QueryFailed name
   else exists cause,
          e = ImportFailed name cause /\
          (cause = LoadFailed fullPath \/ cause = NoUpExport name \/
           cause = UpThrew name) /\
          In (ErrorImport name cause) (logged w')) /\
  lastOpt (sent w') = Some Rollback /\
  lastOpt (logged w') = Some (ErrorRolledBack name e).
Proof.
  intros Hsnap Hrun.
  pose (m := MigrationFile.make name 0 fullPath).
  assert (Hok : forall f, scriptOf m = Some f ->
                          snd (f (db w) (Some (db w))) = true -> False).
  { intros f Hs Hf.
    destruct (migrationUp_success _ sqlExec evalModule fs m f w
                Hsnap Hs Hf) as [lg H].
    simpl in H. rewrite H in Hrun. discriminate. }
  unfold scriptOf in Hok. simpl in Hok.
  assert (Hlast : forall (d : Db D) (t : list Command) (lg : list LogLine) x,
            lastOpt (sent (rolledBack w d t (lg ++ [x]))) = Some Rollback /\
            lastOpt (logged (rolledBack w d t (lg ++ [x]))) = Some x).
  { intros d t lg x. simpl. split.
    - apply (lastOpt_app_snoc _ (sent w) (Begin :: t)).
    - apply lastOpt_app_snoc. }
  destruct (Str.endsWith name ".sql") eqn:Hsql.
  - destruct (fileText fs fullPath) as [content|] eqn:Ht.
    + destruct (snd (sqlExec content (db w) (Some (db w)))) eqn:Hf;
        [destruct (Hok _ eq_refl Hf)|].
      rewrite (migrationUp_sql_error _ sqlExec evalModule fs name fullPath
                 content w Hsnap Hsql Ht Hf) in Hrun.
      injection Hrun as <- <-. split; [now right|].
      apply (Hlast _ [Script name] []).
    + rewrite (migrationUp_sql_unreadable _ sqlExec evalModule fs name
                 fullPath w Hsnap Hsql Ht) in Hrun.
      injection Hrun as <- <-. split; [now left|]. apply (Hlast _ [] []).
  - assert (Hload :
      match fileText fs fullPath with
      | Some content => evalModule content = None
      | None => True
      end ->
      (exists cause,
         e = ImportFailed name cause /\
         (cause = LoadFailed fullPath \/ cause = NoUpExport name \/
          cause = UpThrew name) /\
         In (ErrorImport name cause) (logged w')) /\
      lastOpt (sent w') = Some Rollback /\
      lastOpt (logged w') = Some (ErrorRolledBack name e)).
    { intros H.
      rewrite (migrationUp_load_fails _ sqlExec evalModule fs name fullPath
                 w Hsnap Hsql H) in Hrun.
      injection Hrun as <- <-. split.
      - eexists. split; [reflexivity|]. split; [now left|].
        simpl. apply in_or_app. right. simpl. auto.
      - apply (Hlast _ [] [_; _]). }
    destruct (fileText fs fullPath) as [content|] eqn:Ht; [|now apply Hload].
    destruct (evalModule content) as [mig|] eqn:Hm; [|now apply Hload].
    clear Hload. destruct (up mig) as [f|] eqn:Hup.
    + destruct (snd (f (db w) (Some (db w)))) eqn:Hf;
        [destruct (Hok _ eq_refl Hf)|].
      rewrite (migrationUp_up_throws _ sqlExec evalModule fs name fullPath
                 content mig f w Hsnap Hsql Ht Hm Hup Hf) in Hrun.
      injection Hrun as <- <-. split.
      * eexists. split; [reflexivity|]. split; [now right; right|].
        simpl. apply in_or_app. right. simpl. auto.
      * apply (Hlast _ [Script name] [_]).
    + rewrite (migrationUp_no_up _ sqlExec evalModule fs name fullPath
                 content mig w Hsnap Hsql Ht Hm Hup) in Hrun.
      injection Hrun as <- <-. split.
      * eexists. split; [reflexivity|]. split; [now right; left|].
        simpl. apply in_or_app. right. simpl. auto.
      * apply (Hlast _ [] [_]).
Qed.

Lemma hexDigit_lower (n : N) :
  (n < 16)%N -> isLowerHex (MD5.hexDigit n) = true.
Proof.
  intros H. destruct n as [|p]; [reflexivity|].
  do 4 (try destruct p as [p|p|]); try reflexivity; lia.
Qed.

Lemma hex_format (bs : list N) :
  Forall (fun b => (b < 256)%N) bs ->
  String.length (MD5.hex bs) = 2 * List.length bs /\
  forallb isLowerHex (list_ascii_of_string (MD5.hex bs)) = true.
Proof.
  induction 1 as [|b bs Hb _ [IHl IHh]]; [split; reflexivity|].
  cbn [MD5.hex String.length list_ascii_of_string forallb List.length].
  rewrite IHl, IHh. split; [lia|].
  rewrite !hexDigit_lower; [reflexivity| |].
  - change 15%N with (N.ones 4). rewrite N.land_ones.
    now apply N.mod_lt.
  - rewrite N.shiftr_div_pow2. apply N.Div0.div_lt_upper_bound.
    exact Hb.
Qed.

Lemma bytes_le_format (n : nat) (x : N) :
  List.length (MD5.bytes_le n x) = n /\
  Forall (fun b => (b < 256)%N) (MD5.bytes_le n x).
Proof.
  unfold MD5.bytes_le. split; [now rewrite length_map, length_seq|].
  apply Forall_forall. intros b Hb. apply in_map_iff in Hb as (i & <- & _).
  change 255%N with (N.ones 8). rewrite N.land_ones.
  now apply N.mod_lt.
Qed.

Lemma digest_format (bs : list N) :
  List.length (MD5.digest bs) = 16 /\
  Forall (fun b => (b < 256)%N) (MD5.digest bs).
Proof.
  unfold MD5.digest. destruct (MD5.blocks _ _ _) as [a b c d].
  split.
  - rewrite !length_app.
    now rewrite !(proj1 (bytes_le_format 4 _)).
  - repeat (apply Forall_app; split); apply bytes_le_format.
Qed.

(** X17.  The fingerprint of a file is always 32 digits of lower-case
    hexadecimal, whatever the file holds, and reading it leaves the
    session as it is; so is then the [md5] of a row that [logMigration]
    writes. *)
Theorem getFileMd5_gives_32_hex_digits (filePath : Path) (content : string)
  (w : World) :
  fileText fs filePath = Some content ->
  exists h,
    getFileMd5 fs filePath w = (Ok h, w) /\
    String.length h = 32 /\
    forallb isLowerHex (list_ascii_of_string h) = true.
Proof.
  intros Ht. exists (MD5.md5hex content).
  rewrite getFileMd5_eq, Ht. split; [reflexivity|].
  unfold MD5.md5hex.
  destruct (digest_format (map N_of_ascii (list_ascii_of_string content)))
    as [Hlen Hb].
  destruct (hex_format _ Hb) as [Hl Hh].
  rewrite Hl, Hlen. split; [reflexivity | exact Hh].
Qed.

(** X18.  The driver adds nothing to the run but two lines of the log:
    after [main] the database, the open transaction and the commands sent
    are those the run of the main schema left; the log is that of the run,
    then one line, then the line of the exit.  The one line is that of
    completion exactly when the run completed and the shutdown went well,
    and the line of the failure of the run when it failed; the line of a
    fatal error is never written. *)
Theorem main_only_reports_the_run (w : World) (res : Result unit)
  (w1 : World) :
  runMigrationForSchema mainSchema mainSchema w = (res, w1) ->
  db (snd (main w)) = db w1 /\
  snapshot (snd (main w)) = snapshot w1 /\
  sent (snd (main w)) = sent w1 /\
  exists line,
    logged (snd (main w)) = logged w1 ++ [line; InfoExiting] /\
    (line = InfoAllDone <-> res = Ok tt /\ shutsDown = true) /\
    (forall e, res = Err e -> line = ErrorProcessFailed e).
Proof.
  intros Hrun. unfold main.
  rewrite (handleMigration_eq _ sqlExec evalModule connects shutsDown
             mainSchema currentDir fs w), Hrun.
  assert (Hc : res = Ok tt -> connects = true).
  { intros ->.
    assert (H : connects = true \/ connects = false)
      by (destruct connects; auto).
    destruct H as [H|H]; [exact H|].
    rewrite (run_no_client _ sqlExec evalModule connects currentDir fs
               mainSchema mainSchema w H) in Hrun.
    discriminate. }
  destruct res as [[]|e].
  - rewrite (Hc eq_refl).
    assert (H : shutsDown = true \/ shutsDown = false)
      by (destruct shutsDown; auto).
    destruct H as [H|H]; rewrite H; simpl;
      repeat (split; [reflexivity|]); eexists;
      (split; [rewrite <- app_assoc; reflexivity|]);
      (split; [split; [auto; discriminate | intros [_ H']; auto;
                                             discriminate]
              |discriminate]).
  - simpl. repeat (split; [reflexivity|]). eexists.
    split; [rewrite <- app_assoc; reflexivity|].
    split; [split; [discriminate | intros [H' _]; discriminate]|].
    now intros e' [= <-].
Qed.

End ManagerMore.

(* ================================================================= *)
(** ** The further facts on the concrete instance *)

Section MoreOnTheInstance.
Import Example.
Open Scope string_scope.

#[local] Opaque MD5.md5hex.

(** [12-users.sql] and [012-users.sql] both have version 12; the version
    of [9007199254740993-x.sql] is the Number next to its digits. *)
Lemma extractVersion_of_decimal_witness :
  extractVersion "12-users.sql" = Some 12%N /\
  extractVersion "012-users.sql" = Some 12%N /\
  extractVersion "9007199254740993-x.sql" = Some 9007199254740992%N.
Proof.
  split; [|split].
  - apply (proj1 (proj2 extractVersion_of_decimal) 12%N "users.sql").
    reflexivity.
  - apply (proj2 (proj2 extractVersion_of_decimal) "12-users.sql" 12%N).
    reflexivity.
  - exact (proj1 extractVersion_of_decimal 9007199254740993%N "x.sql").
Defined.

(** Two files listed in one order and in the other; two files of version
    3 after a gap, listed in one order and in another: the file named by
    the error is the one listed first. *)
Lemma computePending_listing_order_witness :
  computePending [] dir ["1-init.sql"; "2-add-index.sql"]
  = Ok [MigrationFile.make "1-init.sql" 1 (pathJoin dir "1-init.sql");
        MigrationFile.make "2-add-index.sql" 2
          (pathJoin dir "2-add-index.sql")] /\
  computePending [] dir ["3-d.sql"; "1-a.sql"; "3-c.sql"]
  = Err (VersionMismatch 2 "3-d.sql") /\
  exists found',
    computePending [] dir ["3-d.sql"; "1-a.sql"; "3-c.sql"]
    = Err (VersionMismatch 2 found') /\
    extractVersion found' = extractVersion "3-c.sql".
Proof.
  split; [|split].
  - apply (proj1 (computePending_listing_order [] dir
                    ["2-add-index.sql"; "1-init.sql"]
                    ["1-init.sql"; "2-add-index.sql"] (perm_swap _ _ _))).
    reflexivity.
  - reflexivity.
  - apply (proj2 (computePending_listing_order [] dir
                    ["1-a.sql"; "3-c.sql"; "3-d.sql"]
                    ["3-d.sql"; "1-a.sql"; "3-c.sql"]
                    (Permutation_sym
                       (Permutation_cons_append ["1-a.sql"; "3-c.sql"]
                          "3-d.sql")))).
    reflexivity.
Defined.

(** Version 1 applied, files of versions 3 and 2 and a text file. *)
Lemma computePending_accepts_contiguous_witness :
  computePending (ledger (appliedInit "A")) dir
    ["3-c.sql"; "notes.txt"; "2-b.sql"]
  = Ok [MigrationFile.make "2-b.sql" 2 (pathJoin dir "2-b.sql");
        MigrationFile.make "3-c.sql" 3 (pathJoin dir "3-c.sql")].
Proof.
  apply (computePending_accepts_contiguous (ledger (appliedInit "A")) dir
           ["3-c.sql"; "notes.txt"; "2-b.sql"] 2).
  apply Permutation_refl.
Defined.

(** Versions 1 and 3 applied, a file of version 2 added. *)
Lemma computePending_rejects_backfill_witness :
  exists expected found,
    computePending
      [AppliedMigration.make 1 "1-a.sql" "abc123";
       AppliedMigration.make 3 "3-c.sql" "def456"]
      dir ["1-a.sql"; "2-b.sql"; "3-c.sql"]
    = Err (VersionMismatch expected found).
Proof.
  apply (computePending_rejects_backfill
           [AppliedMigration.make 1 "1-a.sql" "abc123";
            AppliedMigration.make 3 "3-c.sql" "def456"]
           dir ["1-a.sql"; "2-b.sql"; "3-c.sql"] "2-b.sql" 2%N).
  - simpl; auto.
  - reflexivity.
  - reflexivity.
  - simpl. intros [H|[H|[]]]; discriminate.
  - vm_compute. discriminate.
Defined.

(** A text file and a file without a version between two migrations. *)
Lemma computePending_ignores_other_files_witness :
  computePending [] dir ["1-init.sql"; "notes.txt"; "2-add-index.sql"]
  = computePending [] dir ["1-init.sql"; "2-add-index.sql"] /\
  computePending [] dir ["1-init.sql"; "init.sql"; "2-add-index.sql"]
  = computePending [] dir ["1-init.sql"; "2-add-index.sql"].
Proof.
  split.
  - apply (computePending_ignores_other_files [] dir ["1-init.sql"]
             ["2-add-index.sql"] "notes.txt").
    left. reflexivity.
  - apply (computePending_ignores_other_files [] dir ["1-init.sql"]
             ["2-add-index.sql"] "init.sql").
    right. reflexivity.
Defined.

(** Version 1 applied: [2-next.sql] is logged and unlogged. *)
Lemma log_then_unlog_restores_ledger_witness :
  exists w1 w2,
    logMigration emptiedDir "2-next.sql" (pathJoin dir "2-next.sql")
      (startWorld (appliedInit "A")) = (Ok tt, w1) /\
    ledger (db w1)
    = (ledger (appliedInit "A")
       ++ [AppliedMigration.make 2 "2-next.sql"
             (MD5.md5hex "CREATE TABLE u")])%list /\
    unlogMigration (NameString "2-next.sql") w1 = (Ok tt, w2) /\
    db w2 = appliedInit "A" /\
    sent w2
    = [Insert (AppliedMigration.make 2 "2-next.sql"
                 (MD5.md5hex "CREATE TABLE u"));
       Delete 2].
Proof.
  apply (log_then_unlog_restores_ledger Schema emptiedDir "2-next.sql" 2%N
           (pathJoin dir "2-next.sql") "CREATE TABLE u"
           (startWorld (appliedInit "A"))).
  - reflexivity.
  - reflexivity.
  - simpl. intros [H|[]]. discriminate.
Defined.

(** Version 1 is in the ledger: logging [1-init.sql] again is refused. *)
Lemma logMigration_failures_keep_ledger_witness :
  exists w',
    logMigration editedDir "1-init.sql" (pathJoin dir "1-init.sql")
      (startWorld (appliedInit "A"))
    = (Err (DuplicateKey 1), w') /\
    db w' = appliedInit "A" /\
    sent w'
    = [Insert (AppliedMigration.make 1 "1-init.sql" (MD5.md5hex "B"))].
Proof.
  apply (proj2 (logMigration_failures_keep_ledger Schema editedDir
                  "1-init.sql" 1%N (pathJoin dir "1-init.sql")
                  (startWorld (appliedInit "A")) eq_refl) "B").
  - reflexivity.
  - simpl. auto.
Defined.

(** [1-init.sql] holds the text it was applied with. *)
Lemma executed_iff_all_intact_witness :
  executed duplicateDir (ledger (appliedInit "A")) dir
    (startWorld (appliedInit "A"))
  = (Ok ["1-init.sql"], startWorld (appliedInit "A")).
Proof.
  apply (proj1 (proj1 (executed_iff_all_intact Schema duplicateDir
                         (ledger (appliedInit "A")) dir
                         (startWorld (appliedInit "A"))))).
  intros r [<-|[]]. reflexivity.
Defined.

(** Of three files the second raises: no transaction stays open and the
    row of the first is appended. *)
Lemma run_only_appends_to_ledger_witness :
  snapshot failedWorld = None /\
  exists done rest,
    toBeApplied failingDir dir (ledger emptyDb) = (done ++ rest)%list /\
    ledger (db failedWorld)
    = (ledger emptyDb ++ map (ledgerRow failingDir) done)%list /\
    (Err (MigrationError "2-bad.sql" (QueryFailed "2-bad.sql")) = Ok tt ->
     rest = []).
Proof.
  destruct (run_only_appends_to_ledger Schema sqlExec evalModule true "/app"
              failingDir "main" "main" emptyDb
              (Err (MigrationError "2-bad.sql" (QueryFailed "2-bad.sql")))
              failedWorld)
    as (Hclosed & _ & Hrows); [vm_compute; reflexivity|].
  split; [exact Hclosed|]. apply Hrows. intros m [<-|[<-|[<-|[]]]].
  - now apply (recording_batch_confined failingDir _ "CREATE TABLE t").
  - now apply (recording_batch_confined failingDir _ "SELECT 1/0").
  - now apply (recording_batch_confined failingDir _ "CREATE TABLE u").
Defined.

(** Version 1 applied, version 2 pending: the ledger of the two rows is
    well formed. *)
Lemma run_keeps_ledger_wellformed_witness :
  uniqueVersions (ledger (db afterNextRun)) /\
  namedByVersion (ledger (db afterNextRun)).
Proof.
  destruct (run_keeps_ledger_wellformed Schema sqlExec evalModule true
              "/app" nextDir "main" "main" (appliedInit "A") (Ok tt)
              afterNextRun)
    as [Hunique Hnamed].
  - vm_compute; reflexivity.
  - intros m [<-|[]].
    now apply (recording_batch_confined nextDir _ "CREATE TABLE u").
  - split.
    + apply Hunique. repeat constructor. intros [].
    + apply Hnamed. intros r [<-|[]]. exists 1%N. split; reflexivity.
Defined.

(** Version 1 applied, version 2 pending: the row found and the row
    written are intact. *)
Lemma completed_run_leaves_ledger_intact_witness :
  intact nextDir dir
    (AppliedMigration.make 1 "1-init.sql" (MD5.md5hex "A")) /\
  intact nextDir dir
    (AppliedMigration.make 2 "2-next.sql" (MD5.md5hex "CREATE TABLE u")).
Proof.
  assert (H : forall r, In r (ledger (db afterNextRun)) ->
                        intact nextDir dir r).
  { apply (completed_run_leaves_ledger_intact Schema sqlExec evalModule true
             "/app" nextDir "main" "main" (appliedInit "A") afterNextRun).
    - vm_compute; reflexivity.
    - intros m [<-|[]].
      now apply (recording_batch_confined nextDir _ "CREATE TABLE u"). }
  split; apply H; vm_compute; [left | right; left]; reflexivity.
Defined.



(** The script of [2-bad.sql] was sent: the ledger did not hold it. *)
Lemma run_never_reexecutes_witness :
  In "2-bad.sql" (map fst (failingDir dir)) /\
  ~ In "2-bad.sql" (map AppliedMigration.name (ledger emptyDb)) /\
  exists v, extractVersion "2-bad.sql" = Some v /\
            ~ In (Z.of_N v) (appliedVersionsOf (ledger emptyDb)).
Proof.
  apply (run_never_reexecutes Schema sqlExec evalModule true "/app"
           failingDir "main" "main" emptyDb
           (Err (MigrationError "2-bad.sql" (QueryFailed "2-bad.sql")))
           failedWorld "2-bad.sql").
  - vm_compute; reflexivity.
  - vm_compute. auto 10.
Defined.


(** The batch of [1-bad.sql] raises. *)
Lemma migrationUp_error_kinds_witness :
  (QueryFailed "1-bad.sql" = ENOENT (pathJoin dir "1-bad.sql") \/
   QueryFailed "1-bad.sql" = QueryFailed "1-bad.sql") /\
  lastOpt (sent afterBadRun) = Some Rollback /\
  lastOpt (logged afterBadRun)
  = Some (ErrorRolledBack "1-bad.sql" (QueryFailed "1-bad.sql")).
Proof.
  apply (migrationUp_error_kinds Schema sqlExec evalModule badDir
           "1-bad.sql" (pathJoin dir "1-bad.sql")
           (afterSetup "main" emptyDb) (QueryFailed "1-bad.sql")
           afterBadRun).
  - reflexivity.
  - vm_compute; reflexivity.
Defined.

(** The fingerprint of the edited [1-init.sql]. *)
Lemma getFileMd5_gives_32_hex_digits_witness :
  exists h,
    getFileMd5 editedDir (pathJoin dir "1-init.sql") (startWorld emptyDb)
    = (Ok h, startWorld emptyDb) /\
    String.length h = 32 /\
    forallb isLowerHex (list_ascii_of_string h) = true.
Proof.
  apply (getFileMd5_gives_32_hex_digits Schema editedDir
           (pathJoin dir "1-init.sql") "B" (startWorld emptyDb)).
  reflexivity.
Defined.

(** Of three files the second raises: the driver reports the failure and
    the exit, and nothing else. *)
Lemma main_only_reports_the_run_witness :
  db (snd (main sqlExec evalModule true true "main" "/app" failingDir
             (startWorld emptyDb)))
  = db failedWorld /\
  snapshot (snd (main sqlExec evalModule true true "main" "/app" failingDir
                   (startWorld emptyDb)))
  = snapshot failedWorld /\
  sent (snd (main sqlExec evalModule true true "main" "/app" failingDir
               (startWorld emptyDb)))
  = sent failedWorld /\
  exists line,
    logged (snd (main sqlExec evalModule true true "main" "/app" failingDir
                   (startWorld emptyDb)))
    = (logged failedWorld ++ [line; InfoExiting])%list /\
    (line = InfoAllDone <->
     Err (MigrationError "2-bad.sql" (QueryFailed "2-bad.sql")) = Ok tt /\
     true = true) /\
    (forall e,
       @Err unit (MigrationError "2-bad.sql" (QueryFailed "2-bad.sql"))
       = Err e ->
       line = ErrorProcessFailed e).
Proof.
  apply (main_only_reports_the_run Schema sqlExec evalModule true true
           "main" "/app" failingDir (startWorld emptyDb)
           (Err (MigrationError "2-bad.sql" (QueryFailed "2-bad.sql")))
           failedWorld).
  vm_compute; reflexivity.
Defined.

End MoreOnTheInstance.
